(** * A shallow embedding of the TOYVM bytecode machine (minvm.h, minvm.c, main.c)

    The machine state of [struct TOYVM] is a record, every instruction rule
    [ExecuteXxx] is a function from machine states to results, and the
    fetch-execute loop [RunVM] is iterated with an explicit step budget.

    Conventions for C arithmetic.
    - [int32_t] values are integers in [-2^31, 2^31); additions, subtractions,
      multiplications, negations and narrowing conversions wrap around
      ([to_int32]), and the shifts and masks of [ReadWord] and [WriteWord]
      act on the two's complement bits.
    - [size_t] is taken to be 64 bits wide ([to_size_t]); mixed comparisons
      between [int32_t] and [size_t] are done in [size_t], as the usual
      arithmetic conversions prescribe.
    - Accesses outside the tape or outside the register array, division or
      remainder by zero and the overflowing [INT_MIN / -1], [INT_MIN % -1]
      have no defined result: a rule that reaches one of them yields
      [Undef]. *)

From Stdlib Require Import ZArith Lia Bool.
From stdpp Require Import base list.

Local Open Scope Z_scope.

(** ** Machine integers *)

Module CInt.

Definition int32_min : Z := - 2 ^ 31.
Definition int32_max : Z := 2 ^ 31 - 1.

Definition in_int32 (z : Z) : Prop := int32_min <= z <= int32_max.

#[global] Instance in_int32_dec (z : Z) : Decision (in_int32 z).
Proof. unfold in_int32. apply _. Defined.

(** Conversion to [int32_t] (two's complement wrap-around). *)
Definition to_int32 (z : Z) : Z := (z + 2 ^ 31) mod 2 ^ 32 - 2 ^ 31.

(** Conversions to the unsigned types. *)
Definition to_uint8 (z : Z) : Z := z mod 2 ^ 8.
Definition to_uint32 (z : Z) : Z := z mod 2 ^ 32.
Definition to_size_t (z : Z) : Z := z mod 2 ^ 64.

(** [a / b] and [a % b] on [int32_t]: truncating, and undefined for a zero
    divisor and for the quotient that does not fit. *)
Definition div_defined (a b : Z) : bool :=
  negb (b =? 0) && negb ((a =? int32_min) && (b =? -1)).

Definition c_div (a b : Z) : option Z :=
  if div_defined a b then Some (Z.quot a b) else None.

Definition c_rem (a b : Z) : option Z :=
  if div_defined a b then Some (Z.rem a b) else None.

End CInt.
Import CInt.

(** ** The enumeration of minvm.h *)

Definition ADD : Z := 0x01.
Definition NEG : Z := 0x02.
Definition MUL : Z := 0x03.
Definition DIV : Z := 0x04.
Definition MOD : Z := 0x05.

Definition CMP : Z := 0x10.
Definition JA : Z := 0x11.
Definition JE : Z := 0x12.
Definition JB : Z := 0x13.
Definition JMP : Z := 0x14.

Definition CALL : Z := 0x20.
Definition RET : Z := 0x21.

Definition LOAD : Z := 0x30.
Definition STORE : Z := 0x31.
Definition CONST : Z := 0x32.
Definition RLOAD : Z := 0x33.
Definition RSTORE : Z := 0x34.

Definition HALT : Z := 0x40.
Definition INT : Z := 0x41.
Definition NOP : Z := 0x42.

Definition PUSH : Z := 0x50.
Definition PUSH_ALL : Z := 0x51.
Definition POP : Z := 0x52.
Definition POP_ALL : Z := 0x53.
Definition LSP : Z := 0x54.

Definition REG1 : Z := 0x00.
Definition REG2 : Z := 0x01.
Definition REG3 : Z := 0x02.
Definition REG4 : Z := 0x03.

Definition INTERRUPT_PRINT_INTEGER : Z := 0x01.
Definition INTERRUPT_PRINT_STRING : Z := 0x02.

Definition N_REGISTERS : Z := 4.
Definition OPCODE_MAP_SIZE : Z := 256.

(** ** Machine state *)

(** The bit-field [status] of [VM_CPU]. *)
Record status_flags : Type := mk_status {
  BAD_INSTRUCTION : bool;
  STACK_UNDERFLOW : bool;
  STACK_OVERFLOW : bool;
  INVALID_REGISTER_INDEX : bool;
  BAD_ACCESS : bool;
  COMPARISON_BELOW : bool;
  COMPARISON_EQUAL : bool;
  COMPARISON_ABOVE : bool
}.

Record VM_CPU : Type := mk_cpu {
  registers : list Z;
  program_counter : Z;
  stack_pointer : Z;
  status : status_flags
}.

(** What the [printf] calls of the interrupt rule write to standard output. *)
Inductive output : Type :=
| PrintedInteger (n : Z)
| PrintedString (bytes : list Z).

(** [struct TOYVM].  [memory] is the allocated tape, one [uint8_t] per cell;
    [console] is not a field of the C struct: it records the standard output
    of the process so that the interrupt rule stays a function of the state. *)
Record TOYVM : Type := mk_vm {
  memory : list Z;
  memory_size : Z;
  stack_limit : Z;
  cpu : VM_CPU;
  opcode_map : list Z;
  console : list output
}.

(** Field updates, written [vm->cpu.program_counter = v] and the like in C. *)
Definition set_cpu (c : VM_CPU) (vm : TOYVM) : TOYVM :=
  mk_vm (memory vm) (memory_size vm) (stack_limit vm) c
        (opcode_map vm) (console vm).

Definition set_memory (m : list Z) (vm : TOYVM) : TOYVM :=
  mk_vm m (memory_size vm) (stack_limit vm) (cpu vm)
        (opcode_map vm) (console vm).

Definition set_console (o : list output) (vm : TOYVM) : TOYVM :=
  mk_vm (memory vm) (memory_size vm) (stack_limit vm) (cpu vm)
        (opcode_map vm) o.

Definition set_registers (r : list Z) (vm : TOYVM) : TOYVM :=
  set_cpu (mk_cpu r (program_counter (cpu vm)) (stack_pointer (cpu vm))
                  (status (cpu vm))) vm.

Definition set_program_counter (v : Z) (vm : TOYVM) : TOYVM :=
  set_cpu (mk_cpu (registers (cpu vm)) v (stack_pointer (cpu vm))
                  (status (cpu vm))) vm.

Definition set_stack_pointer (v : Z) (vm : TOYVM) : TOYVM :=
  set_cpu (mk_cpu (registers (cpu vm)) (program_counter (cpu vm)) v
                  (status (cpu vm))) vm.

Definition set_status (s : status_flags) (vm : TOYVM) : TOYVM :=
  set_cpu (mk_cpu (registers (cpu vm)) (program_counter (cpu vm))
                  (stack_pointer (cpu vm)) s) vm.

Definition flags (vm : TOYVM) : status_flags := status (cpu vm).

(** [vm->cpu.status.F = 1] for each of the five fault flags. *)
Definition raise_BAD_INSTRUCTION (vm : TOYVM) : TOYVM :=
  let s := flags vm in
  set_status (mk_status true (STACK_UNDERFLOW s) (STACK_OVERFLOW s)
                (INVALID_REGISTER_INDEX s) (BAD_ACCESS s) (COMPARISON_BELOW s)
                (COMPARISON_EQUAL s) (COMPARISON_ABOVE s)) vm.

Definition raise_STACK_UNDERFLOW (vm : TOYVM) : TOYVM :=
  let s := flags vm in
  set_status (mk_status (BAD_INSTRUCTION s) true (STACK_OVERFLOW s)
                (INVALID_REGISTER_INDEX s) (BAD_ACCESS s) (COMPARISON_BELOW s)
                (COMPARISON_EQUAL s) (COMPARISON_ABOVE s)) vm.

Definition raise_STACK_OVERFLOW (vm : TOYVM) : TOYVM :=
  let s := flags vm in
  set_status (mk_status (BAD_INSTRUCTION s) (STACK_UNDERFLOW s) true
                (INVALID_REGISTER_INDEX s) (BAD_ACCESS s) (COMPARISON_BELOW s)
                (COMPARISON_EQUAL s) (COMPARISON_ABOVE s)) vm.

Definition raise_INVALID_REGISTER_INDEX (vm : TOYVM) : TOYVM :=
  let s := flags vm in
  set_status (mk_status (BAD_INSTRUCTION s) (STACK_UNDERFLOW s)
                (STACK_OVERFLOW s) true (BAD_ACCESS s) (COMPARISON_BELOW s)
                (COMPARISON_EQUAL s) (COMPARISON_ABOVE s)) vm.

Definition raise_BAD_ACCESS (vm : TOYVM) : TOYVM :=
  let s := flags vm in
  set_status (mk_status (BAD_INSTRUCTION s) (STACK_UNDERFLOW s)
                (STACK_OVERFLOW s) (INVALID_REGISTER_INDEX s) true
                (COMPARISON_BELOW s) (COMPARISON_EQUAL s)
                (COMPARISON_ABOVE s)) vm.

(** The three assignments to the comparison flags made by [ExecuteCmp]. *)
Definition set_comparison (below equal above : bool) (vm : TOYVM) : TOYVM :=
  let s := flags vm in
  set_status (mk_status (BAD_INSTRUCTION s) (STACK_UNDERFLOW s)
                (STACK_OVERFLOW s) (INVALID_REGISTER_INDEX s) (BAD_ACCESS s)
                below equal above) vm.

(** The test made by main.c before it prints the status: some fault flag is
    set. *)
Definition fault_flag_set (vm : TOYVM) : bool :=
  BAD_ACCESS (flags vm) || BAD_INSTRUCTION (flags vm)
  || INVALID_REGISTER_INDEX (flags vm) || STACK_OVERFLOW (flags vm)
  || STACK_UNDERFLOW (flags vm).

(** ** Results of running a piece of code on a machine *)

(** [Ok a vm]: the code returned [a] and left the machine in [vm].
    [Undef vm]: the code reached an operation without defined behaviour when
    the machine was in state [vm]. *)
Inductive result (A : Type) : Type :=
| Ok (a : A) (vm : TOYVM)
| Undef (vm : TOYVM).
Arguments Ok {A} a vm.
Arguments Undef {A} vm.

(** A read that may be undefined, continued by [k] when it is defined. *)
Definition defined {A B : Type} (vm : TOYVM) (o : option A)
    (k : A -> result B) : result B :=
  match o with
  | Some a => k a
  | None => Undef vm
  end.

Notation "'let?' x ':=' o 'at' vm 'in' k" :=
  (defined vm o (fun x => k))
  (at level 10, x name, o at level 100, vm at level 9, k at level 200).

(** ** The instruction table, first half

    [instructions] in minvm.c pairs every opcode with its length and its
    rule, and the rules read the lengths back through [GetInstructionLength].
    The lengths therefore come first here; the rules are attached to them in
    [instructions] below, row by row. *)

Record instruction_entry : Type := mk_entry {
  entry_opcode : Z;
  entry_size : Z
}.

Definition instruction_entries : list instruction_entry :=
  [ mk_entry 0 0;
    mk_entry ADD 3; mk_entry NEG 2; mk_entry MUL 3; mk_entry DIV 3;
    mk_entry MOD 3;
    mk_entry CMP 3; mk_entry JA 5; mk_entry JE 5; mk_entry JB 5;
    mk_entry JMP 5;
    mk_entry CALL 5; mk_entry RET 1;
    mk_entry LOAD 6; mk_entry STORE 6; mk_entry CONST 6; mk_entry RLOAD 3;
    mk_entry RSTORE 3;
    mk_entry HALT 1; mk_entry INT 2; mk_entry NOP 1;
    mk_entry PUSH 2; mk_entry PUSH_ALL 1; mk_entry POP 2; mk_entry POP_ALL 1;
    mk_entry LSP 2 ].

(** ** Helpers of minvm.c *)

Definition StackIsEmpty (vm : TOYVM) : bool :=
  memory_size vm <=? stack_pointer (cpu vm).

Definition StackIsFull (vm : TOYVM) : bool :=
  stack_pointer (cpu vm) <=? stack_limit vm.

Definition GetAvailableStackSize (vm : TOYVM) : Z :=
  to_int32 (stack_pointer (cpu vm) - stack_limit vm).

Definition GetOccupiedStackSize (vm : TOYVM) : Z :=
  to_int32 (memory_size vm - stack_pointer (cpu vm)).

(** Both comparisons are against [sizeof(int32_t) * N_REGISTERS], a [size_t]:
    the signed left operand is converted to [size_t] first. *)
Definition CanPerformMultipush (vm : TOYVM) : bool :=
  4 * N_REGISTERS <=? to_size_t (GetAvailableStackSize vm).

Definition CanPerformMultipop (vm : TOYVM) : bool :=
  4 * N_REGISTERS <=? to_size_t (GetOccupiedStackSize vm).

(** [vm->memory[address]]; defined inside the allocated tape only. *)
Definition ReadByte (vm : TOYVM) (address : Z) : option Z :=
  if 0 <=? address then memory vm !! Z.to_nat address else None.

(** [(int32_t)((b4 << 24) | (b3 << 16) | (b2 << 8) | b1)]. *)
Definition ReadWord (vm : TOYVM) (address : Z) : option Z :=
  b1 ← ReadByte vm address;
  b2 ← ReadByte vm (address + 1);
  b3 ← ReadByte vm (address + 2);
  b4 ← ReadByte vm (address + 3);
  Some (to_int32 (Z.lor (Z.lor (Z.lor (Z.shiftl b4 24) (Z.shiftl b3 16))
                               (Z.shiftl b2 8)) b1)).

(** The four bytes stored by [WriteWord], lowest address first. *)
Definition word_bytes (value : Z) : list Z :=
  [ to_uint8 (Z.land value 0xff);
    to_uint8 (Z.shiftr (Z.land value 0xff00) 8);
    to_uint8 (Z.shiftr (Z.land value 0xff0000) 16);
    to_uint8 (Z.shiftr (Z.land (to_uint32 value) 0xff000000) 24) ].

Definition WriteWord (vm : TOYVM) (address value : Z) : option TOYVM :=
  if (0 <=? address) && (address + 3 <? Z.of_nat (length (memory vm))) then
    let a := Z.to_nat address in
    match word_bytes value with
    | [b1; b2; b3; b4] =>
        Some (set_memory
                (<[S (S (S a)) := b4]>
                   (<[S (S a) := b3]> (<[S a := b2]> (<[a := b1]> (memory vm)))))
                vm)
    | _ => None
    end
  else None.

(** [vm->cpu.registers[index]], read and written; defined for the four
    elements of the array only. *)
Definition read_register (vm : TOYVM) (index : Z) : option Z :=
  if (0 <=? index) && (index <? N_REGISTERS)
  then registers (cpu vm) !! Z.to_nat index else None.

Definition write_register (vm : TOYVM) (index value : Z) : option TOYVM :=
  if (0 <=? index) && (index <? N_REGISTERS)
     && (index <? Z.of_nat (length (registers (cpu vm))))
  then Some (set_registers (<[Z.to_nat index := value]> (registers (cpu vm))) vm)
  else None.

Definition PopVM (vm : TOYVM) : result Z :=
  if StackIsEmpty vm then Ok 0 (raise_BAD_ACCESS vm)
  else
    let? word := ReadWord vm (stack_pointer (cpu vm)) at vm in
    Ok word (set_stack_pointer (to_int32 (stack_pointer (cpu vm) + 4)) vm).

Definition PushVM (vm : TOYVM) (value : Z) : result unit :=
  let vm1 := set_stack_pointer (to_int32 (stack_pointer (cpu vm) - 4)) vm in
  let? vm2 := WriteWord vm1 (stack_pointer (cpu vm1)) (to_int32 value) at vm1 in
  Ok tt vm2.

Definition IsValidRegisterIndex (byte : Z) : bool :=
  (byte =? REG1) || (byte =? REG2) || (byte =? REG3) || (byte =? REG4).

Definition GetProgramCounter (vm : TOYVM) : Z := program_counter (cpu vm).

(** [instructions[vm->opcode_map[opcode]].size]. *)
Definition GetInstructionLength (vm : TOYVM) (opcode : Z) : option Z :=
  index ← opcode_map vm !! Z.to_nat opcode;
  entry ← instruction_entries !! Z.to_nat index;
  Some (entry_size entry).

(** The sum and the comparison are computed in [size_t]. *)
Definition InstructionFitsInMemory (vm : TOYVM) (opcode : Z) : option bool :=
  instruction_length ← GetInstructionLength vm opcode;
  Some (to_size_t (to_size_t (program_counter (cpu vm)) + instruction_length)
        <=? to_size_t (memory_size vm)).

(** The common ending of the rules,
    [vm->cpu.program_counter += GetInstructionLength(vm, opcode);
    return false;]: the sum is computed in [size_t] and converted back to
    [int32_t]. *)
Definition advance (opcode : Z) (vm : TOYVM) : result bool :=
  let? len := GetInstructionLength vm opcode at vm in
  Ok false (set_program_counter
              (to_int32 (to_size_t (to_size_t (program_counter (cpu vm)) + len)))
              vm).

(** ** Instruction rules

    Every rule returns the flag tested by [RunVM]: [true] stops the loop. *)

Definition ExecuteAdd (vm : TOYVM) : result bool :=
  let? fits := InstructionFitsInMemory vm ADD at vm in
  if negb fits then Ok true (raise_BAD_ACCESS vm) else
  let? source_register_index := ReadByte vm (GetProgramCounter vm + 1) at vm in
  let? target_register_index := ReadByte vm (GetProgramCounter vm + 2) at vm in
  if negb (IsValidRegisterIndex source_register_index)
     || negb (IsValidRegisterIndex target_register_index)
  then Ok true (raise_INVALID_REGISTER_INDEX vm) else
  let? target := read_register vm target_register_index at vm in
  let? source := read_register vm source_register_index at vm in
  let? vm1 := write_register vm target_register_index
                (to_int32 (target + source)) at vm in
  advance ADD vm1.

Definition ExecuteNeg (vm : TOYVM) : result bool :=
  let? fits := InstructionFitsInMemory vm NEG at vm in
  if negb fits then Ok true (raise_BAD_ACCESS vm) else
  let? register_index := ReadByte vm (GetProgramCounter vm + 1) at vm in
  if negb (IsValidRegisterIndex register_index)
  then Ok true (raise_INVALID_REGISTER_INDEX vm) else
  let? value := read_register vm register_index at vm in
  let? vm1 := write_register vm register_index (to_int32 (- value)) at vm in
  advance NEG vm1.

Definition ExecuteMul (vm : TOYVM) : result bool :=
  let? fits := InstructionFitsInMemory vm MUL at vm in
  if negb fits then Ok true (raise_BAD_ACCESS vm) else
  let? source_register_index := ReadByte vm (GetProgramCounter vm + 1) at vm in
  let? target_register_index := ReadByte vm (GetProgramCounter vm + 2) at vm in
  if negb (IsValidRegisterIndex source_register_index)
     || negb (IsValidRegisterIndex target_register_index)
  then Ok true (raise_INVALID_REGISTER_INDEX vm) else
  let? target := read_register vm target_register_index at vm in
  let? source := read_register vm source_register_index at vm in
  let? vm1 := write_register vm target_register_index
                (to_int32 (target * source)) at vm in
  advance MUL vm1.

Definition ExecuteDiv (vm : TOYVM) : result bool :=
  let? fits := InstructionFitsInMemory vm DIV at vm in
  if negb fits then Ok true (raise_BAD_ACCESS vm) else
  let? source_register_index := ReadByte vm (GetProgramCounter vm + 1) at vm in
  let? target_register_index := ReadByte vm (GetProgramCounter vm + 2) at vm in
  if negb (IsValidRegisterIndex source_register_index)
     || negb (IsValidRegisterIndex target_register_index)
  then Ok true (raise_INVALID_REGISTER_INDEX vm) else
  let? target := read_register vm target_register_index at vm in
  let? source := read_register vm source_register_index at vm in
  let? quotient := c_div target source at vm in
  let? vm1 := write_register vm target_register_index quotient at vm in
  advance DIV vm1.

Definition ExecuteMod (vm : TOYVM) : result bool :=
  let? fits := InstructionFitsInMemory vm MOD at vm in
  if negb fits then Ok true (raise_BAD_ACCESS vm) else
  let? source_register_index := ReadByte vm (GetProgramCounter vm + 1) at vm in
  let? target_register_index := ReadByte vm (GetProgramCounter vm + 2) at vm in
  if negb (IsValidRegisterIndex source_register_index)
     || negb (IsValidRegisterIndex target_register_index)
  then Ok true (raise_INVALID_REGISTER_INDEX vm) else
  let? source := read_register vm source_register_index at vm in
  let? target := read_register vm target_register_index at vm in
  let? remainder := c_rem source target at vm in
  let? vm1 := write_register vm target_register_index remainder at vm in
  advance MOD vm1.

Definition ExecuteCmp (vm : TOYVM) : result bool :=
  let? fits := InstructionFitsInMemory vm CMP at vm in
  if negb fits then Ok true (raise_BAD_ACCESS vm) else
  let? register_index_1 := ReadByte vm (GetProgramCounter vm + 1) at vm in
  let? register_index_2 := ReadByte vm (GetProgramCounter vm + 2) at vm in
  if negb (IsValidRegisterIndex register_index_1)
     || negb (IsValidRegisterIndex register_index_2)
  then Ok true (raise_INVALID_REGISTER_INDEX vm) else
  let? register_1 := read_register vm register_index_1 at vm in
  let? register_2 := read_register vm register_index_2 at vm in
  let vm1 :=
    if register_1 <? register_2 then set_comparison true false false vm
    else if register_2 <? register_1 then set_comparison false false true vm
    else set_comparison false true false vm in
  advance CMP vm1.

Definition ExecuteJumpIfAbove (vm : TOYVM) : result bool :=
  let? fits := InstructionFitsInMemory vm JA at vm in
  if negb fits then Ok true (raise_BAD_ACCESS vm) else
  if COMPARISON_ABOVE (flags vm) then
    let? target := ReadWord vm (GetProgramCounter vm + 1) at vm in
    Ok false (set_program_counter target vm)
  else advance JA vm.

Definition ExecuteJumpIfEqual (vm : TOYVM) : result bool :=
  let? fits := InstructionFitsInMemory vm JE at vm in
  if negb fits then Ok true (raise_BAD_ACCESS vm) else
  if COMPARISON_EQUAL (flags vm) then
    let? target := ReadWord vm (GetProgramCounter vm + 1) at vm in
    Ok false (set_program_counter target vm)
  else advance JE vm.

Definition ExecuteJumpIfBelow (vm : TOYVM) : result bool :=
  let? fits := InstructionFitsInMemory vm JB at vm in
  if negb fits then Ok true (raise_BAD_ACCESS vm) else
  if COMPARISON_BELOW (flags vm) then
    let? target := ReadWord vm (GetProgramCounter vm + 1) at vm in
    Ok false (set_program_counter target vm)
  else advance JB vm.

Definition ExecuteJump (vm : TOYVM) : result bool :=
  let? fits := InstructionFitsInMemory vm JMP at vm in
  if negb fits then Ok true (raise_BAD_ACCESS vm) else
  let? target := ReadWord vm (GetProgramCounter vm + 1) at vm in
  Ok false (set_program_counter target vm).

Definition ExecuteCall (vm : TOYVM) : result bool :=
  let? fits := InstructionFitsInMemory vm CALL at vm in
  if negb fits then Ok true (raise_BAD_ACCESS vm) else
  if GetAvailableStackSize vm <? 4 then Ok true (raise_STACK_OVERFLOW vm) else
  let? address := ReadWord vm (GetProgramCounter vm + 1) at vm in
  let? len := GetInstructionLength vm CALL at vm in
  match PushVM vm (to_uint32 (to_size_t (to_size_t (GetProgramCounter vm) + len)))
  with
  | Ok _ vm1 => Ok false (set_program_counter address vm1)
  | Undef vm1 => Undef vm1
  end.

Definition ExecuteRet (vm : TOYVM) : result bool :=
  let? fits := InstructionFitsInMemory vm RET at vm in
  if negb fits then Ok true (raise_BAD_ACCESS vm) else
  if StackIsEmpty vm then Ok true (raise_STACK_UNDERFLOW vm) else
  match PopVM vm with
  | Ok word vm1 => Ok false (set_program_counter word vm1)
  | Undef vm1 => Undef vm1
  end.

Definition ExecuteLoad (vm : TOYVM) : result bool :=
  let? fits := InstructionFitsInMemory vm LOAD at vm in
  if negb fits then Ok true (raise_BAD_ACCESS vm) else
  let? register_index := ReadByte vm (GetProgramCounter vm + 1) at vm in
  if negb (IsValidRegisterIndex register_index)
  then Ok true (raise_INVALID_REGISTER_INDEX vm) else
  let? address := ReadWord vm (GetProgramCounter vm + 2) at vm in
  let? word := ReadWord vm address at vm in
  let? vm1 := write_register vm register_index word at vm in
  advance LOAD vm1.

Definition ExecuteStore (vm : TOYVM) : result bool :=
  let? fits := InstructionFitsInMemory vm STORE at vm in
  if negb fits then Ok true (raise_BAD_ACCESS vm) else
  let? register_index := ReadByte vm (GetProgramCounter vm + 1) at vm in
  if negb (IsValidRegisterIndex register_index)
  then Ok true (raise_INVALID_REGISTER_INDEX vm) else
  let? address := ReadWord vm (GetProgramCounter vm + 2) at vm in
  let? value := read_register vm register_index at vm in
  let? vm1 := WriteWord vm address value at vm in
  advance STORE vm1.

Definition ExecuteConst (vm : TOYVM) : result bool :=
  let? fits := InstructionFitsInMemory vm CONST at vm in
  if negb fits then Ok true (raise_BAD_ACCESS vm) else
  let? register_index := ReadByte vm (GetProgramCounter vm + 1) at vm in
  let? datum := ReadWord vm (GetProgramCounter vm + 2) at vm in
  if negb (IsValidRegisterIndex register_index)
  then Ok true (raise_INVALID_REGISTER_INDEX vm) else
  let? vm1 := write_register vm register_index datum at vm in
  advance CONST vm1.

(** The register check of [ExecuteRload] sets the flag and falls through to
    the load: there is no [return] in its branch. *)
Definition ExecuteRload (vm : TOYVM) : result bool :=
  let? fits := InstructionFitsInMemory vm RLOAD at vm in
  if negb fits then Ok true (raise_BAD_ACCESS vm) else
  let? address_register_index := ReadByte vm (GetProgramCounter vm + 1) at vm in
  let? data_register_index := ReadByte vm (GetProgramCounter vm + 2) at vm in
  let vm1 :=
    if negb (IsValidRegisterIndex address_register_index)
       || negb (IsValidRegisterIndex data_register_index)
    then raise_INVALID_REGISTER_INDEX vm else vm in
  let? address := read_register vm1 address_register_index at vm1 in
  let? word := ReadWord vm1 address at vm1 in
  let? vm2 := write_register vm1 data_register_index word at vm1 in
  advance RLOAD vm2.

(** The register check of [ExecuteRstore] sets [BAD_ACCESS], and the rule
    ends without touching the program counter. *)
Definition ExecuteRstore (vm : TOYVM) : result bool :=
  let? fits := InstructionFitsInMemory vm RSTORE at vm in
  if negb fits then Ok true (raise_BAD_ACCESS vm) else
  let? source_register_index := ReadByte vm (GetProgramCounter vm + 1) at vm in
  let? address_register_index := ReadByte vm (GetProgramCounter vm + 2) at vm in
  if negb (IsValidRegisterIndex source_register_index)
     || negb (IsValidRegisterIndex address_register_index)
  then Ok true (raise_BAD_ACCESS vm) else
  let? address := read_register vm address_register_index at vm in
  let? value := read_register vm source_register_index at vm in
  let? vm1 := WriteWord vm address value at vm in
  Ok false vm1.

(** The bytes of the NUL-terminated string that starts the list; undefined
    when the list ends before a NUL is met. *)
Fixpoint c_string (bytes : list Z) : option (list Z) :=
  match bytes with
  | [] => None
  | b :: rest => if b =? 0 then Some [] else cons b <$> c_string rest
  end.

(** [printf("%s", &vm->memory[address])], with [address] a [uint32_t]. *)
Definition PrintString (vm : TOYVM) (address : Z) : option TOYVM :=
  text ← c_string (drop (Z.to_nat (to_uint32 address)) (memory vm));
  Some (set_console (console vm ++ [PrintedString text]) vm).

Definition ExecuteInterrupt (vm : TOYVM) : result bool :=
  let? fits := InstructionFitsInMemory vm INT at vm in
  if negb fits then Ok true (raise_BAD_ACCESS vm) else
  let? interrupt_number := ReadByte vm (GetProgramCounter vm + 1) at vm in
  if StackIsEmpty vm then Ok true (raise_STACK_UNDERFLOW vm) else
  if interrupt_number =? INTERRUPT_PRINT_INTEGER then
    match PopVM vm with
    | Ok word vm1 =>
        advance INT (set_console (console vm1 ++ [PrintedInteger word]) vm1)
    | Undef vm1 => Undef vm1
    end
  else if interrupt_number =? INTERRUPT_PRINT_STRING then
    match PopVM vm with
    | Ok word vm1 =>
        let? vm2 := PrintString vm1 word at vm1 in
        advance INT vm2
    | Undef vm1 => Undef vm1
    end
  else Ok true vm.

(** A full stack stops [ExecutePush] before the operand is read, and no flag
    is set for it. *)
Definition ExecutePush (vm : TOYVM) : result bool :=
  let? fits := InstructionFitsInMemory vm PUSH at vm in
  if negb fits then Ok true (raise_BAD_ACCESS vm) else
  if StackIsFull vm then Ok true vm else
  let? register_index := ReadByte vm (GetProgramCounter vm + 1) at vm in
  if negb (IsValidRegisterIndex register_index)
  then Ok true (raise_INVALID_REGISTER_INDEX vm) else
  let? value := read_register vm register_index at vm in
  let? vm1 := WriteWord vm (to_int32 (stack_pointer (cpu vm) - 4)) value at vm in
  advance PUSH (set_stack_pointer (to_int32 (stack_pointer (cpu vm1) - 4)) vm1).

(** [WriteWord(vm, vm->cpu.stack_pointer -= 4, vm->cpu.registers[index])]. *)
Definition push_register (vm : TOYVM) (index : Z) : option TOYVM :=
  value ← read_register vm index;
  let vm1 := set_stack_pointer (to_int32 (stack_pointer (cpu vm) - 4)) vm in
  WriteWord vm1 (stack_pointer (cpu vm1)) value.

Definition ExecutePushAll (vm : TOYVM) : result bool :=
  let? fits := InstructionFitsInMemory vm PUSH_ALL at vm in
  if negb fits then Ok true (raise_BAD_ACCESS vm) else
  if negb (CanPerformMultipush vm) then Ok true (raise_STACK_OVERFLOW vm) else
  let? vm1 := push_register vm REG1 at vm in
  let? vm2 := push_register vm1 REG2 at vm1 in
  let? vm3 := push_register vm2 REG3 at vm2 in
  let? vm4 := push_register vm3 REG4 at vm3 in
  advance PUSH_ALL vm4.

(** An empty stack stops [ExecutePop] without a flag, and the word is read at
    [stack_pointer + 4]. *)
Definition ExecutePop (vm : TOYVM) : result bool :=
  let? fits := InstructionFitsInMemory vm POP at vm in
  if negb fits then Ok true (raise_BAD_ACCESS vm) else
  if StackIsEmpty vm then Ok true vm else
  let? register_index := ReadByte vm (GetProgramCounter vm + 1) at vm in
  if negb (IsValidRegisterIndex register_index)
  then Ok true (raise_INVALID_REGISTER_INDEX vm) else
  let? datum := ReadWord vm (to_int32 (stack_pointer (cpu vm) + 4)) at vm in
  let? vm1 := write_register vm register_index datum at vm in
  advance POP (set_stack_pointer (to_int32 (stack_pointer (cpu vm1) + 4)) vm1).

Definition ExecutePopAll (vm : TOYVM) : result bool :=
  let? fits := InstructionFitsInMemory vm POP_ALL at vm in
  if negb fits then Ok true (raise_BAD_ACCESS vm) else
  if negb (CanPerformMultipop vm) then Ok true (raise_STACK_UNDERFLOW vm) else
  let sp := stack_pointer (cpu vm) in
  let? w4 := ReadWord vm sp at vm in
  let? vm1 := write_register vm REG4 w4 at vm in
  let? w3 := ReadWord vm1 (to_int32 (sp + 4)) at vm1 in
  let? vm2 := write_register vm1 REG3 w3 at vm1 in
  let? w2 := ReadWord vm2 (to_int32 (sp + 8)) at vm2 in
  let? vm3 := write_register vm2 REG2 w2 at vm2 in
  let? w1 := ReadWord vm3 (to_int32 (sp + 12)) at vm3 in
  let? vm4 := write_register vm3 REG1 w1 at vm3 in
  advance POP_ALL (set_stack_pointer (to_int32 (sp + 16)) vm4).

Definition ExecuteLSP (vm : TOYVM) : result bool :=
  let? fits := InstructionFitsInMemory vm LSP at vm in
  if negb fits then Ok true (raise_BAD_ACCESS vm) else
  let? register_index := ReadByte vm (GetProgramCounter vm + 1) at vm in
  if negb (IsValidRegisterIndex register_index)
  then Ok true (raise_INVALID_REGISTER_INDEX vm) else
  let? vm1 := write_register vm register_index (stack_pointer (cpu vm)) at vm in
  advance LSP vm1.

Definition ExecuteNop (vm : TOYVM) : result bool :=
  let? fits := InstructionFitsInMemory vm NOP at vm in
  if negb fits then Ok true (raise_BAD_ACCESS vm) else
  advance NOP vm.

Definition ExecuteHalt (vm : TOYVM) : result bool := Ok true vm.

(** ** The instruction table, second half *)

Record instruction : Type := mk_instruction {
  opcode : Z;
  size : Z;
  execute : option (TOYVM -> result bool)
}.

Definition instructions : list instruction :=
  [ mk_instruction 0 0 None;
    mk_instruction ADD 3 (Some ExecuteAdd);
    mk_instruction NEG 2 (Some ExecuteNeg);
    mk_instruction MUL 3 (Some ExecuteMul);
    mk_instruction DIV 3 (Some ExecuteDiv);
    mk_instruction MOD 3 (Some ExecuteMod);
    mk_instruction CMP 3 (Some ExecuteCmp);
    mk_instruction JA 5 (Some ExecuteJumpIfAbove);
    mk_instruction JE 5 (Some ExecuteJumpIfEqual);
    mk_instruction JB 5 (Some ExecuteJumpIfBelow);
    mk_instruction JMP 5 (Some ExecuteJump);
    mk_instruction CALL 5 (Some ExecuteCall);
    mk_instruction RET 1 (Some ExecuteRet);
    mk_instruction LOAD 6 (Some ExecuteLoad);
    mk_instruction STORE 6 (Some ExecuteStore);
    mk_instruction CONST 6 (Some ExecuteConst);
    mk_instruction RLOAD 3 (Some ExecuteRload);
    mk_instruction RSTORE 3 (Some ExecuteRstore);
    mk_instruction HALT 1 (Some ExecuteHalt);
    mk_instruction INT 2 (Some ExecuteInterrupt);
    mk_instruction NOP 1 (Some ExecuteNop);
    mk_instruction PUSH 2 (Some ExecutePush);
    mk_instruction PUSH_ALL 1 (Some ExecutePushAll);
    mk_instruction POP 2 (Some ExecutePop);
    mk_instruction POP_ALL 1 (Some ExecutePopAll);
    mk_instruction LSP 2 (Some ExecuteLSP) ].

(** ** The fetch-execute loop *)

(** One turn of the [while (true)] of [RunVM]; [true] is its [return]. *)
Definition RunVM_iteration (vm : TOYVM) : result bool :=
  let program_counter := GetProgramCounter vm in
  if (program_counter <? 0) || (memory_size vm <=? program_counter)
  then Ok true (raise_BAD_ACCESS vm) else
  let? opcode := ReadByte vm program_counter at vm in
  let? index := opcode_map vm !! Z.to_nat opcode at vm in
  if index =? 0 then Ok true (raise_BAD_INSTRUCTION vm) else
  let? entry := instructions !! Z.to_nat index at vm in
  let? opcode_exec := execute entry at vm in
  opcode_exec vm.

(** How a run of at most [fuel] turns ends. *)
Inductive run : Type :=
| Returned (vm : TOYVM)
| Undefined (vm : TOYVM)
| Running (vm : TOYVM).

Fixpoint RunVM (fuel : nat) (vm : TOYVM) : run :=
  match fuel with
  | O => Running vm
  | S fuel' =>
      match RunVM_iteration vm with
      | Ok true vm' => Returned vm'
      | Ok false vm' => RunVM fuel' vm'
      | Undef vm' => Undefined vm'
      end
  end.

(** ** Creating and loading a machine *)

(** [vm->opcode_map] after the [memset] and the 25 assignments. *)
Definition initial_opcode_map : list Z :=
  foldl (fun map '(op, index) => <[Z.to_nat op := index]> map)
        (replicate (Z.to_nat OPCODE_MAP_SIZE) 0)
        [ (ADD, 1); (NEG, 2); (MUL, 3); (DIV, 4); (MOD, 5);
          (CMP, 6); (JA, 7); (JE, 8); (JB, 9); (JMP, 10);
          (CALL, 11); (RET, 12);
          (LOAD, 13); (STORE, 14); (CONST, 15); (RLOAD, 16); (RSTORE, 17);
          (HALT, 18); (INT, 19); (NOP, 20);
          (PUSH, 21); (PUSH_ALL, 22); (POP, 23); (POP_ALL, 24); (LSP, 25) ].

(** [x += sizeof(int32_t) - (x % sizeof(int32_t))] on an [int32_t] [x],
    computed in [size_t]. *)
Definition align_up (x : Z) : Z :=
  to_int32 (to_size_t (to_size_t x + to_size_t (4 - to_size_t x mod 4))).

(** [InitializeVM] overwrites every field of [*vm], so the machine it leaves
    depends on its two integer arguments only. *)
Definition InitializeVM (memory_size stack_limit : Z) : TOYVM :=
  let memory_size := align_up memory_size in
  let stack_limit := align_up stack_limit in
  mk_vm (replicate (Z.to_nat memory_size) 0)
        memory_size
        stack_limit
        (mk_cpu (replicate (Z.to_nat N_REGISTERS) 0) 0 memory_size
                (mk_status false false false false false false false false))
        initial_opcode_map
        [].

(** [memcpy(mem, vm->memory, size)]: the destination is the caller's buffer
    [mem] and the source is the tape.  The result is the machine and the
    caller's buffer after the call; copying more bytes than either array
    holds is undefined. *)
Definition WriteVMMemory (vm : TOYVM) (mem : list Z) (size : Z)
    : option (TOYVM * list Z) :=
  if (0 <=? size) && (size <=? Z.of_nat (length (memory vm)))
     && (size <=? Z.of_nat (length mem))
  then Some (vm, take (Z.to_nat size) (memory vm) ++ drop (Z.to_nat size) mem)
  else None.

(** main.c: the machine built for a program file, with the file read onto the
    start of the tape by [fread]. *)
Definition load_file (file : list Z) : TOYVM :=
  let file_size := Z.of_nat (length file) in
  let vm := InitializeVM (to_int32 (to_size_t (2 * file_size)))
                         (to_int32 file_size) in
  set_memory (file ++ drop (length file) (memory vm)) vm.

(** ** Well-formed machines *)

(** What the C types and [InitializeVM] establish and the rules rely on: the
    tape has [memory_size] cells, each a [uint8_t]; the register array has
    [N_REGISTERS] elements, each an [int32_t]; the opcode map is the one
    built at start-up; and the integer fields hold [int32_t] values. *)
Record wf_vm (vm : TOYVM) : Prop := mk_wf {
  wf_tape : Z.of_nat (length (memory vm)) = memory_size vm;
  wf_memory_size : memory_size vm <= int32_max;
  wf_registers : length (registers (cpu vm)) = Z.to_nat N_REGISTERS;
  wf_opcode_map : opcode_map vm = initial_opcode_map;
  wf_program_counter : in_int32 (program_counter (cpu vm));
  wf_stack_pointer : in_int32 (stack_pointer (cpu vm));
  wf_stack_limit : in_int32 (stack_limit vm);
  wf_bytes : Forall (fun b => 0 <= b < 2 ^ 8) (memory vm);
  wf_register_values : Forall in_int32 (registers (cpu vm))
}.

(** The rows of [instructions] that carry a rule. *)
Definition registered (ins : instruction) : Prop :=
  ins ∈ instructions /\ is_Some (execute ins).


(** ** Register operands *)

(** The offsets, from the opcode byte, of the operand bytes that a rule
    passes to [IsValidRegisterIndex]; empty for an instruction without
    register operands. *)
Definition register_operand_offsets (op : Z) : list Z :=
  if bool_decide (op ∈ [ADD; MUL; DIV; MOD; CMP; RLOAD; RSTORE]) then [1; 2]
  else if bool_decide (op ∈ [NEG; LOAD; STORE; CONST; PUSH; POP; LSP]) then [1]
  else [].

(** ** Rounding to a multiple of four *)

(** [r] is the least multiple of 4 that is greater than or equal to [m]. *)
Definition rounded_up_to_multiple_of_4 (m r : Z) : Prop :=
  r mod 4 = 0 /\ m <= r /\ forall k, k mod 4 = 0 -> m <= k -> r <= k.

(** [r] is the least multiple of 4 that is strictly greater than [m]. *)
Definition next_multiple_of_4 (m r : Z) : Prop :=
  r mod 4 = 0 /\ m < r /\ forall k, k mod 4 = 0 -> m < k -> r <= k.

(** ** Fault flags *)

(** The five fault flags of a machine, in the order of the bit-field. *)
Definition fault_flags (vm : TOYVM) : list bool :=
  [ BAD_INSTRUCTION (flags vm); STACK_UNDERFLOW (flags vm);
    STACK_OVERFLOW (flags vm); INVALID_REGISTER_INDEX (flags vm);
    BAD_ACCESS (flags vm) ].

(** ** Machines used as concrete inputs *)

(** A machine with an 8-byte tape whose program counter has run off the end
    of the tape. *)
Definition past_the_tape : TOYVM :=
  set_program_counter 8 (InitializeVM 4 4).

(** A machine with an 8-byte tape holding [ADD] in its last two bytes only. *)
Definition add_cut_short : TOYVM :=
  set_program_counter 6
    (set_memory [NOP; NOP; NOP; NOP; NOP; NOP; ADD; REG1] (InitializeVM 4 4)).

(** An 8-byte tape with a [CONST] in its last two bytes whose register
    operand is 9. *)
Definition const_cut_short : TOYVM :=
  set_program_counter 6
    (set_memory [NOP; NOP; NOP; NOP; NOP; NOP; CONST; 9] (InitializeVM 4 4)).

(** [NEG] with register operand 9 at the start of a 12-byte tape. *)
Definition neg_bad_register : TOYVM := load_file [NEG; 9; HALT].

(** [PUSH] with register operand 9 on a machine whose stack fence coincides
    with the end of its 8-byte tape, so that the stack is full from the
    start. *)
Definition push_full_bad_register : TOYVM :=
  set_memory [PUSH; 9; HALT; 0; 0; 0; 0; 0] (InitializeVM 4 4).

(** The program [RLOAD REG1, 7; HALT], as main.c loads it. *)
Definition rload_bad_register : TOYVM := load_file [RLOAD; REG1; 7; HALT].

(** The program [RSTORE 7, REG1; HALT], as main.c loads it. *)
Definition rstore_bad_register : TOYVM := load_file [RSTORE; 7; REG1; HALT].

(** The program [CONST REG1, -2^31; CONST REG2, -1; MOD REG1, REG2; HALT]. *)
Definition mod_overflow_program : list Z :=
  [ CONST; REG1; 0x00; 0x00; 0x00; 0x80;
    CONST; REG2; 0xff; 0xff; 0xff; 0xff;
    MOD; REG1; REG2;
    HALT ].

(** The machine running [mod_overflow_program] when it reaches the [MOD]. *)
Definition mod_overflow_state : TOYVM :=
  set_program_counter 12
    (set_registers [int32_min; -1; 0; 0] (load_file mod_overflow_program)).

(** The program [CONST REG1, 17; CONST REG2, 5; MOD REG1, REG2; HALT] when it
    reaches the [MOD]. *)
Definition mod_17_5_state : TOYVM :=
  set_program_counter 12
    (set_registers [17; 5; 0; 0]
       (load_file [ CONST; REG1; 17; 0; 0; 0; CONST; REG2; 5; 0; 0; 0;
                    MOD; REG1; REG2; HALT ])).

(** The program [CALL 6; HALT; RET], as main.c loads it. *)
Definition call_ret_machine : TOYVM :=
  load_file [CALL; 6; 0; 0; 0; HALT; RET].

(** The program [CONST REG1, 7; CONST REG2, 28; RSTORE REG1, REG2] when it
    reaches the [RSTORE]: the word 7 is about to be stored at address 28 of
    a 32-byte tape. *)
Definition rstore_state : TOYVM :=
  set_program_counter 12
    (set_registers [7; 28; 0; 0]
       (load_file [ CONST; REG1; 7; 0; 0; 0; CONST; REG2; 28; 0; 0; 0;
                    RSTORE; REG1; REG2 ])).

(** The program [CONST REG1, 7; CONST REG2, 9; PUSH REG1; PUSH REG2;
    POP REG3; HALT]. *)
Definition push_pop_program : list Z :=
  [ CONST; REG1; 7; 0; 0; 0;
    CONST; REG2; 9; 0; 0; 0;
    PUSH; REG1;
    PUSH; REG2;
    POP; REG3;
    HALT ].

(** The machine running [push_pop_program] when it reaches [PUSH REG2]: 7 is
    on the stack, 9 is in [REG2]. *)
Definition before_second_push : TOYVM :=
  set_program_counter 14
    (set_stack_pointer 36
       (set_registers [7; 9; 0; 0]
          (set_memory (push_pop_program
                       ++ [0; 0; 0; 0; 0; 0; 0; 0; 0; 0; 0; 0; 0; 0; 0; 0; 0;
                           7; 0; 0; 0])
             (load_file push_pop_program)))).

(** The program [PUSH REG1; POP REG2; HALT]. *)
Definition first_push_pop_program : list Z := [PUSH; REG1; POP; REG2; HALT].

(** The program [POP REG1], run on the empty stack it starts with. *)
Definition pop_on_empty_stack : TOYVM := load_file [POP; REG1].

(** The programs [RET] and [POP_ALL], for comparison. *)
Definition ret_on_empty_stack : TOYVM := load_file [RET].
Definition pop_all_on_empty_stack : TOYVM := load_file [POP_ALL].

(** ** Further machines used as concrete inputs *)

(** A fresh machine with a 12-byte tape. *)
Definition small_machine : TOYVM := InitializeVM 8 4.

(** A 12-byte tape holding the bytes 0x78 0x56 0x34 0x12 at addresses 5..8:
    an unaligned word. *)
Definition unaligned_word_machine : TOYVM :=
  set_memory [0; 0; 0; 0; 0; 0x78; 0x56; 0x34; 0x12; 0; 0; 0] small_machine.

(** A loaded program about to execute its first instruction with the given
    register contents. *)
Definition with_registers (r : list Z) (program : list Z) : TOYVM :=
  set_registers r (load_file program).

(** ** Comparison and conditional jumps *)

(** Whether the conditional jump [op] is taken after comparing [a] (first
    operand of [CMP]) with [b] (second operand). *)
Definition jump_taken (op a b : Z) : bool :=
  if op =? JA then b <? a
  else if op =? JE then a =? b
  else a <? b.

(** At most one of the three comparison flags is set. *)
Definition comparison_exclusive (vm : TOYVM) : Prop :=
  (COMPARISON_BELOW (flags vm) && COMPARISON_EQUAL (flags vm) = false)
  /\ (COMPARISON_BELOW (flags vm) && COMPARISON_ABOVE (flags vm) = false)
  /\ (COMPARISON_EQUAL (flags vm) && COMPARISON_ABOVE (flags vm) = false).

(** The program [CMP REG1, REG2; JE 12; HALT; ...; HALT] with the given
    register contents. *)
Definition cmp_je_machine (r : list Z) : TOYVM :=
  with_registers r [CMP; REG1; REG2; JE; 12; 0; 0; 0; HALT; 0; 0; 0; HALT].

(** The program [JMP 1000; HALT]. *)
Definition wild_jump_machine : TOYVM :=
  load_file [JMP; 0xe8; 0x03; 0; 0; HALT].

(** ** Data movement *)

(** The program [STORE REG1, 20; LOAD REG3, 20; HALT] with the given
    register contents; its tape has 28 cells. *)
Definition store_load_machine (r : list Z) : TOYVM :=
  with_registers r
    [STORE; REG1; 20; 0; 0; 0; LOAD; REG3; 20; 0; 0; 0; HALT].

(** The program [CONST REG2, -2; HALT]. *)
Definition const_machine : TOYVM :=
  load_file [CONST; REG2; 0xfe; 0xff; 0xff; 0xff; HALT].

(** ** Stack *)

(** The program [PUSH_ALL; POP_ALL; HALT], padded with [NOP]s to 20 bytes so
    that the stack has room for four words, with the given register
    contents: a 44-byte tape with the stack fence at 24. *)
Definition push_all_machine (r : list Z) : TOYVM :=
  with_registers r
    [PUSH_ALL; POP_ALL; HALT; NOP; NOP; NOP; NOP; NOP; NOP; NOP;
     NOP; NOP; NOP; NOP; NOP; NOP; NOP; NOP; NOP; NOP].

(** The stack pointer lies between the stack fence and the end of the tape,
    and the three are multiples of four, the fence not negative. *)
Definition stack_discipline (vm : TOYVM) : Prop :=
  0 <= stack_limit vm
  /\ stack_limit vm <= stack_pointer (cpu vm) <= memory_size vm
  /\ stack_pointer (cpu vm) mod 4 = 0
  /\ stack_limit vm mod 4 = 0
  /\ memory_size vm mod 4 = 0.

(** The fields that a run never changes. *)
Definition configuration (vm : TOYVM) : Z * Z * list Z * nat :=
  (memory_size vm, stack_limit vm, opcode_map vm, length (memory vm)).

(** ** The loop *)

(** The opcodes of the rows of [instructions] after the empty first row:
    the opcodes that [InitializeVM] enters in the opcode map. *)
Definition assigned_opcodes : list Z := opcode <$> drop 1 instructions.

(** The machines that a returning turn of the loop can leave behind: the
    machine it started from, or that machine with one fault flag raised. *)
Definition halted_states (vm : TOYVM) : list TOYVM :=
  [ vm; raise_BAD_INSTRUCTION vm; raise_STACK_UNDERFLOW vm;
    raise_STACK_OVERFLOW vm; raise_INVALID_REGISTER_INDEX vm;
    raise_BAD_ACCESS vm ].

(** The four places where a rule returns [true] without raising a flag:
    [HALT], [PUSH] on a full stack, [POP] on an empty stack, and [INT] with
    an interrupt number of no [case]. *)
Definition quiet_return (vm : TOYVM) (op : Z) : Prop :=
  op = HALT
  \/ (op = PUSH /\ StackIsFull vm = true)
  \/ (op = POP /\ StackIsEmpty vm = true)
  \/ (op = INT /\ StackIsEmpty vm = false
      /\ exists n, ReadByte vm (GetProgramCounter vm + 1) = Some n
                   /\ n <> INTERRUPT_PRINT_INTEGER
                   /\ n <> INTERRUPT_PRINT_STRING).

(** The program [CONST REG1, 5; HALT] run for one turn: its tape has 16
    cells and [HALT] is next. *)
Definition const_then_halt : list Z := [CONST; REG1; 5; 0; 0; 0; HALT].

(** The program [PUSH REG1; INT 1; HALT] with the given register contents:
    a 12-byte tape with the stack fence at 8. *)
Definition push_print_machine (r : list Z) : TOYVM :=
  with_registers r [PUSH; REG1; INT; INTERRUPT_PRINT_INTEGER; HALT].

(** A fresh machine whose stack fence lies beyond the end of its 12-byte
    tape. *)
Definition fence_beyond_tape : TOYVM := InitializeVM 8 100.

(** The machine of [const_then_halt] after its first turn. *)
Definition after_const : TOYVM :=
  set_program_counter 6
    (set_registers [5; 0; 0; 0] (load_file const_then_halt)).

(** [cmp_je_machine] with equal operands after its [CMP]. *)
Definition after_cmp : TOYVM :=
  set_program_counter 3
    (set_comparison false true false (cmp_je_machine [3; 3; 0; 0])).

(** [wild_jump_machine] after its jump: the program counter is 1000, outside
    the 16-byte tape. *)
Definition wild_jump_target : TOYVM :=
  set_program_counter 1000 wild_jump_machine.

(** A 16-byte tape with [INT 2] at address 0, the string [hi] at address 2
    and, on the stack, the one word 2. *)
Definition print_string_machine : TOYVM :=
  set_stack_pointer 12
    (set_memory [INT; INTERRUPT_PRINT_STRING; 104; 105; 0; 0; 0; 0;
                 0; 0; 0; 0; 2; 0; 0; 0]
       (InitializeVM 12 4)).

(** The program [RLOAD REG1, REG2; HALT] followed by the word 0x12345678 at
    address 8, with the given register contents. *)
Definition rload_machine (r : list Z) : TOYVM :=
  with_registers r
    [RLOAD; REG1; REG2; HALT; 0; 0; 0; 0; 0x78; 0x56; 0x34; 0x12].
(** ** Facts about machine integers *)

Section CIntFacts.

Lemma to_int32_id z : in_int32 z -> to_int32 z = z.
Proof.
  unfold in_int32, int32_min, int32_max, to_int32. intros H.
  rewrite Z.mod_small; lia.
Qed.

Lemma to_int32_range z : in_int32 (to_int32 z).
Proof.
  unfold in_int32, int32_min, int32_max, to_int32.
  pose proof (Z.mod_pos_bound (z + 2 ^ 31) (2 ^ 32) ltac:(lia)). lia.
Qed.

Lemma to_int32_uint32 z : to_int32 (to_uint32 z) = to_int32 z.
Proof.
  unfold to_int32, to_uint32.
  rewrite Zplus_mod_idemp_l. reflexivity.
Qed.

Lemma to_size_t_small z : 0 <= z < 2 ^ 64 -> to_size_t z = z.
Proof. intros H. unfold to_size_t. now rewrite Z.mod_small. Qed.

End CIntFacts.

(** ** Basic facts *)

(** Splits the rule in the goal along its tests, its partial reads and its
    calls of [PopVM] and [PushVM], keeping an equation for each. *)
Ltac split_rule :=
  repeat match goal with
    | |- context [if ?b then _ else _] =>
        let H := fresh "Htest" in destruct b eqn:H
    | |- context [match ?r with Ok _ _ => _ | Undef _ => _ end] =>
        let H := fresh "Hcall" in destruct r eqn:H
    | |- context [defined _ ?o _] =>
        let H := fresh "Hdef" in destruct o eqn:H; cbn [defined negb]
    end.

(** Proves [wf_vm] for a machine given in full, field by field, by
    evaluation. *)
Ltac wf_by_computation :=
  split;
  first [ compute_done
        | vm_compute; first [ reflexivity | discriminate | split; discriminate ] ].


Section Basics.

Implicit Types (vm : TOYVM) (ins : instruction).

(** Both halves of the instruction table agree. *)
Lemma instruction_entries_sizes :
  (fun e => (entry_opcode e, entry_size e)) <$> instruction_entries
  = (fun i => (opcode i, size i)) <$> instructions.
Proof. reflexivity. Qed.

Lemma registered_cases ins :
  registered ins ->
  ins ∈ [ mk_instruction ADD 3 (Some ExecuteAdd);
          mk_instruction NEG 2 (Some ExecuteNeg);
          mk_instruction MUL 3 (Some ExecuteMul);
          mk_instruction DIV 3 (Some ExecuteDiv);
          mk_instruction MOD 3 (Some ExecuteMod);
          mk_instruction CMP 3 (Some ExecuteCmp);
          mk_instruction JA 5 (Some ExecuteJumpIfAbove);
          mk_instruction JE 5 (Some ExecuteJumpIfEqual);
          mk_instruction JB 5 (Some ExecuteJumpIfBelow);
          mk_instruction JMP 5 (Some ExecuteJump);
          mk_instruction CALL 5 (Some ExecuteCall);
          mk_instruction RET 1 (Some ExecuteRet);
          mk_instruction LOAD 6 (Some ExecuteLoad);
          mk_instruction STORE 6 (Some ExecuteStore);
          mk_instruction CONST 6 (Some ExecuteConst);
          mk_instruction RLOAD 3 (Some ExecuteRload);
          mk_instruction RSTORE 3 (Some ExecuteRstore);
          mk_instruction HALT 1 (Some ExecuteHalt);
          mk_instruction INT 2 (Some ExecuteInterrupt);
          mk_instruction NOP 1 (Some ExecuteNop);
          mk_instruction PUSH 2 (Some ExecutePush);
          mk_instruction PUSH_ALL 1 (Some ExecutePushAll);
          mk_instruction POP 2 (Some ExecutePop);
          mk_instruction POP_ALL 1 (Some ExecutePopAll);
          mk_instruction LSP 2 (Some ExecuteLSP) ].
Proof.
  intros [Hin Hex]. unfold instructions in Hin.
  apply elem_of_cons in Hin as [-> | Hin]; [ | exact Hin ].
  destruct Hex as [f Hf]. discriminate Hf.
Qed.

(** Under the start-up opcode map, [GetInstructionLength] returns the
    length recorded in the row of the instruction. *)
Lemma GetInstructionLength_registered vm ins :
  opcode_map vm = initial_opcode_map ->
  registered ins ->
  GetInstructionLength vm (opcode ins) = Some (size ins).
Proof.
  intros Hmap Hreg. apply registered_cases in Hreg.
  unfold GetInstructionLength. rewrite Hmap.
  repeat (apply elem_of_cons in Hreg as [-> | Hreg]);
    try reflexivity.
  apply elem_of_nil in Hreg. destruct Hreg.
Qed.

(** When the byte at the program counter is the opcode of a registered
    instruction, a turn of the loop runs the rule of that instruction. *)
Lemma RunVM_iteration_registered vm ins f :
  opcode_map vm = initial_opcode_map ->
  0 <= program_counter (cpu vm) < memory_size vm ->
  ReadByte vm (program_counter (cpu vm)) = Some (opcode ins) ->
  registered ins ->
  execute ins = Some f ->
  RunVM_iteration vm = f vm.
Proof.
  intros Hmap Hpc Hop Hreg Hexec. apply registered_cases in Hreg.
  unfold RunVM_iteration, GetProgramCounter.
  destruct (Z.ltb_spec (program_counter (cpu vm)) 0); [ lia | ].
  destruct (Z.leb_spec (memory_size vm) (program_counter (cpu vm)));
    [ lia | ].
  cbn [orb]. rewrite Hop, Hmap. cbn [defined].
  repeat (apply elem_of_cons in Hreg as [-> | Hreg]);
    try (apply elem_of_nil in Hreg; destruct Hreg);
    injection Hexec as <-; reflexivity.
Qed.

(** The [size_t] sum of [InstructionFitsInMemory], for a program counter
    that [RunVM] lets through. *)
Lemma fits_sum_small pc len :
  0 <= pc <= int32_max -> 0 <= len <= 6 ->
  to_size_t (to_size_t pc + len) = pc + len.
Proof.
  unfold int32_max. intros Hpc Hlen.
  rewrite (to_size_t_small pc) by lia. apply to_size_t_small. lia.
Qed.

(** An instruction that runs past [memory_size] fails the test, whatever
    the sign of the program counter. *)
Lemma fits_comparison_false pc len ms :
  in_int32 pc -> 0 <= ms <= int32_max -> 0 <= len <= 6 ->
  ms < pc + len ->
  (to_size_t (to_size_t pc + len) <=? to_size_t ms) = false.
Proof.
  unfold in_int32, int32_min, int32_max. intros Hpc Hms Hlen Hover.
  apply Z.leb_gt. rewrite (to_size_t_small ms) by lia.
  unfold to_size_t. rewrite Zplus_mod_idemp_l.
  destruct (Z_lt_le_dec pc 0) as [Hneg | Hpos].
  - replace (pc + len) with ((pc + len) + 0 * 2 ^ 64) by lia.
    replace ((pc + len + 0 * 2 ^ 64) mod 2 ^ 64) with (pc + len); [ lia | ].
    symmetry. rewrite Z.add_0_r. apply Z.mod_small. lia.
  - rewrite Z.mod_small by lia. lia.
Qed.

Lemma fits_comparison_true pc len ms :
  0 <= pc -> 0 <= len <= 6 -> pc + len <= ms -> ms <= int32_max ->
  (to_size_t (to_size_t pc + len) <=? to_size_t ms) = true.
Proof.
  unfold int32_max. intros Hpc Hlen Hfit Hms.
  apply Z.leb_le. rewrite fits_sum_small by (unfold int32_max; lia).
  rewrite to_size_t_small by lia. lia.
Qed.

Lemma registered_size ins : registered ins -> 1 <= size ins <= 6.
Proof.
  intros Hreg. apply registered_cases in Hreg.
  repeat (apply elem_of_cons in Hreg as [-> | Hreg]); simpl; try lia.
  apply elem_of_nil in Hreg. destruct Hreg.
Qed.

Lemma InstructionFitsInMemory_false vm ins :
  registered ins ->
  opcode_map vm = initial_opcode_map ->
  in_int32 (program_counter (cpu vm)) ->
  0 <= memory_size vm <= int32_max ->
  memory_size vm < program_counter (cpu vm) + size ins ->
  InstructionFitsInMemory vm (opcode ins) = Some false.
Proof.
  intros Hreg Hmap Hpc Hms Hover. unfold InstructionFitsInMemory.
  rewrite (GetInstructionLength_registered vm ins Hmap Hreg). simpl.
  pose proof (registered_size ins Hreg) as Hsize.
  rewrite fits_comparison_false by (assumption || lia). reflexivity.
Qed.

Lemma InstructionFitsInMemory_true vm ins :
  registered ins ->
  opcode_map vm = initial_opcode_map ->
  0 <= program_counter (cpu vm) ->
  memory_size vm <= int32_max ->
  program_counter (cpu vm) + size ins <= memory_size vm ->
  InstructionFitsInMemory vm (opcode ins) = Some true.
Proof.
  intros Hreg Hmap Hpc Hms Hfit. unfold InstructionFitsInMemory.
  rewrite (GetInstructionLength_registered vm ins Hmap Hreg). simpl.
  pose proof (registered_size ins Hreg) as Hsize.
  rewrite fits_comparison_true by (assumption || lia). reflexivity.
Qed.

End Basics.

(** ** Words on the tape *)

Section Words.

Implicit Types (vm : TOYVM).

Lemma testbit_byte v n j :
  0 <= n ->
  Z.testbit (to_uint8 (Z.shiftr v n)) j
  = (0 <=? j) && (j <? 8) && Z.testbit v (j + n).
Proof.
  intros Hn. unfold to_uint8.
  destruct (Z.leb_spec 0 j) as [Hj | Hj]; simpl.
  - destruct (Z.ltb_spec j 8) as [Hlt | Hge]; simpl.
    + rewrite Z.mod_pow2_bits_low by lia. apply Z.shiftr_spec. exact Hj.
    + apply Z.mod_pow2_bits_high. lia.
  - apply Z.testbit_neg_r. exact Hj.
Qed.

(** Each byte written by [WriteWord] is the corresponding byte of the
    two's complement representation. *)
Lemma word_bytes_shifts v :
  word_bytes v
  = [ to_uint8 (Z.shiftr v 0); to_uint8 (Z.shiftr v 8);
      to_uint8 (Z.shiftr v 16); to_uint8 (Z.shiftr v 24) ].
Proof.
  unfold word_bytes, to_uint8.
  change 255 with (Z.ones 8).
  rewrite Z.land_ones by lia. rewrite Z.shiftr_0_r.
  rewrite !Z.shiftr_land.
  change (Z.shiftr 65280 8) with (Z.ones 8).
  change (Z.shiftr 16711680 16) with (Z.ones 8).
  change (Z.shiftr 4278190080 24) with (Z.ones 8).
  rewrite !Z.land_ones by lia.
  rewrite !Z.mod_mod by lia.
  assert (Z.shiftr (to_uint32 v) 24 mod 2 ^ 8 = Z.shiftr v 24 mod 2 ^ 8)
    as ->; [ | reflexivity ].
  apply Z.bits_inj'. intros i Hi.
  destruct (Z.ltb_spec i 8) as [Hlt | Hge].
  - rewrite !Z.mod_pow2_bits_low by lia.
    rewrite !Z.shiftr_spec by lia.
    unfold to_uint32. apply Z.mod_pow2_bits_low. lia.
  - rewrite !Z.mod_pow2_bits_high by lia. reflexivity.
Qed.

(** Reassembling the four bytes as [ReadWord] does gives the word back. *)
Lemma word_bytes_roundtrip v :
  in_int32 v ->
  to_int32
    (Z.lor (Z.lor (Z.lor (Z.shiftl (to_uint8 (Z.shiftr v 24)) 24)
                         (Z.shiftl (to_uint8 (Z.shiftr v 16)) 16))
                  (Z.shiftl (to_uint8 (Z.shiftr v 8)) 8))
           (to_uint8 (Z.shiftr v 0)))
  = v.
Proof.
  intros Hv. rewrite <- (to_int32_id v Hv) at 5.
  rewrite <- (to_int32_uint32 v). f_equal.
  apply Z.bits_inj'. intros i Hi.
  rewrite !Z.lor_spec, !Z.shiftl_spec by lia.
  rewrite !testbit_byte by lia.
  unfold to_uint32.
  replace (i - 24 + 24) with i by lia.
  replace (i - 16 + 16) with i by lia.
  replace (i - 8 + 8) with i by lia.
  replace (i + 0) with i by lia.
  destruct (Z.ltb_spec i 32) as [Hlt | Hge];
    [ rewrite Z.mod_pow2_bits_low by lia
    | rewrite Z.mod_pow2_bits_high by lia ];
    destruct (Z.testbit v i); rewrite ?andb_true_r, ?andb_false_r;
    destruct (Z.leb_spec 0 (i - 24)), (Z.ltb_spec (i - 24) 8),
      (Z.leb_spec 0 (i - 16)), (Z.ltb_spec (i - 16) 8),
      (Z.leb_spec 0 (i - 8)), (Z.ltb_spec (i - 8) 8),
      (Z.leb_spec 0 i), (Z.ltb_spec i 8); simpl; try reflexivity; lia.
Qed.

(** What a defined [WriteWord] does: four cells of the tape change, nothing
    else. *)
Lemma WriteWord_inv vm a v vm' :
  WriteWord vm a v = Some vm' ->
  0 <= a /\ a + 4 <= Z.of_nat (length (memory vm))
  /\ vm' = set_memory
             (<[S (S (S (Z.to_nat a))) := to_uint8 (Z.shiftr v 24)]>
                (<[S (S (Z.to_nat a)) := to_uint8 (Z.shiftr v 16)]>
                   (<[S (Z.to_nat a) := to_uint8 (Z.shiftr v 8)]>
                      (<[Z.to_nat a := to_uint8 (Z.shiftr v 0)]> (memory vm)))))
             vm.
Proof.
  unfold WriteWord. rewrite word_bytes_shifts.
  destruct (Z.leb_spec 0 a); simpl; [ | discriminate ].
  destruct (Z.ltb_spec (a + 3) (Z.of_nat (length (memory vm))));
    [ | discriminate ].
  intros [= <-]. repeat split; lia.
Qed.

Lemma WriteWord_defined vm a v :
  0 <= a -> a + 4 <= Z.of_nat (length (memory vm)) ->
  exists vm', WriteWord vm a v = Some vm'.
Proof.
  intros Ha Hfit. unfold WriteWord. rewrite word_bytes_shifts.
  destruct (Z.leb_spec 0 a); [ | lia ].
  destruct (Z.ltb_spec (a + 3) (Z.of_nat (length (memory vm)))); [ | lia ].
  simpl. eauto.
Qed.

Lemma WriteWord_frame vm a v vm' :
  WriteWord vm a v = Some vm' ->
  cpu vm' = cpu vm /\ memory_size vm' = memory_size vm
  /\ stack_limit vm' = stack_limit vm /\ opcode_map vm' = opcode_map vm
  /\ console vm' = console vm
  /\ length (memory vm') = length (memory vm).
Proof.
  intros H. apply WriteWord_inv in H as (_ & _ & ->). simpl.
  rewrite !length_insert. repeat split.
Qed.

(** The four cells written by [WriteWord]. *)
Lemma WriteWord_cells vm a v vm' :
  WriteWord vm a v = Some vm' ->
  memory vm' !! Z.to_nat a = Some (to_uint8 (Z.shiftr v 0))
  /\ memory vm' !! S (Z.to_nat a) = Some (to_uint8 (Z.shiftr v 8))
  /\ memory vm' !! S (S (Z.to_nat a)) = Some (to_uint8 (Z.shiftr v 16))
  /\ memory vm' !! S (S (S (Z.to_nat a))) = Some (to_uint8 (Z.shiftr v 24)).
Proof.
  intros H. apply WriteWord_inv in H as (Ha & Hfit & ->). simpl.
  repeat split.
  - rewrite !list_lookup_insert_ne by lia.
    apply list_lookup_insert_eq. lia.
  - rewrite !list_lookup_insert_ne by lia.
    apply list_lookup_insert_eq. rewrite !length_insert. lia.
  - rewrite !list_lookup_insert_ne by lia.
    apply list_lookup_insert_eq. rewrite !length_insert. lia.
  - apply list_lookup_insert_eq. rewrite !length_insert. lia.
Qed.

(** The other cells keep their bytes. *)
Lemma WriteWord_other_cells vm a v vm' (n : nat) :
  WriteWord vm a v = Some vm' ->
  (n < Z.to_nat a)%nat \/ (Z.to_nat a + 4 <= n)%nat ->
  memory vm' !! n = memory vm !! n.
Proof.
  intros H Hn. apply WriteWord_inv in H as (Ha & Hfit & ->). simpl.
  rewrite !list_lookup_insert_ne by lia. reflexivity.
Qed.

Lemma ReadByte_WriteWord_other vm a v vm' b :
  WriteWord vm a v = Some vm' ->
  b < a \/ a + 4 <= b ->
  ReadByte vm' b = ReadByte vm b.
Proof.
  intros H Hb. unfold ReadByte.
  destruct (Z.leb_spec 0 b); [ | reflexivity ].
  apply (WriteWord_other_cells vm a v vm' _ H).
  pose proof (WriteWord_inv _ _ _ _ H) as (Ha & _ & _). lia.
Qed.

(** A word that was written is read back. *)
Lemma ReadWord_WriteWord_same vm a v vm' :
  WriteWord vm a v = Some vm' ->
  in_int32 v ->
  ReadWord vm' a = Some v.
Proof.
  intros H Hv.
  pose proof (WriteWord_inv _ _ _ _ H) as (Ha & _ & _).
  pose proof (WriteWord_cells _ _ _ _ H) as (H0 & H1 & H2 & H3).
  assert (ReadByte vm' a = Some (to_uint8 (Z.shiftr v 0))) as R0.
  { unfold ReadByte. destruct (Z.leb_spec 0 a); [ exact H0 | lia ]. }
  assert (ReadByte vm' (a + 1) = Some (to_uint8 (Z.shiftr v 8))) as R1.
  { unfold ReadByte. destruct (Z.leb_spec 0 (a + 1)); [ | lia ].
    replace (Z.to_nat (a + 1)) with (S (Z.to_nat a)) by lia. exact H1. }
  assert (ReadByte vm' (a + 2) = Some (to_uint8 (Z.shiftr v 16))) as R2.
  { unfold ReadByte. destruct (Z.leb_spec 0 (a + 2)); [ | lia ].
    replace (Z.to_nat (a + 2)) with (S (S (Z.to_nat a))) by lia. exact H2. }
  assert (ReadByte vm' (a + 3) = Some (to_uint8 (Z.shiftr v 24))) as R3.
  { unfold ReadByte. destruct (Z.leb_spec 0 (a + 3)); [ | lia ].
    replace (Z.to_nat (a + 3)) with (S (S (S (Z.to_nat a)))) by lia.
    exact H3. }
  unfold ReadWord. rewrite R0, R1, R2, R3. simpl.
  f_equal. apply word_bytes_roundtrip. exact Hv.
Qed.

(** A word elsewhere on the tape is not disturbed. *)
Lemma ReadWord_WriteWord_other vm a v vm' a' :
  WriteWord vm a v = Some vm' ->
  a' + 4 <= a \/ a + 4 <= a' ->
  ReadWord vm' a' = ReadWord vm a'.
Proof.
  intros H Ha'. unfold ReadWord.
  rewrite (ReadByte_WriteWord_other vm a v vm' a' H) by lia.
  rewrite (ReadByte_WriteWord_other vm a v vm' (a' + 1) H) by lia.
  rewrite (ReadByte_WriteWord_other vm a v vm' (a' + 2) H) by lia.
  rewrite (ReadByte_WriteWord_other vm a v vm' (a' + 3) H) by lia.
  reflexivity.
Qed.

(** Writing the same word to the same place again changes nothing. *)
Lemma WriteWord_again vm a v vm' :
  WriteWord vm a v = Some vm' -> WriteWord vm' a v = Some vm'.
Proof.
  intros H.
  pose proof (WriteWord_inv _ _ _ _ H) as (Ha & Hfit & _).
  pose proof (WriteWord_frame _ _ _ _ H) as (_ & _ & _ & _ & _ & Hlen).
  pose proof (WriteWord_cells _ _ _ _ H) as (H0 & H1 & H2 & H3).
  destruct (WriteWord_defined vm' a v) as [vm'' H'']; [ lia | lia | ].
  rewrite H''. f_equal.
  apply WriteWord_inv in H'' as (_ & _ & ->).
  rewrite (list_insert_id _ _ _ H0), (list_insert_id _ _ _ H1),
    (list_insert_id _ _ _ H2), (list_insert_id _ _ _ H3).
  destruct vm'. reflexivity.
Qed.

End Words.

(** ** Registers and the program counter *)

Section Registers.

Implicit Types (vm : TOYVM).

Lemma valid_index_range index :
  IsValidRegisterIndex index = true -> 0 <= index < N_REGISTERS.
Proof.
  unfold IsValidRegisterIndex, REG1, REG2, REG3, REG4, N_REGISTERS.
  destruct (Z.eqb_spec index 0), (Z.eqb_spec index 1),
    (Z.eqb_spec index 2), (Z.eqb_spec index 3); simpl;
    try discriminate; lia.
Qed.

Lemma valid_index_in_array index :
  IsValidRegisterIndex index = true ->
  (0 <=? index) && (index <? N_REGISTERS) = true.
Proof.
  intros H. apply valid_index_range in H.
  destruct (Z.leb_spec 0 index), (Z.ltb_spec index N_REGISTERS);
    try reflexivity; lia.
Qed.

Lemma read_register_valid vm index :
  length (registers (cpu vm)) = Z.to_nat N_REGISTERS ->
  IsValidRegisterIndex index = true ->
  exists value, read_register vm index = Some value.
Proof.
  intros Hlen Hvalid. unfold read_register.
  rewrite valid_index_in_array by assumption.
  apply valid_index_range in Hvalid.
  apply lookup_lt_is_Some_2. lia.
Qed.

Lemma write_register_valid vm index value :
  length (registers (cpu vm)) = Z.to_nat N_REGISTERS ->
  IsValidRegisterIndex index = true ->
  write_register vm index value
  = Some (set_registers (<[Z.to_nat index := value]> (registers (cpu vm))) vm).
Proof.
  intros Hlen Hvalid. unfold write_register.
  rewrite valid_index_in_array by assumption.
  apply valid_index_range in Hvalid.
  destruct (Z.ltb_spec index (Z.of_nat (length (registers (cpu vm)))));
    [ reflexivity | lia ].
Qed.

Lemma read_written_register vm index value :
  length (registers (cpu vm)) = Z.to_nat N_REGISTERS ->
  IsValidRegisterIndex index = true ->
  read_register
    (set_registers (<[Z.to_nat index := value]> (registers (cpu vm))) vm) index
  = Some value.
Proof.
  intros Hlen Hvalid. unfold read_register.
  rewrite valid_index_in_array by assumption.
  apply valid_index_range in Hvalid. simpl.
  apply list_lookup_insert_eq. lia.
Qed.

Lemma read_other_register vm index other value :
  index <> other -> 0 <= index -> 0 <= other ->
  read_register
    (set_registers (<[Z.to_nat index := value]> (registers (cpu vm))) vm) other
  = read_register vm other.
Proof.
  intros Hne Hi Ho. unfold read_register. simpl.
  destruct ((0 <=? other) && (other <? N_REGISTERS)); [ | reflexivity ].
  apply list_lookup_insert_ne. lia.
Qed.

(** The program counter after an instruction that lies inside the tape. *)
Lemma advance_registered vm ins :
  registered ins ->
  opcode_map vm = initial_opcode_map ->
  0 <= program_counter (cpu vm) ->
  program_counter (cpu vm) + size ins <= int32_max ->
  advance (opcode ins) vm
  = Ok false (set_program_counter (program_counter (cpu vm) + size ins) vm).
Proof.
  intros Hreg Hmap Hpc Hmax. unfold advance.
  rewrite (GetInstructionLength_registered vm ins Hmap Hreg).
  cbn [defined]. pose proof (registered_size ins Hreg) as Hsize.
  rewrite fits_sum_small by (unfold int32_max in *; lia).
  rewrite to_int32_id by (unfold in_int32, int32_min, int32_max in *; lia).
  reflexivity.
Qed.

End Registers.

(** ** Well-formedness is kept by every rule *)

Create HintDb wf discriminated.

Section WellFormed.

Implicit Types (vm : TOYVM).

Lemma wf_set_program_counter vm v :
  wf_vm vm -> in_int32 v -> wf_vm (set_program_counter v vm).
Proof. intros [] Hv. split; assumption. Qed.

Lemma wf_set_stack_pointer vm v :
  wf_vm vm -> in_int32 v -> wf_vm (set_stack_pointer v vm).
Proof. intros [] Hv. split; assumption. Qed.

Lemma wf_set_console vm o : wf_vm vm -> wf_vm (set_console o vm).
Proof. intros []. split; assumption. Qed.

Lemma wf_set_status vm s : wf_vm vm -> wf_vm (set_status s vm).
Proof. intros []. split; assumption. Qed.

Lemma wf_raise_BAD_INSTRUCTION vm : wf_vm vm -> wf_vm (raise_BAD_INSTRUCTION vm).
Proof. apply wf_set_status. Qed.

Lemma wf_raise_STACK_UNDERFLOW vm : wf_vm vm -> wf_vm (raise_STACK_UNDERFLOW vm).
Proof. apply wf_set_status. Qed.

Lemma wf_raise_STACK_OVERFLOW vm : wf_vm vm -> wf_vm (raise_STACK_OVERFLOW vm).
Proof. apply wf_set_status. Qed.

Lemma wf_raise_INVALID_REGISTER_INDEX vm :
  wf_vm vm -> wf_vm (raise_INVALID_REGISTER_INDEX vm).
Proof. apply wf_set_status. Qed.

Lemma wf_raise_BAD_ACCESS vm : wf_vm vm -> wf_vm (raise_BAD_ACCESS vm).
Proof. apply wf_set_status. Qed.

Lemma wf_set_comparison vm below equal above :
  wf_vm vm -> wf_vm (set_comparison below equal above vm).
Proof. apply wf_set_status. Qed.

Lemma ReadWord_range vm a w : ReadWord vm a = Some w -> in_int32 w.
Proof.
  unfold ReadWord.
  destruct (ReadByte vm a); [ | discriminate ].
  destruct (ReadByte vm (a + 1)); [ | discriminate ].
  destruct (ReadByte vm (a + 2)); [ | discriminate ].
  destruct (ReadByte vm (a + 3)); [ | discriminate ].
  simpl. intros [= <-]. apply to_int32_range.
Qed.

Lemma read_register_range vm index value :
  read_register vm index = Some value -> wf_vm vm -> in_int32 value.
Proof.
  unfold read_register. intros Hread Hwf.
  destruct ((0 <=? index) && (index <? N_REGISTERS)); [ | discriminate ].
  apply (Forall_lookup_1 _ _ _ _ (wf_register_values vm Hwf) Hread).
Qed.

Lemma to_uint8_range z : 0 <= to_uint8 z < 2 ^ 8.
Proof. unfold to_uint8. apply Z.mod_pos_bound. lia. Qed.

Lemma WriteWord_wf vm a v vm' :
  WriteWord vm a v = Some vm' -> wf_vm vm -> wf_vm vm'.
Proof.
  intros Hwrite [].
  apply WriteWord_inv in Hwrite as (_ & _ & ->).
  split; simpl; try assumption.
  - rewrite !length_insert. assumption.
  - repeat apply Forall_insert; try apply to_uint8_range. assumption.
Qed.

Lemma write_register_wf vm index value vm' :
  write_register vm index value = Some vm' ->
  wf_vm vm -> in_int32 value -> wf_vm vm'.
Proof.
  unfold write_register. intros Hwrite [] Hvalue.
  destruct ((0 <=? index) && (index <? N_REGISTERS)
            && (index <? Z.of_nat (length (registers (cpu vm)))));
    [ | discriminate ].
  injection Hwrite as <-. split; simpl; try assumption.
  - rewrite length_insert. assumption.
  - apply Forall_insert; assumption.
Qed.

Lemma c_div_range a b q :
  c_div a b = Some q -> in_int32 a -> in_int32 b -> in_int32 q.
Proof.
  unfold c_div, div_defined, in_int32, int32_min, int32_max.
  destruct (Z.eqb_spec b 0); simpl; [ discriminate | ].
  destruct (Z.eqb_spec a (- 2 ^ 31)), (Z.eqb_spec b (-1)); simpl;
    try discriminate; intros [= <-] Ha Hb;
    Z.to_euclidean_division_equations; nia.
Qed.

Lemma c_rem_range a b r :
  c_rem a b = Some r -> in_int32 a -> in_int32 b -> in_int32 r.
Proof.
  unfold c_rem, div_defined, in_int32, int32_min, int32_max.
  destruct (Z.eqb_spec b 0); simpl; [ discriminate | ].
  destruct (Z.eqb_spec a (- 2 ^ 31)), (Z.eqb_spec b (-1)); simpl;
    try discriminate; intros [= <-] Ha Hb;
    Z.to_euclidean_division_equations; nia.
Qed.

Lemma push_register_wf vm index vm' :
  push_register vm index = Some vm' -> wf_vm vm -> wf_vm vm'.
Proof.
  unfold push_register. intros Hpush Hwf.
  destruct (read_register vm index) as [value | ]; [ | discriminate ].
  simpl in Hpush. apply (WriteWord_wf _ _ _ _ Hpush).
  apply wf_set_stack_pointer; [ exact Hwf | apply to_int32_range ].
Qed.

Lemma PrintString_wf vm address vm' :
  PrintString vm address = Some vm' -> wf_vm vm -> wf_vm vm'.
Proof.
  unfold PrintString. intros Hprint Hwf.
  destruct (c_string _) as [text | ]; [ | discriminate ].
  simpl in Hprint. injection Hprint as <-. apply wf_set_console. exact Hwf.
Qed.

Lemma PopVM_wf vm word vm' :
  PopVM vm = Ok word vm' -> wf_vm vm -> wf_vm vm'.
Proof.
  unfold PopVM. intros Hpop Hwf.
  destruct (StackIsEmpty vm).
  - injection Hpop as _ <-. apply wf_raise_BAD_ACCESS. exact Hwf.
  - destruct (ReadWord vm _) as [w | ]; [ | discriminate ].
    cbn [defined] in Hpop. injection Hpop as _ <-.
    apply wf_set_stack_pointer; [ exact Hwf | apply to_int32_range ].
Qed.

Lemma PopVM_range vm word vm' : PopVM vm = Ok word vm' -> in_int32 word.
Proof.
  unfold PopVM. intros Hpop.
  destruct (StackIsEmpty vm).
  - injection Hpop as <- _. unfold in_int32, int32_min, int32_max. lia.
  - destruct (ReadWord vm _) as [w | ] eqn:Hread; [ | discriminate ].
    cbn [defined] in Hpop. injection Hpop as <- _.
    apply (ReadWord_range _ _ _ Hread).
Qed.

Lemma PushVM_wf vm value u vm' :
  PushVM vm value = Ok u vm' -> wf_vm vm -> wf_vm vm'.
Proof.
  unfold PushVM. cbv zeta. intros Hpush Hwf.
  destruct (WriteWord _ _ _) as [vm2 | ] eqn:Hwrite; [ | discriminate ].
  cbn [defined] in Hpush. injection Hpush as _ <-.
  apply (WriteWord_wf _ _ _ _ Hwrite).
  apply wf_set_stack_pointer; [ exact Hwf | apply to_int32_range ].
Qed.

End WellFormed.

#[global] Hint Resolve wf_set_program_counter wf_set_stack_pointer
  wf_set_console wf_raise_BAD_INSTRUCTION wf_raise_STACK_UNDERFLOW
  wf_raise_STACK_OVERFLOW wf_raise_INVALID_REGISTER_INDEX wf_raise_BAD_ACCESS
  wf_set_comparison ReadWord_range read_register_range WriteWord_wf
  write_register_wf c_div_range c_rem_range push_register_wf PrintString_wf
  PopVM_wf PopVM_range PushVM_wf to_int32_range wf_stack_pointer : wf.

Section RulesKeepWellFormedness.

Implicit Types (vm : TOYVM) (ins : instruction).

Ltac rule_wf := unfold advance; split_rule; intros [= <- <-]; eauto 20 with wf.

(** Whatever a rule returns, it leaves a well-formed machine. *)
Lemma rule_wf_vm ins f vm halt vm' :
  registered ins ->
  execute ins = Some f ->
  wf_vm vm ->
  f vm = Ok halt vm' ->
  wf_vm vm'.
Proof.
  intros Hreg Hexec Hwf. apply registered_cases in Hreg.
  repeat (apply elem_of_cons in Hreg as [-> | Hreg]);
    try (apply elem_of_nil in Hreg; destruct Hreg);
    injection Hexec as <-.
  - unfold ExecuteAdd. rule_wf.
  - unfold ExecuteNeg. rule_wf.
  - unfold ExecuteMul. rule_wf.
  - unfold ExecuteDiv. rule_wf.
  - unfold ExecuteMod. rule_wf.
  - unfold ExecuteCmp. rule_wf.
  - unfold ExecuteJumpIfAbove. rule_wf.
  - unfold ExecuteJumpIfEqual. rule_wf.
  - unfold ExecuteJumpIfBelow. rule_wf.
  - unfold ExecuteJump. rule_wf.
  - unfold ExecuteCall. rule_wf.
  - unfold ExecuteRet. rule_wf.
  - unfold ExecuteLoad. rule_wf.
  - unfold ExecuteStore. rule_wf.
  - unfold ExecuteConst. rule_wf.
  - unfold ExecuteRload. rule_wf.
  - unfold ExecuteRstore. rule_wf.
  - unfold ExecuteHalt. rule_wf.
  - unfold ExecuteInterrupt. rule_wf.
  - unfold ExecuteNop. rule_wf.
  - unfold ExecutePush. rule_wf.
  - unfold ExecutePushAll. rule_wf.
  - unfold ExecutePop. rule_wf.
  - unfold ExecutePopAll. rule_wf.
  - unfold ExecuteLSP. rule_wf.
Qed.

End RulesKeepWellFormedness.

(** ** The length check at the head of every rule *)

Section LengthCheck.

Implicit Types (vm : TOYVM) (ins : instruction).

(** C8, as amended.  Every registered rule other than [ExecuteHalt], run on a
    machine whose program counter plus the length of the instruction exceeds
    [memory_size], returns the halt signal and leaves exactly the machine it
    was given with [BAD_ACCESS] set: no operand is read (the tape is not
    consulted) and nothing else changes. *)
Theorem rule_checks_length_first ins f vm :
  registered ins ->
  execute ins = Some f ->
  opcode ins <> HALT ->
  opcode_map vm = initial_opcode_map ->
  in_int32 (program_counter (cpu vm)) ->
  0 <= memory_size vm <= int32_max ->
  memory_size vm < program_counter (cpu vm) + size ins ->
  f vm = Ok true (raise_BAD_ACCESS vm).
Proof.
  intros Hreg Hexec Hhalt Hmap Hpc Hms Hover.
  pose proof (InstructionFitsInMemory_false vm ins Hreg Hmap Hpc Hms Hover)
    as Hfit.
  apply registered_cases in Hreg.
  repeat (apply elem_of_cons in Hreg as [-> | Hreg]);
    try (apply elem_of_nil in Hreg; destruct Hreg);
    simpl in Hexec, Hfit, Hhalt; injection Hexec as <-;
    try (exfalso; apply Hhalt; reflexivity);
    unfold ExecuteAdd, ExecuteNeg, ExecuteMul, ExecuteDiv, ExecuteMod,
      ExecuteCmp, ExecuteJumpIfAbove, ExecuteJumpIfEqual, ExecuteJumpIfBelow,
      ExecuteJump, ExecuteCall, ExecuteRet, ExecuteLoad, ExecuteStore,
      ExecuteConst, ExecuteRload, ExecuteRstore, ExecuteInterrupt,
      ExecuteNop, ExecutePush, ExecutePushAll, ExecutePop, ExecutePopAll,
      ExecuteLSP;
    rewrite Hfit; reflexivity.
Qed.

(** An [ADD] whose third byte would lie past the end of an 8-byte tape. *)
Lemma rule_checks_length_first_witness :
  memory_size add_cut_short < program_counter (cpu add_cut_short) + 3
  /\ ExecuteAdd add_cut_short = Ok true (raise_BAD_ACCESS add_cut_short).
Proof.
  split; [ vm_compute; reflexivity | ].
  apply (rule_checks_length_first (mk_instruction ADD 3 (Some ExecuteAdd))).
  - split; [ repeat constructor | eexists; reflexivity ].
  - reflexivity.
  - discriminate.
  - reflexivity.
  - split; vm_compute; discriminate.
  - split; vm_compute; discriminate.
  - vm_compute; reflexivity.
Defined.

(** C8 as stated fails for [HALT]: its rule makes no length check, so past
    the end of the tape it returns the halt signal with [BAD_ACCESS] clear. *)
Lemma halt_rule_skips_length_check :
  registered (mk_instruction HALT 1 (Some ExecuteHalt))
  /\ memory_size past_the_tape < program_counter (cpu past_the_tape) + 1
  /\ ExecuteHalt past_the_tape = Ok true past_the_tape
  /\ BAD_ACCESS (flags past_the_tape) = false
  /\ ExecuteHalt past_the_tape <> Ok true (raise_BAD_ACCESS past_the_tape).
Proof.
  split; [ split; [ repeat constructor | eexists; reflexivity ] | ].
  split; [ vm_compute; reflexivity | ].
  split; [ reflexivity | ].
  split; [ reflexivity | ].
  vm_compute. discriminate.
Qed.

End LengthCheck.

(** ** Reading inside the tape *)

Section TapeReads.

Implicit Types (vm : TOYVM).

Lemma ReadByte_in_tape vm a :
  Z.of_nat (length (memory vm)) = memory_size vm ->
  0 <= a < memory_size vm ->
  exists b, ReadByte vm a = Some b.
Proof.
  intros Hlen Ha. unfold ReadByte.
  destruct (Z.leb_spec 0 a) as [_ | ?]; [ | lia ].
  apply lookup_lt_is_Some_2. lia.
Qed.

Lemma ReadWord_in_tape vm a :
  Z.of_nat (length (memory vm)) = memory_size vm ->
  0 <= a -> a + 4 <= memory_size vm ->
  exists w, ReadWord vm a = Some w.
Proof.
  intros Hlen Ha Hfit. unfold ReadWord.
  destruct (ReadByte_in_tape vm a Hlen) as [b1 ->]; [ lia | ].
  destruct (ReadByte_in_tape vm (a + 1) Hlen) as [b2 ->]; [ lia | ].
  destruct (ReadByte_in_tape vm (a + 2) Hlen) as [b3 ->]; [ lia | ].
  destruct (ReadByte_in_tape vm (a + 3) Hlen) as [b4 ->]; [ lia | ].
  simpl. eauto.
Qed.

End TapeReads.

(** ** Register operands outside 0..3 *)

Section RegisterOperands.

Implicit Types (vm : TOYVM) (ins : instruction).

(** Replaces the operand reads of the rule in the goal by their values: the
    read known from [Hb] where it applies, an arbitrary byte or word of the
    tape elsewhere. *)
Ltac read_operands vm Hlen Hb :=
  repeat match goal with
    | |- context [ReadByte vm ?a] =>
        first
          [ rewrite Hb
          | let H := fresh "Hread" in
            destruct (ReadByte_in_tape vm a Hlen) as [? H];
            [ simpl in *; lia | rewrite H ] ]
    | |- context [ReadWord vm ?a] =>
        let H := fresh "Hread" in
        destruct (ReadWord_in_tape vm a Hlen) as [? H];
        [ simpl in *; lia | simpl in *; lia | rewrite H ]
    end.

(** C3, as amended.  For every instruction with register operands other than
    [RLOAD] and [RSTORE], lying inside the tape, an operand byte that is not
    one of 0..3 makes the rule set [INVALID_REGISTER_INDEX] and return the
    halt signal, leaving everything else as it was; for [PUSH] this is so
    when the stack is not full, and for [POP] when it is not empty. *)
Theorem invalid_register_operand_halts ins f vm k b :
  registered ins ->
  execute ins = Some f ->
  k ∈ register_operand_offsets (opcode ins) ->
  opcode ins <> RLOAD ->
  opcode ins <> RSTORE ->
  wf_vm vm ->
  0 <= program_counter (cpu vm) ->
  program_counter (cpu vm) + size ins <= memory_size vm ->
  (opcode ins = PUSH -> StackIsFull vm = false) ->
  (opcode ins = POP -> StackIsEmpty vm = false) ->
  ReadByte vm (program_counter (cpu vm) + k) = Some b ->
  IsValidRegisterIndex b = false ->
  f vm = Ok true (raise_INVALID_REGISTER_INDEX vm).
Proof.
  intros Hreg Hexec Hk Hrload Hrstore Hwf Hpc Hin Hpush Hpop Hb Hbad.
  destruct Hwf as [Hlen Hms _ Hmap _ _ _ _ _].
  pose proof (InstructionFitsInMemory_true vm ins Hreg Hmap Hpc Hms Hin)
    as Hfit.
  apply registered_cases in Hreg.
  repeat (apply elem_of_cons in Hreg as [-> | Hreg]);
    try (apply elem_of_nil in Hreg; destruct Hreg);
    simpl in Hexec, Hfit, Hin, Hrload, Hrstore, Hpush, Hpop;
    injection Hexec as <-;
    try (exfalso; apply Hrload; reflexivity);
    try (exfalso; apply Hrstore; reflexivity);
    vm_compute in Hk;
    repeat (apply elem_of_cons in Hk as [-> | Hk]);
    try (apply elem_of_nil in Hk; destruct Hk);
    unfold ExecuteAdd, ExecuteNeg, ExecuteMul, ExecuteDiv, ExecuteMod,
      ExecuteCmp, ExecuteLoad, ExecuteStore, ExecuteConst, ExecutePush,
      ExecutePop, ExecuteLSP, GetProgramCounter;
    rewrite Hfit; cbn [negb defined];
    rewrite ?(Hpush eq_refl), ?(Hpop eq_refl);
    read_operands vm Hlen Hb;
    cbn [defined]; rewrite Hbad; cbn [negb orb];
    rewrite ?orb_true_r; reflexivity.
Qed.

(** [NEG 9] at the start of a loaded program. *)
Lemma invalid_register_operand_halts_witness :
  ReadByte neg_bad_register (program_counter (cpu neg_bad_register) + 1)
  = Some 9
  /\ IsValidRegisterIndex 9 = false
  /\ ExecuteNeg neg_bad_register
     = Ok true (raise_INVALID_REGISTER_INDEX neg_bad_register).
Proof.
  split; [ reflexivity | ]. split; [ reflexivity | ].
  apply (invalid_register_operand_halts
           (mk_instruction NEG 2 (Some ExecuteNeg)) ExecuteNeg
           neg_bad_register 1 9).
  - split; [ repeat constructor | eexists; reflexivity ].
  - reflexivity.
  - repeat constructor.
  - discriminate.
  - discriminate.
  - wf_by_computation.
  - vm_compute; discriminate.
  - vm_compute; discriminate.
  - discriminate.
  - discriminate.
  - reflexivity.
  - reflexivity.
Defined.

(** C3 as stated fails where a guard placed before the register check stops
    the rule: a [CONST] cut short by the end of the tape sets [BAD_ACCESS]
    instead, and a [PUSH] on a full stack returns the halt signal with every
    flag clear. *)
Lemma invalid_register_operand_not_flagged :
  (1 ∈ register_operand_offsets CONST
   /\ ReadByte const_cut_short (program_counter (cpu const_cut_short) + 1)
      = Some 9
   /\ IsValidRegisterIndex 9 = false
   /\ ExecuteConst const_cut_short = Ok true (raise_BAD_ACCESS const_cut_short)
   /\ INVALID_REGISTER_INDEX (flags (raise_BAD_ACCESS const_cut_short)) = false)
  /\
  (1 ∈ register_operand_offsets PUSH
   /\ ReadByte push_full_bad_register
        (program_counter (cpu push_full_bad_register) + 1) = Some 9
   /\ ExecutePush push_full_bad_register = Ok true push_full_bad_register
   /\ INVALID_REGISTER_INDEX (flags push_full_bad_register) = false).
Proof.
  split.
  - split; [ repeat constructor | ]. repeat split.
  - split; [ repeat constructor | ]. repeat split.
Qed.

(** The register check of [ExecuteRstore] records a bad operand under
    [BAD_ACCESS]. *)
Lemma ExecuteRstore_invalid_register vm s t :
  InstructionFitsInMemory vm RSTORE = Some true ->
  ReadByte vm (program_counter (cpu vm) + 1) = Some s ->
  ReadByte vm (program_counter (cpu vm) + 2) = Some t ->
  IsValidRegisterIndex s = false \/ IsValidRegisterIndex t = false ->
  ExecuteRstore vm = Ok true (raise_BAD_ACCESS vm).
Proof.
  intros Hfit Hs Ht Hbad. unfold ExecuteRstore, GetProgramCounter.
  rewrite Hfit, Hs, Ht. cbn [negb defined].
  destruct Hbad as [-> | ->]; cbn [negb orb]; rewrite ?orb_true_r; reflexivity.
Qed.

Lemma invalid_index_outside_array index :
  IsValidRegisterIndex index = false ->
  (0 <=? index) && (index <? N_REGISTERS) = false.
Proof.
  unfold IsValidRegisterIndex, REG1, REG2, REG3, REG4, N_REGISTERS.
  intros Hbad.
  destruct (Z.leb_spec 0 index), (Z.ltb_spec index 4); try reflexivity.
  exfalso. revert Hbad.
  destruct (Z.eqb_spec index 0), (Z.eqb_spec index 1),
    (Z.eqb_spec index 2), (Z.eqb_spec index 3); simpl; try discriminate. lia.
Qed.

Lemma read_register_invalid vm index :
  IsValidRegisterIndex index = false -> read_register vm index = None.
Proof.
  intros Hbad. unfold read_register.
  rewrite invalid_index_outside_array by assumption. reflexivity.
Qed.

Lemma write_register_invalid vm index value :
  IsValidRegisterIndex index = false -> write_register vm index value = None.
Proof.
  intros Hbad. unfold write_register.
  rewrite invalid_index_outside_array by assumption. reflexivity.
Qed.

(** The register check of [ExecuteRload] sets [INVALID_REGISTER_INDEX] and
    does not return: the rule goes on to index the register array with the
    operand it has just rejected. *)
Lemma ExecuteRload_invalid_register vm s t :
  InstructionFitsInMemory vm RLOAD = Some true ->
  ReadByte vm (program_counter (cpu vm) + 1) = Some s ->
  ReadByte vm (program_counter (cpu vm) + 2) = Some t ->
  IsValidRegisterIndex s = false \/ IsValidRegisterIndex t = false ->
  ExecuteRload vm = Undef (raise_INVALID_REGISTER_INDEX vm).
Proof.
  intros Hfit Hs Ht Hbad. unfold ExecuteRload, GetProgramCounter.
  rewrite Hfit, Hs, Ht. cbn [negb defined].
  destruct (IsValidRegisterIndex s) eqn:Hvs.
  - destruct Hbad as [Hbad | Hbad]; [ discriminate | ].
    rewrite Hbad. cbn [negb orb].
    destruct (read_register _ s); [ | reflexivity ]. cbn [defined].
    destruct (ReadWord _ _); [ | reflexivity ]. cbn [defined].
    rewrite write_register_invalid by assumption. reflexivity.
  - cbn [negb orb]. rewrite read_register_invalid by assumption. reflexivity.
Qed.

End RegisterOperands.

(** ** The remainder instruction *)

Section Remainder.

Implicit Types (vm : TOYVM).

Lemma registered_MOD : registered (mk_instruction MOD 3 (Some ExecuteMod)).
Proof. split; [ repeat constructor | eexists; reflexivity ]. Qed.

(** C9, as amended.  On a well-formed machine with a [MOD] inside the tape
    and valid operand bytes [s] (source) and [t] (target), holding [a] and
    [b], with [b] non-zero and not the pair [a = -2^31], [b = -1]: the rule
    continues, the target register holds [a % b] (the remainder of the
    truncating division of the source by the old target), the program counter
    has advanced by 3, and nothing else has changed. *)
Theorem ExecuteMod_remainder vm s t a b :
  wf_vm vm ->
  0 <= program_counter (cpu vm) ->
  program_counter (cpu vm) + 3 <= memory_size vm ->
  ReadByte vm (program_counter (cpu vm) + 1) = Some s ->
  ReadByte vm (program_counter (cpu vm) + 2) = Some t ->
  IsValidRegisterIndex s = true ->
  IsValidRegisterIndex t = true ->
  read_register vm s = Some a ->
  read_register vm t = Some b ->
  b <> 0 ->
  ~ (a = int32_min /\ b = -1) ->
  exists vm',
    ExecuteMod vm = Ok false vm'
    /\ read_register vm' t = Some (Z.rem a b)
    /\ program_counter (cpu vm') = program_counter (cpu vm) + 3
    /\ vm' = set_program_counter (program_counter (cpu vm) + 3)
               (set_registers
                  (<[Z.to_nat t := Z.rem a b]> (registers (cpu vm))) vm).
Proof.
  intros Hwf Hpc Hin Hs Ht Hvs Hvt Ha Hb Hnz Hovf.
  destruct Hwf as [Hlen Hms Hregs Hmap _ _ _ _ _].
  pose proof (InstructionFitsInMemory_true vm _ registered_MOD Hmap Hpc Hms Hin)
    as Hfit.
  cbn [opcode] in Hfit.
  set (vm1 := set_registers (<[Z.to_nat t := Z.rem a b]> (registers (cpu vm))) vm).
  pose proof (advance_registered vm1 _ registered_MOD Hmap Hpc) as Hadv.
  cbn [opcode size] in Hadv.
  exists (set_program_counter (program_counter (cpu vm) + 3) vm1).
  split; [ | split; [ | split; [ | reflexivity ] ] ].
  - unfold ExecuteMod, GetProgramCounter. rewrite Hfit.
    cbn [negb defined]. rewrite Hs, Ht. cbn [defined].
    rewrite Hvs, Hvt. cbn [negb orb]. rewrite Ha, Hb. cbn [defined].
    assert (c_rem a b = Some (Z.rem a b)) as ->.
    { unfold c_rem, div_defined.
      destruct (Z.eqb_spec b 0) as [? | _]; [ contradiction | ].
      destruct (Z.eqb_spec a int32_min) as [Hmin | _],
        (Z.eqb_spec b (-1)) as [Hm1 | _]; try reflexivity.
      exfalso. apply Hovf. split; assumption. }
    cbn [defined].
    rewrite write_register_valid by assumption. cbn [defined].
    apply Hadv. simpl. lia.
  - apply (read_written_register vm t (Z.rem a b) Hregs Hvt).
  - reflexivity.
Qed.

(** [MOD REG1, REG2] with 17 in [REG1] and 5 in [REG2] leaves [17 % 5 = 2] in
    [REG2]. *)
Lemma ExecuteMod_remainder_witness :
  exists vm',
    ExecuteMod mod_17_5_state = Ok false vm'
    /\ read_register vm' REG2 = Some 2
    /\ program_counter (cpu vm') = 15
    /\ vm' = set_program_counter 15
               (set_registers [17; 2; 0; 0] mod_17_5_state).
Proof.
  apply (ExecuteMod_remainder mod_17_5_state REG1 REG2 17 5).
  - wf_by_computation.
  - vm_compute; discriminate.
  - vm_compute; discriminate.
  - reflexivity.
  - reflexivity.
  - reflexivity.
  - reflexivity.
  - reflexivity.
  - reflexivity.
  - discriminate.
  - intros [H _]. discriminate H.
Defined.

(** C9 as stated fails: a non-zero divisor is not enough.  The program
    [mod_overflow_program] reaches its [MOD] with source [-2^31] and target
    [-1], both valid registers and the divisor non-zero, and there the rule
    has no defined result: the register is not set and the program counter
    does not advance. *)
Lemma ExecuteMod_overflow_undefined :
  RunVM 2 (load_file mod_overflow_program) = Running mod_overflow_state
  /\ ReadByte mod_overflow_state
       (program_counter (cpu mod_overflow_state) + 1) = Some REG1
  /\ ReadByte mod_overflow_state
       (program_counter (cpu mod_overflow_state) + 2) = Some REG2
  /\ read_register mod_overflow_state REG1 = Some int32_min
  /\ read_register mod_overflow_state REG2 = Some (-1)
  /\ -1 <> 0
  /\ ExecuteMod mod_overflow_state = Undef mod_overflow_state
  /\ RunVM 3 (load_file mod_overflow_program) = Undefined mod_overflow_state.
Proof.
  repeat split; try reflexivity. discriminate.
Qed.

End Remainder.

(** ** Subroutine call and return *)

Section CallReturn.

Implicit Types (vm : TOYVM).

Lemma registered_CALL : registered (mk_instruction CALL 5 (Some ExecuteCall)).
Proof. split; [ repeat constructor | eexists; reflexivity ]. Qed.

Lemma registered_RET : registered (mk_instruction RET 1 (Some ExecuteRet)).
Proof. split; [ repeat constructor | eexists; reflexivity ]. Qed.

(** C10.  A [CALL] at [call_site], inside the tape, with four bytes of stack
    headroom and a stack pointer whose next slot is on the tape, continues at
    its target after pushing the word [call_site + 5]; and a [RET] executed
    by any later machine state whose stack is as the [CALL] left it (same
    stack pointer, same word on top) continues at [call_site + 5] with the
    stack pointer back to its value before the [CALL]. *)
Theorem call_then_ret_returns_after_call vm call_site :
  wf_vm vm ->
  program_counter (cpu vm) = call_site ->
  0 <= call_site ->
  call_site + 5 <= memory_size vm ->
  4 <= GetAvailableStackSize vm ->
  4 <= stack_pointer (cpu vm) <= memory_size vm ->
  exists vm1 target,
    ExecuteCall vm = Ok false vm1
    /\ ReadWord vm (call_site + 1) = Some target
    /\ program_counter (cpu vm1) = target
    /\ stack_pointer (cpu vm1) = stack_pointer (cpu vm) - 4
    /\ ReadWord vm1 (stack_pointer (cpu vm1)) = Some (call_site + 5)
    /\ forall vm2,
         opcode_map vm2 = initial_opcode_map ->
         memory_size vm2 = memory_size vm1 ->
         0 <= program_counter (cpu vm2) < memory_size vm2 ->
         stack_pointer (cpu vm2) = stack_pointer (cpu vm1) ->
         ReadWord vm2 (stack_pointer (cpu vm2))
         = ReadWord vm1 (stack_pointer (cpu vm1)) ->
         exists vm3,
           ExecuteRet vm2 = Ok false vm3
           /\ program_counter (cpu vm3) = call_site + 5
           /\ stack_pointer (cpu vm3) = stack_pointer (cpu vm).
Proof.
  intros Hwf Hsite Hpc Hin Hroom Hsp. subst call_site.
  destruct Hwf as [Hlen Hms Hregs Hmap _ Hspr _ _ _].
  pose proof (InstructionFitsInMemory_true vm _ registered_CALL Hmap Hpc Hms Hin)
    as Hfit.
  pose proof (GetInstructionLength_registered vm _ Hmap registered_CALL)
    as Hcall_len.
  cbn [opcode size] in Hfit, Hcall_len.
  destruct (ReadWord_in_tape vm (program_counter (cpu vm) + 1) Hlen)
    as [target Htarget]; [ lia | lia | ].
  set (sp := stack_pointer (cpu vm)) in *.
  assert (to_int32 (sp - 4) = sp - 4) as Hsp4.
  { apply to_int32_id. unfold in_int32, int32_min, int32_max in *. lia. }
  assert (in_int32 (program_counter (cpu vm) + 5)) as Hret.
  { unfold in_int32, int32_min, int32_max in *. lia. }
  assert (to_int32
            (to_uint32 (to_size_t (to_size_t (program_counter (cpu vm)) + 5)))
          = program_counter (cpu vm) + 5) as Hword.
  { rewrite fits_sum_small by (unfold int32_max in *; lia).
    rewrite to_int32_uint32. apply to_int32_id. exact Hret. }
  destruct (WriteWord_defined (set_stack_pointer (sp - 4) vm) (sp - 4)
              (program_counter (cpu vm) + 5)) as [vm1 Hwrite];
    [ lia | simpl; lia | ].
  pose proof (WriteWord_frame _ _ _ _ Hwrite)
    as (Hcpu & Hsize1 & _ & _ & _ & _).
  simpl in Hcpu, Hsize1.
  exists (set_program_counter target vm1), target.
  split; [ | split; [ exact Htarget | split; [ reflexivity | ] ] ].
  { unfold ExecuteCall, GetProgramCounter. rewrite Hfit. cbn [negb defined].
    destruct (Z.ltb_spec (GetAvailableStackSize vm) 4); [ lia | ].
    rewrite Htarget, Hcall_len. cbn [defined].
    unfold PushVM. fold sp. rewrite Hsp4, Hword. simpl stack_pointer.
    rewrite Hwrite. reflexivity. }
  split; [ simpl; rewrite Hcpu; reflexivity | ].
  assert (ReadWord (set_program_counter target vm1) (sp - 4)
          = Some (program_counter (cpu vm) + 5)) as Htop.
  { apply (ReadWord_WriteWord_same _ _ _ _ Hwrite Hret). }
  split; [ simpl; rewrite Hcpu; simpl; exact Htop | ].
  intros vm2 Hmap2 Hsize2 Hpc2 Hsp2 Hstack2.
  simpl in Hsize2, Hsp2, Hstack2. rewrite Hcpu in Hsp2, Hstack2.
  simpl in Hsp2, Hstack2. rewrite Hsize1 in Hsize2.
  assert (ReadWord vm2 (stack_pointer (cpu vm2))
          = Some (program_counter (cpu vm) + 5)) as Htop2.
  { rewrite Hstack2. exact Htop. }
  pose proof (InstructionFitsInMemory_true vm2 _ registered_RET Hmap2) as Hfit2.
  cbn [opcode size] in Hfit2.
  eexists. split; [ | split ].
  - unfold ExecuteRet. rewrite Hfit2 by lia. cbn [negb defined].
    unfold StackIsEmpty, PopVM, StackIsEmpty.
    destruct (Z.leb_spec (memory_size vm2) (stack_pointer (cpu vm2)));
      [ lia | ].
    rewrite Htop2. cbn [defined]. reflexivity.
  - reflexivity.
  - simpl. rewrite Hsp2. replace (sp - 4 + 4) with sp by lia.
    apply to_int32_id. exact Hspr.
Qed.

(** The program [CALL 6; HALT; RET]: the [CALL] at 0 pushes 5 and jumps to
    6, and the [RET] found there comes back to 5 with the stack empty again. *)
Lemma call_then_ret_returns_after_call_witness :
  exists vm1 vm3,
    ExecuteCall call_ret_machine = Ok false vm1
    /\ program_counter (cpu vm1) = 6
    /\ ReadWord vm1 (stack_pointer (cpu vm1)) = Some (0 + 5)
    /\ ExecuteRet vm1 = Ok false vm3
    /\ program_counter (cpu vm3) = 0 + 5
    /\ stack_pointer (cpu vm3) = stack_pointer (cpu call_ret_machine).
Proof.
  destruct (call_then_ret_returns_after_call call_ret_machine 0)
    as (vm1 & target & Hcall & Htarget & Hpc & Hsp & Htop & Hret).
  - wf_by_computation.
  - reflexivity.
  - lia.
  - vm_compute; discriminate.
  - vm_compute; discriminate.
  - split; vm_compute; discriminate.
  - assert (vm1 = set_program_counter 6
                    (set_stack_pointer 12
                       (set_memory [CALL; 6; 0; 0; 0; HALT; RET; 0; 0; 0; 0; 0;
                                    5; 0; 0; 0] call_ret_machine))) as Hvm1.
    { vm_compute in Hcall. injection Hcall as <-. reflexivity. }
    destruct (Hret vm1) as (vm3 & Hret3 & Hpc3 & Hsp3).
    + rewrite Hvm1. reflexivity.
    + reflexivity.
    + rewrite Hvm1. vm_compute. split; [ discriminate | reflexivity ].
    + reflexivity.
    + reflexivity.
    + exists vm1, vm3.
      split; [ exact Hcall | ].
      split; [ rewrite Hpc; vm_compute in Htarget;
               injection Htarget as <-; reflexivity | ].
      split; [ exact Htop | ].
      split; [ exact Hret3 | ]. split; assumption.
Defined.

End CallReturn.

(** ** The indirect store *)

Section IndirectStore.

Implicit Types (vm : TOYVM).

Lemma registered_RSTORE :
  registered (mk_instruction RSTORE 3 (Some ExecuteRstore)).
Proof. split; [ repeat constructor | eexists; reflexivity ]. Qed.

(** Whenever [ExecuteRstore] lets the loop continue, the CPU is as it was:
    only the tape has changed. *)
Lemma ExecuteRstore_continue_cpu vm vm' :
  ExecuteRstore vm = Ok false vm' -> cpu vm' = cpu vm.
Proof.
  unfold ExecuteRstore.
  destruct (InstructionFitsInMemory vm RSTORE) as [[] | ]; cbn [negb defined];
    try discriminate.
  destruct (ReadByte vm (GetProgramCounter vm + 1)) as [s | ]; cbn [defined];
    try discriminate.
  destruct (ReadByte vm (GetProgramCounter vm + 2)) as [t | ]; cbn [defined];
    try discriminate.
  destruct (negb (IsValidRegisterIndex s) || negb (IsValidRegisterIndex t));
    try discriminate.
  destruct (read_register vm t) as [address | ]; cbn [defined];
    try discriminate.
  destruct (read_register vm s) as [value | ]; cbn [defined];
    try discriminate.
  destruct (WriteWord vm address value) as [vm1 | ] eqn:Hwrite;
    cbn [defined]; try discriminate.
  intros [= <-]. apply (WriteWord_frame _ _ _ _ Hwrite).
Qed.

(** A turn of the loop that stores to a place away from the instruction
    itself leads to a state from which the same turn leads nowhere else. *)
Lemma RunVM_stuck vm :
  RunVM_iteration vm = Ok false vm ->
  forall fuel, RunVM fuel vm = Running vm.
Proof.
  intros Hstep fuel. induction fuel as [ | fuel IH]; simpl.
  - reflexivity.
  - rewrite Hstep. exact IH.
Qed.

(** C6.  On a well-formed machine with an [RSTORE] inside the tape, valid
    operand bytes and the address register pointing at four bytes of the
    tape, the rule continues with the program counter where it was.  When
    moreover the byte at the program counter is the [RSTORE] opcode and the
    store does not overwrite the instruction, the loop is still running,
    in the same state, after any number of further turns. *)
Theorem ExecuteRstore_keeps_program_counter vm s t address :
  wf_vm vm ->
  0 <= program_counter (cpu vm) ->
  program_counter (cpu vm) + 3 <= memory_size vm ->
  ReadByte vm (program_counter (cpu vm) + 1) = Some s ->
  ReadByte vm (program_counter (cpu vm) + 2) = Some t ->
  IsValidRegisterIndex s = true ->
  IsValidRegisterIndex t = true ->
  read_register vm t = Some address ->
  0 <= address ->
  address + 4 <= memory_size vm ->
  exists vm',
    ExecuteRstore vm = Ok false vm'
    /\ program_counter (cpu vm') = program_counter (cpu vm)
    /\ (ReadByte vm (program_counter (cpu vm)) = Some RSTORE ->
        address + 4 <= program_counter (cpu vm)
        \/ program_counter (cpu vm) + 3 <= address ->
        forall fuel, RunVM (S fuel) vm = Running vm').
Proof.
  intros Hwf Hpc Hin Hs Ht Hvs Hvt Haddr Hlo Hhi.
  destruct Hwf as [Hlen Hms Hregs Hmap _ _ _ _ _].
  pose proof (InstructionFitsInMemory_true vm _ registered_RSTORE Hmap Hpc Hms
                Hin) as Hfit.
  cbn [opcode size] in Hfit.
  destruct (read_register_valid vm s Hregs Hvs) as [value Hvalue].
  destruct (WriteWord_defined vm address value) as [vm' Hwrite];
    [ lia | lia | ].
  assert (ExecuteRstore vm = Ok false vm') as Hstep.
  { unfold ExecuteRstore, GetProgramCounter. rewrite Hfit.
    cbn [negb defined]. rewrite Hs, Ht. cbn [defined].
    rewrite Hvs, Hvt. cbn [negb orb]. rewrite Haddr, Hvalue. cbn [defined].
    rewrite Hwrite. reflexivity. }
  exists vm'. split; [ exact Hstep | ].
  pose proof (WriteWord_frame _ _ _ _ Hwrite)
    as (Hcpu & Hsize & _ & Hmap' & _ & Hlen').
  split; [ rewrite Hcpu; reflexivity | ].
  intros Hop Haway fuel.
  assert (RunVM_iteration vm = Ok false vm') as Hturn.
  { rewrite <- Hstep.
    apply (RunVM_iteration_registered vm
             (mk_instruction RSTORE 3 (Some ExecuteRstore)) ExecuteRstore Hmap);
      [ lia | exact Hop | exact registered_RSTORE | reflexivity ]. }
  assert (ExecuteRstore vm' = Ok false vm') as Hstep'.
  { unfold ExecuteRstore, GetProgramCounter.
    unfold InstructionFitsInMemory, GetInstructionLength, read_register in *.
    rewrite Hcpu, Hsize, Hmap'. rewrite Hfit. cbn [negb defined].
    rewrite (ReadByte_WriteWord_other _ _ _ _ _ Hwrite) by lia.
    rewrite (ReadByte_WriteWord_other _ _ _ _ _ Hwrite) by lia.
    rewrite Hs, Ht. cbn [defined].
    rewrite Hvs, Hvt. cbn [negb orb]. rewrite Haddr, Hvalue. cbn [defined].
    rewrite (WriteWord_again _ _ _ _ Hwrite). reflexivity. }
  assert (RunVM_iteration vm' = Ok false vm') as Hturn'.
  { rewrite <- Hstep'.
    apply (RunVM_iteration_registered vm'
             (mk_instruction RSTORE 3 (Some ExecuteRstore)) ExecuteRstore);
      [ congruence | rewrite Hcpu, Hsize; lia | | exact registered_RSTORE
      | reflexivity ].
    rewrite Hcpu. rewrite (ReadByte_WriteWord_other _ _ _ _ _ Hwrite) by lia.
    exact Hop. }
  simpl. rewrite Hturn. apply RunVM_stuck. exact Hturn'.
Qed.

(** [RSTORE REG1, REG2] storing 7 at address 28, away from the instruction at
    address 12. *)
Lemma ExecuteRstore_keeps_program_counter_witness :
  exists vm',
    ExecuteRstore rstore_state = Ok false vm'
    /\ program_counter (cpu vm') = program_counter (cpu rstore_state)
    /\ (ReadByte rstore_state (program_counter (cpu rstore_state))
        = Some RSTORE ->
        28 + 4 <= program_counter (cpu rstore_state)
        \/ program_counter (cpu rstore_state) + 3 <= 28 ->
        forall fuel, RunVM (S fuel) rstore_state = Running vm').
Proof.
  apply (ExecuteRstore_keeps_program_counter rstore_state REG1 REG2 28).
  - wf_by_computation.
  - vm_compute; discriminate.
  - vm_compute; discriminate.
  - reflexivity.
  - reflexivity.
  - reflexivity.
  - reflexivity.
  - reflexivity.
  - lia.
  - vm_compute; discriminate.
Defined.

End IndirectStore.

(** ** Creating a machine *)

Section Initialization.

Lemma align_up_small x :
  0 <= x < 2 ^ 31 - 4 -> align_up x = x + 4 - x mod 4.
Proof.
  intros Hx. unfold align_up.
  pose proof (Z.mod_pos_bound x 4 ltac:(lia)) as Hmod.
  rewrite (to_size_t_small x) by lia.
  rewrite (to_size_t_small (4 - x mod 4)) by lia.
  rewrite to_size_t_small by lia.
  rewrite to_int32_id; [ lia | ].
  unfold in_int32, int32_min, int32_max.
  assert ((x + 4 - x mod 4) mod 4 = 0) as Hdiv.
  { replace (x + 4 - x mod 4) with (x - x mod 4 + 1 * 4) by lia.
    rewrite Z.mod_add by lia. rewrite Zminus_mod_idemp_r.
    rewrite Z.sub_diag. reflexivity. }
  apply Z.mod_divide in Hdiv; [ | lia ]. destruct Hdiv as [q Hq]. lia.
Qed.

Lemma align_up_next_multiple x :
  0 <= x < 2 ^ 31 - 4 -> next_multiple_of_4 x (align_up x).
Proof.
  intros Hx. rewrite align_up_small by exact Hx.
  pose proof (Z.mod_pos_bound x 4 ltac:(lia)) as Hmod.
  assert ((x + 4 - x mod 4) mod 4 = 0) as Hdiv.
  { replace (x + 4 - x mod 4) with (x - x mod 4 + 1 * 4) by lia.
    rewrite Z.mod_add by lia. rewrite Zminus_mod_idemp_r.
    rewrite Z.sub_diag. reflexivity. }
  split; [ exact Hdiv | ]. split; [ lia | ].
  intros k Hk Hlt.
  apply Z.mod_divide in Hdiv; [ | lia ]. destruct Hdiv as [q Hq].
  apply Z.mod_divide in Hk; [ | lia ]. destruct Hk as [p Hp]. lia.
Qed.

(** C7, as amended.  For inputs from 0 up to [2^31 - 5], [InitializeVM] sets
    [memory_size] to [m + 4 - m mod 4], the least multiple of 4 strictly
    greater than [m] (so [m + 4] when [m] is divisible by 4), and
    [stack_limit] to the same function of its own argument. *)
Theorem InitializeVM_rounds_past_argument m s :
  0 <= m < 2 ^ 31 - 4 ->
  0 <= s < 2 ^ 31 - 4 ->
  memory_size (InitializeVM m s) = m + 4 - m mod 4
  /\ next_multiple_of_4 m (memory_size (InitializeVM m s))
  /\ (m mod 4 = 0 -> memory_size (InitializeVM m s) = m + 4)
  /\ stack_limit (InitializeVM m s) = s + 4 - s mod 4
  /\ next_multiple_of_4 s (stack_limit (InitializeVM m s))
  /\ (s mod 4 = 0 -> stack_limit (InitializeVM m s) = s + 4).
Proof.
  intros Hm Hs. simpl.
  pose proof (align_up_small m Hm) as Hma.
  pose proof (align_up_small s Hs) as Hsa.
  repeat split; try assumption;
    try (apply align_up_next_multiple; assumption);
    try (intros Hdiv; rewrite ?Hma, ?Hsa, Hdiv; lia).
Qed.

(** [InitializeVM] with arguments 10 and 8 sets both fields to 12. *)
Lemma InitializeVM_rounds_past_argument_witness :
  memory_size (InitializeVM 10 8) = 10 + 4 - 10 mod 4
  /\ next_multiple_of_4 10 (memory_size (InitializeVM 10 8))
  /\ (10 mod 4 = 0 -> memory_size (InitializeVM 10 8) = 10 + 4)
  /\ stack_limit (InitializeVM 10 8) = 8 + 4 - 8 mod 4
  /\ next_multiple_of_4 8 (stack_limit (InitializeVM 10 8))
  /\ (8 mod 4 = 0 -> stack_limit (InitializeVM 10 8) = 8 + 4).
Proof.
  apply (InitializeVM_rounds_past_argument 10 8); lia.
Defined.

(** C7 as stated fails for every argument that is already a multiple of 4:
    for 8 the field is set to 12, which is not the least multiple of 4 at or
    above 8. *)
Lemma InitializeVM_multiple_of_4_not_kept :
  memory_size (InitializeVM 8 8) = 12
  /\ stack_limit (InitializeVM 8 8) = 12
  /\ ~ rounded_up_to_multiple_of_4 8 (memory_size (InitializeVM 8 8))
  /\ ~ rounded_up_to_multiple_of_4 8 (stack_limit (InitializeVM 8 8)).
Proof.
  split; [ reflexivity | ]. split; [ reflexivity | ].
  split; intros (_ & _ & Hleast);
    specialize (Hleast 8 eq_refl ltac:(lia)); vm_compute in Hleast;
    apply Hleast; reflexivity.
Qed.

(** The machine left by [InitializeVM] is well formed, its tape is filled
    with zeros, its stack is empty and its flags are clear. *)
Lemma InitializeVM_wf m s :
  0 <= m < 2 ^ 31 - 4 ->
  0 <= s < 2 ^ 31 - 4 ->
  wf_vm (InitializeVM m s)
  /\ memory (InitializeVM m s)
     = replicate (Z.to_nat (memory_size (InitializeVM m s))) 0
  /\ stack_pointer (cpu (InitializeVM m s)) = memory_size (InitializeVM m s)
  /\ program_counter (cpu (InitializeVM m s)) = 0
  /\ fault_flag_set (InitializeVM m s) = false.
Proof.
  intros Hm Hs.
  pose proof (align_up_small m Hm) as Hma.
  pose proof (align_up_small s Hs) as Hsa.
  pose proof (align_up_next_multiple m Hm) as (Hdm & Hltm & _).
  pose proof (align_up_next_multiple s Hs) as (Hds & Hlts & _).
  pose proof (Z.mod_pos_bound m 4 ltac:(lia)) as Hmodm.
  pose proof (Z.mod_pos_bound s 4 ltac:(lia)) as Hmods.
  assert (align_up m <= int32_max) as Hmax.
  { apply Z.mod_divide in Hdm; [ | lia ]. destruct Hdm as [q Hq].
    unfold int32_max. lia. }
  assert (align_up s <= int32_max) as Hsmax.
  { apply Z.mod_divide in Hds; [ | lia ]. destruct Hds as [q Hq].
    unfold int32_max. lia. }
  split; [ | repeat split ].
  split; simpl; try reflexivity;
    unfold in_int32, int32_min, int32_max in *; try lia.
  - rewrite length_replicate. lia.
  - apply Forall_replicate. lia.
  - repeat (constructor; [ lia | ]). constructor.
Qed.

End Initialization.

(** ** The public load entry point *)

Section Load.

(** C2.  Whatever the machine, the caller's buffer and the size, a call of
    [WriteVMMemory] that has a defined result leaves the machine exactly as
    it was, tape included, and writes into the caller's buffer the first
    [size] bytes of the tape; the call has a defined result whenever [size]
    exceeds neither the tape nor the buffer. *)
Theorem WriteVMMemory_leaves_tape vm mem size :
  (forall vm' mem',
     WriteVMMemory vm mem size = Some (vm', mem') ->
     vm' = vm /\ memory vm' = memory vm
     /\ mem' = take (Z.to_nat size) (memory vm) ++ drop (Z.to_nat size) mem)
  /\ (0 <= size <= Z.of_nat (length (memory vm)) ->
      size <= Z.of_nat (length mem) ->
      exists mem', WriteVMMemory vm mem size = Some (vm, mem')).
Proof.
  unfold WriteVMMemory. split.
  - intros vm' mem'.
    destruct ((0 <=? size) && (size <=? Z.of_nat (length (memory vm)))
              && (size <=? Z.of_nat (length mem))); [ | discriminate ].
    intros [= <- <-]. repeat split.
  - intros Hsize Hmem.
    destruct (Z.leb_spec 0 size); [ | lia ].
    destruct (Z.leb_spec size (Z.of_nat (length (memory vm)))); [ | lia ].
    destruct (Z.leb_spec size (Z.of_nat (length mem))); [ | lia ].
    simpl. eauto.
Qed.

(** The call meant to load the program [HALT; NOP; NOP] into a fresh machine:
    the machine is returned as it was, and the program buffer comes back
    overwritten with three zero bytes of the tape. *)
Lemma WriteVMMemory_leaves_tape_witness :
  exists mem',
    WriteVMMemory (InitializeVM 4 4) [HALT; NOP; NOP] 3
    = Some (InitializeVM 4 4, mem')
    /\ mem' = [0; 0; 0].
Proof.
  destruct (WriteVMMemory_leaves_tape (InitializeVM 4 4) [HALT; NOP; NOP] 3)
    as [Hframe Hdefined].
  destruct Hdefined as [mem' Hcall].
  - vm_compute. split; discriminate.
  - vm_compute. discriminate.
  - exists mem'. split; [ exact Hcall | ].
    destruct (Hframe _ _ Hcall) as (_ & _ & ->). reflexivity.
Defined.

End Load.

(** ** Fault flags along a run *)

Section FaultFlags.

Implicit Types (vm : TOYVM).

(** Updates of the other fields leave the fault flags alone. *)
Lemma fault_flags_set_program_counter v vm :
  fault_flags (set_program_counter v vm) = fault_flags vm.
Proof. reflexivity. Qed.

Lemma fault_flags_set_stack_pointer v vm :
  fault_flags (set_stack_pointer v vm) = fault_flags vm.
Proof. reflexivity. Qed.

Lemma fault_flags_set_registers r vm :
  fault_flags (set_registers r vm) = fault_flags vm.
Proof. reflexivity. Qed.

Lemma fault_flags_set_memory m vm :
  fault_flags (set_memory m vm) = fault_flags vm.
Proof. reflexivity. Qed.

Lemma fault_flags_set_console o vm :
  fault_flags (set_console o vm) = fault_flags vm.
Proof. reflexivity. Qed.

Lemma fault_flags_set_comparison below equal above vm :
  fault_flags (set_comparison below equal above vm) = fault_flags vm.
Proof. reflexivity. Qed.

Create Rewrite HintDb fault_flags.

#[local] Hint Rewrite fault_flags_set_program_counter fault_flags_set_stack_pointer
  fault_flags_set_registers fault_flags_set_memory fault_flags_set_console
  fault_flags_set_comparison : fault_flags.

Lemma WriteWord_fault_flags vm a v vm' :
  WriteWord vm a v = Some vm' -> fault_flags vm' = fault_flags vm.
Proof.
  intros H. apply WriteWord_frame in H as (Hcpu & _).
  unfold fault_flags, flags. rewrite Hcpu. reflexivity.
Qed.

Lemma write_register_fault_flags vm index value vm' :
  write_register vm index value = Some vm' -> fault_flags vm' = fault_flags vm.
Proof.
  unfold write_register.
  destruct ((0 <=? index) && (index <? N_REGISTERS)
            && (index <? Z.of_nat (length (registers (cpu vm)))));
    [ | discriminate ].
  intros [= <-]. reflexivity.
Qed.

Lemma push_register_fault_flags vm index vm' :
  push_register vm index = Some vm' -> fault_flags vm' = fault_flags vm.
Proof.
  unfold push_register.
  destruct (read_register vm index) as [value | ]; [ | discriminate ].
  simpl. intros H. apply WriteWord_fault_flags in H. exact H.
Qed.

Lemma PrintString_fault_flags vm address vm' :
  PrintString vm address = Some vm' -> fault_flags vm' = fault_flags vm.
Proof.
  unfold PrintString.
  destruct (c_string _) as [text | ]; [ | discriminate ].
  simpl. intros [= <-]. reflexivity.
Qed.

Lemma PopVM_fault_flags vm word vm' :
  PopVM vm = Ok word vm' -> StackIsEmpty vm = false ->
  fault_flags vm' = fault_flags vm.
Proof.
  unfold PopVM. intros H Hempty. rewrite Hempty in H.
  destruct (ReadWord vm _) as [w | ]; [ | discriminate ].
  cbn [defined] in H. injection H as _ <-. reflexivity.
Qed.

Lemma PushVM_fault_flags vm value u vm' :
  PushVM vm value = Ok u vm' -> fault_flags vm' = fault_flags vm.
Proof.
  unfold PushVM. cbv zeta.
  destruct (WriteWord _ _ _) as [vm2 | ] eqn:Hwrite; [ | discriminate ].
  cbn [defined]. intros [= _ <-].
  apply WriteWord_fault_flags in Hwrite. exact Hwrite.
Qed.

(** Collects what the helper calls recorded in the context did to the fault
    flags. *)
Ltac helper_flags :=
  repeat match goal with
    | H : WriteWord _ _ _ = Some _ |- _ => apply WriteWord_fault_flags in H
    | H : write_register _ _ _ = Some _ |- _ =>
        apply write_register_fault_flags in H
    | H : push_register _ _ = Some _ |- _ =>
        apply push_register_fault_flags in H
    | H : PrintString _ _ = Some _ |- _ => apply PrintString_fault_flags in H
    | H : PushVM _ _ = Ok _ _ |- _ => apply PushVM_fault_flags in H
    | H : PopVM ?vm = Ok _ _, E : StackIsEmpty ?vm = false |- _ =>
        apply (fun H => PopVM_fault_flags _ _ _ H E) in H
    end.

Ltac continue_flags :=
  unfold advance; split_rule;
  try discriminate;
  intros [= <-]; helper_flags;
  autorewrite with fault_flags; congruence.

(** A rule that lets the loop continue has changed no fault flag. *)
Lemma rule_continue_fault_flags ins f vm vm' :
  registered ins ->
  execute ins = Some f ->
  f vm = Ok false vm' ->
  fault_flags vm' = fault_flags vm.
Proof.
  intros Hreg Hexec. apply registered_cases in Hreg.
  repeat (apply elem_of_cons in Hreg as [-> | Hreg]);
    try (apply elem_of_nil in Hreg; destruct Hreg);
    injection Hexec as <-.
  - unfold ExecuteAdd. continue_flags.
  - unfold ExecuteNeg. continue_flags.
  - unfold ExecuteMul. continue_flags.
  - unfold ExecuteDiv. continue_flags.
  - unfold ExecuteMod. continue_flags.
  - unfold ExecuteCmp. continue_flags.
  - unfold ExecuteJumpIfAbove. continue_flags.
  - unfold ExecuteJumpIfEqual. continue_flags.
  - unfold ExecuteJumpIfBelow. continue_flags.
  - unfold ExecuteJump. continue_flags.
  - unfold ExecuteCall. continue_flags.
  - unfold ExecuteRet. continue_flags.
  - unfold ExecuteLoad. continue_flags.
  - unfold ExecuteStore. continue_flags.
  - unfold ExecuteConst. continue_flags.
  - intros Hrule. pose proof Hrule as Hcases. revert Hcases.
    unfold ExecuteRload, GetProgramCounter.
    destruct (InstructionFitsInMemory vm RLOAD) as [[] | ] eqn:Hfit;
      cbn [negb defined]; try discriminate.
    destruct (ReadByte vm (program_counter (cpu vm) + 1)) as [s | ] eqn:Hs;
      cbn [defined]; try discriminate.
    destruct (ReadByte vm (program_counter (cpu vm) + 2)) as [t | ] eqn:Ht;
      cbn [defined]; try discriminate.
    destruct (negb (IsValidRegisterIndex s) || negb (IsValidRegisterIndex t))
      eqn:Hbad.
    + exfalso. apply orb_true_iff in Hbad.
      rewrite !negb_true_iff in Hbad.
      rewrite (ExecuteRload_invalid_register vm s t Hfit Hs Ht Hbad) in Hrule.
      discriminate Hrule.
    + continue_flags.
  - unfold ExecuteRstore. continue_flags.
  - unfold ExecuteHalt. continue_flags.
  - unfold ExecuteInterrupt. continue_flags.
  - unfold ExecuteNop. continue_flags.
  - unfold ExecutePush. continue_flags.
  - unfold ExecutePushAll. continue_flags.
  - unfold ExecutePop. continue_flags.
  - unfold ExecutePopAll. continue_flags.
  - unfold ExecuteLSP. continue_flags.
Qed.

(** A turn of the loop that does not return has changed no fault flag. *)
Lemma RunVM_iteration_continue_fault_flags vm vm' :
  RunVM_iteration vm = Ok false vm' -> fault_flags vm' = fault_flags vm.
Proof.
  unfold RunVM_iteration.
  destruct ((GetProgramCounter vm <? 0)
            || (memory_size vm <=? GetProgramCounter vm)); [ discriminate | ].
  destruct (ReadByte vm (GetProgramCounter vm)) as [op | ]; cbn [defined];
    [ | discriminate ].
  destruct (opcode_map vm !! Z.to_nat op) as [index | ]; cbn [defined];
    [ | discriminate ].
  destruct (index =? 0); [ discriminate | ].
  destruct (instructions !! Z.to_nat index) as [entry | ] eqn:Hentry;
    cbn [defined]; [ | discriminate ].
  destruct (execute entry) as [f | ] eqn:Hexec; cbn [defined];
    [ | discriminate ].
  apply (rule_continue_fault_flags entry f vm vm'); [ | exact Hexec ].
  split; [ | eexists; exact Hexec ].
  apply list_elem_of_lookup. eexists. exact Hentry.
Qed.

(** As long as a run is defined and has not returned, the fault flags are
    those it started with: a machine that starts with clear flags is never
    found running with a flag set. *)
Lemma RunVM_running_fault_flags fuel vm vm' :
  RunVM fuel vm = Running vm' -> fault_flags vm' = fault_flags vm.
Proof.
  revert vm. induction fuel as [ | fuel IH]; intros vm; simpl.
  - intros [= <-]. reflexivity.
  - destruct (RunVM_iteration vm) as [[] vm1 | vm1] eqn:Hturn;
      try discriminate.
    intros Hrun. rewrite (IH _ Hrun).
    apply RunVM_iteration_continue_fault_flags. exact Hturn.
Qed.

End FaultFlags.

(** ** Push followed by pop *)

Section PushPop.

Implicit Types (vm : TOYVM).

Lemma ReadWord_same_tape vm1 vm2 a :
  memory vm1 = memory vm2 -> ReadWord vm1 a = ReadWord vm2 a.
Proof. intros H. unfold ReadWord, ReadByte. rewrite H. reflexivity. Qed.

(** What a [PUSH] that continues has done. *)
Lemma ExecutePush_continue vm vm1 :
  ExecutePush vm = Ok false vm1 ->
  exists r value vmw len,
    ReadByte vm (program_counter (cpu vm) + 1) = Some r
    /\ read_register vm r = Some value
    /\ WriteWord vm (to_int32 (stack_pointer (cpu vm) - 4)) value = Some vmw
    /\ vm1 = set_program_counter
               (to_int32 (to_size_t (to_size_t (program_counter (cpu vm)) + len)))
               (set_stack_pointer (to_int32 (stack_pointer (cpu vm) - 4)) vmw).
Proof.
  unfold ExecutePush, GetProgramCounter.
  destruct (InstructionFitsInMemory vm PUSH) as [[] | ]; cbn [negb defined];
    try discriminate.
  destruct (StackIsFull vm); try discriminate.
  destruct (ReadByte vm (program_counter (cpu vm) + 1)) as [r | ] eqn:Hr;
    cbn [defined]; try discriminate.
  destruct (negb (IsValidRegisterIndex r)); try discriminate.
  destruct (read_register vm r) as [value | ] eqn:Hvalue; cbn [defined];
    try discriminate.
  destruct (WriteWord vm _ value) as [vmw | ] eqn:Hwrite; cbn [defined];
    try discriminate.
  unfold advance.
  destruct (GetInstructionLength _ PUSH) as [len | ]; cbn [defined];
    try discriminate.
  intros [= <-]. exists r, value, vmw, len.
  pose proof (WriteWord_frame _ _ _ _ Hwrite) as (Hcpu & _).
  simpl. rewrite Hcpu.
  repeat split; first [ assumption | reflexivity ].
Qed.

(** What a [POP] that continues has done. *)
Lemma ExecutePop_continue vm vm2 :
  ExecutePop vm = Ok false vm2 ->
  exists r datum,
    ReadByte vm (program_counter (cpu vm) + 1) = Some r
    /\ ReadWord vm (to_int32 (stack_pointer (cpu vm) + 4)) = Some datum
    /\ read_register vm2 r = Some datum
    /\ stack_pointer (cpu vm2) = to_int32 (stack_pointer (cpu vm) + 4).
Proof.
  unfold ExecutePop, GetProgramCounter.
  destruct (InstructionFitsInMemory vm POP) as [[] | ]; cbn [negb defined];
    try discriminate.
  destruct (StackIsEmpty vm); try discriminate.
  destruct (ReadByte vm (program_counter (cpu vm) + 1)) as [r | ] eqn:Hr;
    cbn [defined]; try discriminate.
  destruct (negb (IsValidRegisterIndex r)); try discriminate.
  destruct (ReadWord vm _) as [datum | ] eqn:Hdatum; cbn [defined];
    try discriminate.
  unfold write_register.
  destruct ((0 <=? r) && (r <? N_REGISTERS)) eqn:Hrange; cbn [andb];
    [ | discriminate ].
  destruct (Z.ltb_spec r (Z.of_nat (length (registers (cpu vm)))));
    cbn [defined]; [ | discriminate ].
  unfold advance.
  destruct (GetInstructionLength _ POP) as [len | ]; cbn [defined];
    try discriminate.
  intros [= <-]. exists r, datum.
  split; [ first [ assumption | reflexivity ] | ].
  split; [ first [ assumption | reflexivity ] | ].
  split; [ | reflexivity ].
  unfold read_register. rewrite Hrange. simpl.
  apply list_lookup_insert_eq.
  apply andb_true_iff in Hrange as [Hlo _]. apply Z.leb_le in Hlo. lia.
Qed.

(** On a well-formed machine, a [PUSH] followed at once by a [POP], both
    continuing, restores the stack pointer, and the register named by the
    [POP] receives the word that was on top of the stack before the [PUSH]:
    [ExecutePop] reads at [stack_pointer + 4], one word above the word just
    pushed. *)
Lemma push_then_pop_reads_old_top vm vm1 vm2 :
  wf_vm vm ->
  ExecutePush vm = Ok false vm1 ->
  ExecutePop vm1 = Ok false vm2 ->
  exists r' old_top,
    ReadByte vm1 (program_counter (cpu vm1) + 1) = Some r'
    /\ ReadWord vm (stack_pointer (cpu vm)) = Some old_top
    /\ read_register vm2 r' = Some old_top
    /\ stack_pointer (cpu vm2) = stack_pointer (cpu vm).
Proof.
  intros Hwf Hpush Hpop.
  destruct Hwf as [Hlen Hms _ _ _ Hsp _ _ _].
  apply ExecutePush_continue in Hpush
    as (r & value & vmw & len & _ & _ & Hwrite & ->).
  apply ExecutePop_continue in Hpop as (r' & datum & Hr' & Hdatum & Hreg & Hsp2).
  simpl in Hdatum, Hsp2.
  pose proof (WriteWord_inv _ _ _ _ Hwrite) as (Hlo & Hhi & _).
  assert (to_int32 (stack_pointer (cpu vm) - 4) = stack_pointer (cpu vm) - 4)
    as Hdown.
  { revert Hlo Hhi. unfold to_int32, in_int32, int32_min, int32_max in *.
    intros. Z.div_mod_to_equations. lia. }
  rewrite Hdown in *.
  replace (stack_pointer (cpu vm) - 4 + 4) with (stack_pointer (cpu vm))
    in * by lia.
  rewrite (to_int32_id _ Hsp) in *.
  exists r', datum. split; [ exact Hr' | ]. split; [ | split; assumption ].
  rewrite <- Hdatum.
  rewrite <- (ReadWord_WriteWord_other _ _ _ _ (stack_pointer (cpu vm)) Hwrite)
    by lia.
  apply ReadWord_same_tape. reflexivity.
Qed.

(** C1 at its failing input.  [push_pop_program] reaches [PUSH REG2] with 9
    in [REG2]; the [PUSH] and the [POP REG3] that follows both continue, the
    stack pointer comes back to 36, and [REG3] holds 7, the word pushed
    earlier, not the 9 just pushed.  The shortest pair, a [PUSH] on the empty
    stack followed by a [POP], reads past the end of the tape. *)
Theorem push_pop_returns_word_below :
  RunVM 3 (load_file push_pop_program) = Running before_second_push
  /\ read_register before_second_push REG2 = Some 9
  /\ (exists after_push after_pop,
        ExecutePush before_second_push = Ok false after_push
        /\ ExecutePop after_push = Ok false after_pop
        /\ read_register after_pop REG3 = Some 7
        /\ stack_pointer (cpu after_pop)
           = stack_pointer (cpu before_second_push))
  /\ (exists after_push,
        RunVM 1 (load_file first_push_pop_program) = Running after_push
        /\ RunVM_iteration after_push = Undef after_push).
Proof.
  split; [ reflexivity | ]. split; [ reflexivity | ]. split.
  - eexists. eexists. split; [ reflexivity | ]. split; [ reflexivity | ].
    split; reflexivity.
  - eexists. split; reflexivity.
Qed.

End PushPop.

(** ** Popping from an empty stack *)

Section EmptyStack.

Implicit Types (vm : TOYVM).

(** [ExecutePop] on an empty stack returns the halt signal and nothing else:
    no flag is set. *)
Lemma ExecutePop_empty_stack vm :
  InstructionFitsInMemory vm POP = Some true ->
  StackIsEmpty vm = true ->
  ExecutePop vm = Ok true vm.
Proof.
  intros Hfit Hempty. unfold ExecutePop. rewrite Hfit, Hempty. reflexivity.
Qed.

(** The other three rules that take words off the stack set
    [STACK_UNDERFLOW]. *)
Lemma ExecuteRet_empty_stack vm :
  InstructionFitsInMemory vm RET = Some true ->
  StackIsEmpty vm = true ->
  ExecuteRet vm = Ok true (raise_STACK_UNDERFLOW vm).
Proof.
  intros Hfit Hempty. unfold ExecuteRet. rewrite Hfit, Hempty. reflexivity.
Qed.

Lemma ExecuteInterrupt_empty_stack vm n :
  InstructionFitsInMemory vm INT = Some true ->
  ReadByte vm (program_counter (cpu vm) + 1) = Some n ->
  StackIsEmpty vm = true ->
  ExecuteInterrupt vm = Ok true (raise_STACK_UNDERFLOW vm).
Proof.
  intros Hfit Hn Hempty. unfold ExecuteInterrupt, GetProgramCounter.
  rewrite Hfit, Hn, Hempty. reflexivity.
Qed.

Lemma ExecutePopAll_short_stack vm :
  InstructionFitsInMemory vm POP_ALL = Some true ->
  CanPerformMultipop vm = false ->
  ExecutePopAll vm = Ok true (raise_STACK_UNDERFLOW vm).
Proof.
  intros Hfit Hshort. unfold ExecutePopAll. rewrite Hfit, Hshort. reflexivity.
Qed.

(** C4 at its failing input.  The program [POP REG1] starts on an empty
    stack; the loop returns at once, leaving the machine as it was loaded,
    with [STACK_UNDERFLOW] and every other fault flag clear.  [RET] and
    [POP_ALL] in its place set the flag. *)
Theorem pop_on_empty_stack_sets_no_flag :
  StackIsEmpty pop_on_empty_stack = true
  /\ RunVM 1 pop_on_empty_stack = Returned pop_on_empty_stack
  /\ STACK_UNDERFLOW (flags pop_on_empty_stack) = false
  /\ fault_flag_set pop_on_empty_stack = false
  /\ RunVM 1 ret_on_empty_stack
     = Returned (raise_STACK_UNDERFLOW ret_on_empty_stack)
  /\ RunVM 1 pop_all_on_empty_stack
     = Returned (raise_STACK_UNDERFLOW pop_all_on_empty_stack).
Proof. repeat split. Qed.

End EmptyStack.

(** ** A fault flag that does not stop the loop *)

Section FlagWithoutHalt.

(** C5 at its failing input.  The program [RLOAD REG1, 7; HALT] is fetched
    with every flag clear; the rule sets [INVALID_REGISTER_INDEX] and, instead
    of returning the halt signal, goes on to index the register array with
    the operand 7.  [RSTORE] with the same operand returns the halt signal. *)
Theorem rload_sets_flag_without_halting :
  fault_flag_set rload_bad_register = false
  /\ RunVM_iteration rload_bad_register
     = Undef (raise_INVALID_REGISTER_INDEX rload_bad_register)
  /\ INVALID_REGISTER_INDEX
       (flags (raise_INVALID_REGISTER_INDEX rload_bad_register)) = true
  /\ (forall vm', RunVM_iteration rload_bad_register <> Ok true vm')
  /\ RunVM_iteration rstore_bad_register
     = Ok true (raise_BAD_ACCESS rstore_bad_register).
Proof.
  split; [ reflexivity | ]. split; [ reflexivity | ].
  split; [ reflexivity | ]. split; [ | reflexivity ].
  intros vm' H. vm_compute in H. discriminate H.
Qed.

End FlagWithoutHalt.

(** ** Invariants of a run *)

Section RunInvariants.

Implicit Types (vm : TOYVM).

Lemma RunVM_iteration_wf vm halt vm' :
  wf_vm vm -> RunVM_iteration vm = Ok halt vm' -> wf_vm vm'.
Proof.
  intros Hwf. unfold RunVM_iteration.
  destruct ((GetProgramCounter vm <? 0)
            || (memory_size vm <=? GetProgramCounter vm)).
  { intros [= <- <-]. apply wf_raise_BAD_ACCESS. exact Hwf. }
  destruct (ReadByte vm (GetProgramCounter vm)) as [op | ]; cbn [defined];
    [ | discriminate ].
  destruct (opcode_map vm !! Z.to_nat op) as [index | ]; cbn [defined];
    [ | discriminate ].
  destruct (index =? 0).
  { intros [= <- <-]. apply wf_raise_BAD_INSTRUCTION. exact Hwf. }
  destruct (instructions !! Z.to_nat index) as [entry | ] eqn:Hentry;
    cbn [defined]; [ | discriminate ].
  destruct (execute entry) as [f | ] eqn:Hexec; cbn [defined];
    [ | discriminate ].
  apply (rule_wf_vm entry f vm halt vm'); [ | exact Hexec | exact Hwf ].
  split; [ | eexists; exact Hexec ].
  apply list_elem_of_lookup. eexists. exact Hentry.
Qed.

(** However a defined run stands after [fuel] turns, returned or still
    running, its machine is well formed. *)
Lemma RunVM_wf fuel vm vm' :
  wf_vm vm ->
  RunVM fuel vm = Returned vm' \/ RunVM fuel vm = Running vm' ->
  wf_vm vm'.
Proof.
  revert vm. induction fuel as [ | fuel IH]; intros vm Hwf; simpl.
  - intros [H | H]; [ discriminate | ]. injection H as <-. exact Hwf.
  - destruct (RunVM_iteration vm) as [[] vm1 | vm1] eqn:Hturn.
    + intros [H | H]; [ | discriminate ]. injection H as <-.
      apply (RunVM_iteration_wf _ _ _ Hwf Hturn).
    + apply IH. apply (RunVM_iteration_wf _ _ _ Hwf Hturn).
    + intros [H | H]; discriminate.
Qed.

(** The machine that main.c builds for a program file of bytes is well
    formed, its stack is empty and its flags are clear. *)
Lemma load_file_wf file :
  Forall (fun b => 0 <= b < 2 ^ 8) file ->
  2 * Z.of_nat (length file) < 2 ^ 31 - 4 ->
  wf_vm (load_file file)
  /\ fault_flags (load_file file) = [false; false; false; false; false]
  /\ StackIsEmpty (load_file file) = true.
Proof.
  intros Hbytes Hsize. unfold load_file.
  set (n := Z.of_nat (length file)) in *.
  assert (to_int32 (to_size_t (2 * n)) = 2 * n) as ->.
  { rewrite to_size_t_small by lia. apply to_int32_id.
    unfold in_int32, int32_min, int32_max. lia. }
  assert (to_int32 n = n) as ->.
  { apply to_int32_id. unfold in_int32, int32_min, int32_max. lia. }
  destruct (InitializeVM_wf (2 * n) n) as (Hwf & Htape & Hsp & _ & _);
    [ lia | lia | ].
  destruct (align_up_next_multiple (2 * n)) as (_ & Hlt & _); [ lia | ].
  destruct Hwf as [Hlen Hms Hregs Hmap Hpc Hspr Hlimit Hcells Hvalues].
  split; [ | split ].
  - split; simpl; try assumption.
    + rewrite length_app, length_drop. simpl in Hlen, Hlt.
      unfold n in *. lia.
    + apply Forall_app. split; [ exact Hbytes | ].
      apply Forall_drop. exact Hcells.
  - reflexivity.
  - unfold StackIsEmpty. simpl. apply Z.leb_le. lia.
Qed.

Lemma fault_flags_clear vm :
  fault_flags vm = [false; false; false; false; false] ->
  fault_flag_set vm = false.
Proof.
  unfold fault_flags, fault_flag_set. intros [= -> -> -> -> ->]. reflexivity.
Qed.

(** Along a defined run of a loaded program, every state in which the loop
    is still running is well formed and has all five fault flags clear. *)
Lemma loaded_program_running_state file fuel vm' :
  Forall (fun b => 0 <= b < 2 ^ 8) file ->
  2 * Z.of_nat (length file) < 2 ^ 31 - 4 ->
  RunVM fuel (load_file file) = Running vm' ->
  wf_vm vm' /\ fault_flag_set vm' = false.
Proof.
  intros Hbytes Hsize Hrun.
  destruct (load_file_wf file Hbytes Hsize) as (Hwf & Hflags & _).
  split.
  - apply (RunVM_wf fuel _ _ Hwf). right. exact Hrun.
  - apply fault_flags_clear.
    rewrite (RunVM_running_fault_flags _ _ _ Hrun). exact Hflags.
Qed.

End RunInvariants.

(** ** Little-endian words: layout and round trips *)

Section WordLayout.

Implicit Types (vm : TOYVM).

(** The value of four bytes read as a little-endian word. *)
Lemma byte_of_little_endian b0 b1 b2 b3 :
  0 <= b0 < 2 ^ 8 -> 0 <= b1 < 2 ^ 8 -> 0 <= b2 < 2 ^ 8 -> 0 <= b3 < 2 ^ 8 ->
  let w := to_int32 (b0 + 2 ^ 8 * b1 + 2 ^ 16 * b2 + 2 ^ 24 * b3) in
  to_uint8 (Z.shiftr w 0) = b0 /\ to_uint8 (Z.shiftr w 8) = b1
  /\ to_uint8 (Z.shiftr w 16) = b2 /\ to_uint8 (Z.shiftr w 24) = b3.
Proof.
  intros H0 H1 H2 H3. cbv zeta. unfold to_uint8, to_int32.
  rewrite !Z.shiftr_div_pow2 by lia.
  change (2 ^ 0) with 1. change (2 ^ 8) with 256 in *.
  change (2 ^ 16) with 65536. change (2 ^ 24) with 16777216.
  change (2 ^ 31) with 2147483648. change (2 ^ 32) with 4294967296.
  repeat split; Z.div_mod_to_equations; lia.
Qed.

Lemma little_endian_compose b0 b1 b2 b3 :
  0 <= b0 < 2 ^ 8 -> 0 <= b1 < 2 ^ 8 -> 0 <= b2 < 2 ^ 8 -> 0 <= b3 < 2 ^ 8 ->
  to_int32 (Z.lor (Z.lor (Z.lor (Z.shiftl b3 24) (Z.shiftl b2 16))
                         (Z.shiftl b1 8)) b0)
  = to_int32 (b0 + 2 ^ 8 * b1 + 2 ^ 16 * b2 + 2 ^ 24 * b3).
Proof.
  intros H0 H1 H2 H3.
  destruct (byte_of_little_endian b0 b1 b2 b3 H0 H1 H2 H3)
    as (E0 & E1 & E2 & E3).
  pose proof (word_bytes_roundtrip
                (to_int32 (b0 + 2 ^ 8 * b1 + 2 ^ 16 * b2 + 2 ^ 24 * b3))
                (to_int32_range _)) as Hrt.
  rewrite E0, E1, E2, E3 in Hrt. exact Hrt.
Qed.

Lemma ReadWord_little_endian_value vm address b0 b1 b2 b3 :
  ReadByte vm address = Some b0 ->
  ReadByte vm (address + 1) = Some b1 ->
  ReadByte vm (address + 2) = Some b2 ->
  ReadByte vm (address + 3) = Some b3 ->
  0 <= b0 < 2 ^ 8 -> 0 <= b1 < 2 ^ 8 -> 0 <= b2 < 2 ^ 8 -> 0 <= b3 < 2 ^ 8 ->
  ReadWord vm address
  = Some (if b0 + 2 ^ 8 * b1 + 2 ^ 16 * b2 + 2 ^ 24 * b3 <? 2 ^ 31
          then b0 + 2 ^ 8 * b1 + 2 ^ 16 * b2 + 2 ^ 24 * b3
          else b0 + 2 ^ 8 * b1 + 2 ^ 16 * b2 + 2 ^ 24 * b3 - 2 ^ 32).
Proof.
  intros R0 R1 R2 R3 H0 H1 H2 H3.
  unfold ReadWord. rewrite R0, R1, R2, R3. simpl. f_equal.
  rewrite little_endian_compose by assumption.
  unfold to_int32.
  change (2 ^ 8) with 256 in *.
  change (2 ^ 16) with 65536. change (2 ^ 24) with 16777216.
  change (2 ^ 31) with 2147483648. change (2 ^ 32) with 4294967296.
  destruct (Z.ltb_spec (b0 + 256 * b1 + 65536 * b2 + 16777216 * b3)
              2147483648); Z.div_mod_to_equations; lia.
Qed.

(** [ReadWord] decodes little-endian: the byte at [address] carries bits
    0..7, the next bits 8..15, and so on; the 32-bit pattern is read as a
    signed integer.  No alignment is asked of [address]. *)
Theorem ReadWord_little_endian vm address b0 b1 b2 b3 :
  ReadByte vm address = Some b0 ->
  ReadByte vm (address + 1) = Some b1 ->
  ReadByte vm (address + 2) = Some b2 ->
  ReadByte vm (address + 3) = Some b3 ->
  0 <= b0 < 2 ^ 8 -> 0 <= b1 < 2 ^ 8 -> 0 <= b2 < 2 ^ 8 -> 0 <= b3 < 2 ^ 8 ->
  let unsigned := b0 + 2 ^ 8 * b1 + 2 ^ 16 * b2 + 2 ^ 24 * b3 in
  ReadWord vm address
  = Some (if unsigned <? 2 ^ 31 then unsigned else unsigned - 2 ^ 32).
Proof.
  intros R0 R1 R2 R3 H0 H1 H2 H3. cbv zeta.
  apply ReadWord_little_endian_value; assumption.
Qed.

(** The bytes 0x78 0x56 0x34 0x12 at the odd address 5 read as
    0x12345678. *)
Lemma ReadWord_little_endian_witness :
  ReadWord unaligned_word_machine 5 = Some 0x12345678.
Proof.
  apply (ReadWord_little_endian unaligned_word_machine 5 0x78 0x56 0x34 0x12);
    try reflexivity; lia.
Defined.

(** [WriteWord] stores the two's complement pattern of the value low byte
    first: the cell at [address + k] receives bits [8k .. 8k+7]. *)
Theorem WriteWord_little_endian vm address value vm' :
  WriteWord vm address value = Some vm' ->
  ReadByte vm' address = Some (value mod 2 ^ 8)
  /\ ReadByte vm' (address + 1) = Some (value / 2 ^ 8 mod 2 ^ 8)
  /\ ReadByte vm' (address + 2) = Some (value / 2 ^ 16 mod 2 ^ 8)
  /\ ReadByte vm' (address + 3) = Some (value / 2 ^ 24 mod 2 ^ 8).
Proof.
  intros Hwrite.
  pose proof (WriteWord_inv _ _ _ _ Hwrite) as (Ha & _ & _).
  pose proof (WriteWord_cells _ _ _ _ Hwrite) as (H0 & H1 & H2 & H3).
  unfold to_uint8 in *. rewrite !Z.shiftr_div_pow2 in * by lia.
  change (2 ^ 0) with 1 in H0. rewrite Z.div_1_r in H0.
  unfold ReadByte.
  destruct (Z.leb_spec 0 address); [ | lia ].
  destruct (Z.leb_spec 0 (address + 1)); [ | lia ].
  destruct (Z.leb_spec 0 (address + 2)); [ | lia ].
  destruct (Z.leb_spec 0 (address + 3)); [ | lia ].
  replace (Z.to_nat (address + 1)) with (S (Z.to_nat address)) by lia.
  replace (Z.to_nat (address + 2)) with (S (S (Z.to_nat address))) by lia.
  replace (Z.to_nat (address + 3)) with (S (S (S (Z.to_nat address)))) by lia.
  repeat split; assumption.
Qed.

(** Writing -2 at address 5 of a fresh 12-byte tape stores 0xfe 0xff 0xff
    0xff. *)
Lemma WriteWord_little_endian_witness :
  exists vm',
    WriteWord small_machine 5 (-2) = Some vm'
    /\ ReadByte vm' 5 = Some 0xfe /\ ReadByte vm' 6 = Some 0xff
    /\ ReadByte vm' 7 = Some 0xff /\ ReadByte vm' 8 = Some 0xff.
Proof.
  destruct (WriteWord_defined small_machine 5 (-2)) as [vm' Hwrite];
    [ lia | vm_compute; discriminate | ].
  exists vm'. split; [ exact Hwrite | ].
  exact (WriteWord_little_endian small_machine 5 (-2) vm' Hwrite).
Defined.

(** A word written anywhere inside the tape, aligned or not, is read back
    unchanged, and the write touches nothing but its four cells: every byte
    and every word outside them, the CPU and the length of the tape stay as
    they were. *)
Theorem WriteWord_then_ReadWord vm address value :
  0 <= address ->
  address + 4 <= Z.of_nat (length (memory vm)) ->
  in_int32 value ->
  exists vm',
    WriteWord vm address value = Some vm'
    /\ ReadWord vm' address = Some value
    /\ (forall b, b < address \/ address + 4 <= b ->
        ReadByte vm' b = ReadByte vm b)
    /\ (forall a, a + 4 <= address \/ address + 4 <= a ->
        ReadWord vm' a = ReadWord vm a)
    /\ cpu vm' = cpu vm
    /\ length (memory vm') = length (memory vm).
Proof.
  intros Ha Hfit Hvalue.
  destruct (WriteWord_defined vm address value Ha Hfit) as [vm' Hwrite].
  exists vm'. split; [ exact Hwrite | ].
  split; [ exact (ReadWord_WriteWord_same _ _ _ _ Hwrite Hvalue) | ].
  split; [ intros b Hb; exact (ReadByte_WriteWord_other _ _ _ _ _ Hwrite Hb) | ].
  split; [ intros a Ha';
           exact (ReadWord_WriteWord_other _ _ _ _ _ Hwrite Ha') | ].
  pose proof (WriteWord_frame _ _ _ _ Hwrite) as (Hcpu & _ & _ & _ & _ & Hlen).
  split; assumption.
Qed.

Lemma WriteWord_then_ReadWord_witness :
  exists vm',
    WriteWord unaligned_word_machine 1 (-123456789) = Some vm'
    /\ ReadWord vm' 1 = Some (-123456789)
    /\ ReadWord vm' 5 = Some 0x12345678.
Proof.
  destruct (WriteWord_then_ReadWord unaligned_word_machine 1 (-123456789))
    as (vm' & Hwrite & Hread & _ & Hother & _).
  - lia.
  - vm_compute; discriminate.
  - split; vm_compute; discriminate.
  - exists vm'. split; [ exact Hwrite | ]. split; [ exact Hread | ].
    rewrite (Hother 5) by lia. reflexivity.
Defined.

(** Conversely, writing back the word just read from a tape of bytes leaves
    the machine exactly as it was. *)
Theorem ReadWord_then_WriteWord vm address word :
  Forall (fun b => 0 <= b < 2 ^ 8) (memory vm) ->
  ReadWord vm address = Some word ->
  WriteWord vm address word = Some vm.
Proof.
  intros Hbytes. unfold ReadWord, ReadByte.
  destruct (Z.leb_spec 0 address) as [Ha | ]; [ | discriminate ].
  destruct (Z.leb_spec 0 (address + 1)); [ | lia ].
  destruct (Z.leb_spec 0 (address + 2)); [ | lia ].
  destruct (Z.leb_spec 0 (address + 3)); [ | lia ].
  replace (Z.to_nat (address + 1)) with (S (Z.to_nat address)) by lia.
  replace (Z.to_nat (address + 2)) with (S (S (Z.to_nat address))) by lia.
  replace (Z.to_nat (address + 3)) with (S (S (S (Z.to_nat address)))) by lia.
  destruct (memory vm !! Z.to_nat address) as [b0 | ] eqn:L0;
    [ | discriminate ].
  destruct (memory vm !! S (Z.to_nat address)) as [b1 | ] eqn:L1;
    [ | discriminate ].
  destruct (memory vm !! S (S (Z.to_nat address))) as [b2 | ] eqn:L2;
    [ | discriminate ].
  destruct (memory vm !! S (S (S (Z.to_nat address)))) as [b3 | ] eqn:L3;
    [ | discriminate ].
  simpl. intros [= <-].
  pose proof (Forall_lookup_1 _ _ _ _ Hbytes L0) as B0.
  pose proof (Forall_lookup_1 _ _ _ _ Hbytes L1) as B1.
  pose proof (Forall_lookup_1 _ _ _ _ Hbytes L2) as B2.
  pose proof (Forall_lookup_1 _ _ _ _ Hbytes L3) as B3.
  simpl in B0, B1, B2, B3.
  rewrite little_endian_compose by assumption.
  destruct (byte_of_little_endian b0 b1 b2 b3 B0 B1 B2 B3)
    as (E0 & E1 & E2 & E3).
  pose proof (lookup_lt_Some _ _ _ L3) as Hlen.
  destruct (WriteWord_defined vm address
              (to_int32 (b0 + 2 ^ 8 * b1 + 2 ^ 16 * b2 + 2 ^ 24 * b3)))
    as [vm' Hwrite]; [ lia | lia | ].
  rewrite Hwrite. f_equal.
  apply WriteWord_inv in Hwrite as (_ & _ & ->).
  rewrite E0, E1, E2, E3.
  rewrite (list_insert_id _ _ _ L0), (list_insert_id _ _ _ L1),
    (list_insert_id _ _ _ L2), (list_insert_id _ _ _ L3).
  destruct vm. reflexivity.
Qed.

Lemma ReadWord_then_WriteWord_witness :
  ReadWord unaligned_word_machine 5 = Some 0x12345678
  /\ WriteWord unaligned_word_machine 5 0x12345678
     = Some unaligned_word_machine.
Proof.
  split; [ reflexivity | ].
  apply (ReadWord_then_WriteWord unaligned_word_machine 5 0x12345678).
  - compute_done.
  - reflexivity.
Defined.

End WordLayout.

(** ** Arithmetic instructions *)

Section Arithmetic.

Implicit Types (vm : TOYVM).

(** The common ending of the register-writing rules. *)
Lemma write_then_advance vm ins index value :
  registered ins ->
  opcode_map vm = initial_opcode_map ->
  length (registers (cpu vm)) = Z.to_nat N_REGISTERS ->
  IsValidRegisterIndex index = true ->
  0 <= program_counter (cpu vm) ->
  program_counter (cpu vm) + size ins <= int32_max ->
  defined vm (write_register vm index value)
    (fun vm1 => advance (opcode ins) vm1)
  = Ok false
      (set_program_counter (program_counter (cpu vm) + size ins)
         (set_registers (<[Z.to_nat index := value]> (registers (cpu vm))) vm)).
Proof.
  intros Hreg Hmap Hregs Hvalid Hpc Hmax.
  rewrite write_register_valid by assumption. cbn [defined].
  exact (advance_registered
           (set_registers (<[Z.to_nat index := value]> (registers (cpu vm))) vm)
           ins Hreg Hmap Hpc Hmax).
Qed.

Lemma registered_ADD : registered (mk_instruction ADD 3 (Some ExecuteAdd)).
Proof. split; [ repeat constructor | eexists; reflexivity ]. Qed.

Lemma registered_MUL : registered (mk_instruction MUL 3 (Some ExecuteMul)).
Proof. split; [ repeat constructor | eexists; reflexivity ]. Qed.

Lemma registered_DIV : registered (mk_instruction DIV 3 (Some ExecuteDiv)).
Proof. split; [ repeat constructor | eexists; reflexivity ]. Qed.

Lemma registered_NEG : registered (mk_instruction NEG 2 (Some ExecuteNeg)).
Proof. split; [ repeat constructor | eexists; reflexivity ]. Qed.

(** Brings a two-operand rule to the point where its operands are read. *)
Ltac two_operands Hfit Hs Ht Hvs Hvt :=
  unfold GetProgramCounter; rewrite Hfit; cbn [negb defined];
  rewrite Hs, Ht; cbn [defined]; rewrite Hvs, Hvt; cbn [negb orb].

(** [ADD source, target] adds the source register to the target register,
    when the sum is an [int32_t], and steps over its three bytes; the source
    (when it is another register), the other registers, the tape, the stack
    pointer and the flags are as before. *)
Theorem ExecuteAdd_adds_source_to_target vm s t a b :
  wf_vm vm ->
  0 <= program_counter (cpu vm) ->
  program_counter (cpu vm) + 3 <= memory_size vm ->
  ReadByte vm (program_counter (cpu vm) + 1) = Some s ->
  ReadByte vm (program_counter (cpu vm) + 2) = Some t ->
  IsValidRegisterIndex s = true ->
  IsValidRegisterIndex t = true ->
  read_register vm s = Some a ->
  read_register vm t = Some b ->
  in_int32 (b + a) ->
  ExecuteAdd vm
  = Ok false
      (set_program_counter (program_counter (cpu vm) + 3)
         (set_registers
            (<[Z.to_nat t := b + a]> (registers (cpu vm))) vm)).
Proof.
  intros Hwf Hpc Hin Hs Ht Hvs Hvt Ha Hb Hsum.
  destruct Hwf as [Hlen Hms Hregs Hmap _ _ _ _ _].
  pose proof (InstructionFitsInMemory_true vm _ registered_ADD Hmap Hpc Hms Hin)
    as Hfit. cbn [opcode] in Hfit.
  unfold ExecuteAdd. two_operands Hfit Hs Ht Hvs Hvt.
  rewrite Hb, Ha. cbn [defined]. rewrite (to_int32_id _ Hsum).
  apply (write_then_advance vm _ t _ registered_ADD); simpl; try assumption;
    lia.
Qed.

(** [ADD REG1, REG2] with 5 in [REG1] and -7 in [REG2] leaves -2 in
    [REG2]. *)
Lemma ExecuteAdd_adds_source_to_target_witness :
  ExecuteAdd (with_registers [5; -7; 0; 0] [ADD; REG1; REG2; HALT])
  = Ok false
      (set_program_counter 3
         (with_registers [5; -2; 0; 0] [ADD; REG1; REG2; HALT])).
Proof.
  apply (ExecuteAdd_adds_source_to_target
           (with_registers [5; -7; 0; 0] [ADD; REG1; REG2; HALT])
           REG1 REG2 5 (-7)).
  - wf_by_computation.
  - vm_compute; discriminate.
  - vm_compute; discriminate.
  - reflexivity.
  - reflexivity.
  - reflexivity.
  - reflexivity.
  - reflexivity.
  - reflexivity.
  - vm_compute. split; discriminate.
Defined.

(** [MUL source, target] multiplies the target register by the source
    register, when the product is an [int32_t], and steps over its three
    bytes; nothing else changes. *)
Theorem ExecuteMul_multiplies_target_by_source vm s t a b :
  wf_vm vm ->
  0 <= program_counter (cpu vm) ->
  program_counter (cpu vm) + 3 <= memory_size vm ->
  ReadByte vm (program_counter (cpu vm) + 1) = Some s ->
  ReadByte vm (program_counter (cpu vm) + 2) = Some t ->
  IsValidRegisterIndex s = true ->
  IsValidRegisterIndex t = true ->
  read_register vm s = Some a ->
  read_register vm t = Some b ->
  in_int32 (b * a) ->
  ExecuteMul vm
  = Ok false
      (set_program_counter (program_counter (cpu vm) + 3)
         (set_registers
            (<[Z.to_nat t := b * a]> (registers (cpu vm))) vm)).
Proof.
  intros Hwf Hpc Hin Hs Ht Hvs Hvt Ha Hb Hproduct.
  destruct Hwf as [Hlen Hms Hregs Hmap _ _ _ _ _].
  pose proof (InstructionFitsInMemory_true vm _ registered_MUL Hmap Hpc Hms Hin)
    as Hfit. cbn [opcode] in Hfit.
  unfold ExecuteMul. two_operands Hfit Hs Ht Hvs Hvt.
  rewrite Hb, Ha. cbn [defined]. rewrite (to_int32_id _ Hproduct).
  apply (write_then_advance vm _ t _ registered_MUL); simpl; try assumption;
    lia.
Qed.

(** [MUL REG1, REG1] squares: -300 * -300 = 90000. *)
Lemma ExecuteMul_multiplies_target_by_source_witness :
  ExecuteMul (with_registers [-300; 0; 0; 0] [MUL; REG1; REG1; HALT])
  = Ok false
      (set_program_counter 3
         (with_registers [90000; 0; 0; 0] [MUL; REG1; REG1; HALT])).
Proof.
  apply (ExecuteMul_multiplies_target_by_source
           (with_registers [-300; 0; 0; 0] [MUL; REG1; REG1; HALT])
           REG1 REG1 (-300) (-300)).
  - wf_by_computation.
  - vm_compute; discriminate.
  - vm_compute; discriminate.
  - reflexivity.
  - reflexivity.
  - reflexivity.
  - reflexivity.
  - reflexivity.
  - reflexivity.
  - vm_compute. split; discriminate.
Defined.

(** [DIV source, target] divides the target register by the source register,
    rounding toward zero, and steps over its three bytes; nothing else
    changes.  The divisor is the first operand, the reverse of [MOD].  This
    holds when the divisor is not zero and the division is not
    [-2^31 / -1]. *)
Theorem ExecuteDiv_divides_target_by_source vm s t a b :
  wf_vm vm ->
  0 <= program_counter (cpu vm) ->
  program_counter (cpu vm) + 3 <= memory_size vm ->
  ReadByte vm (program_counter (cpu vm) + 1) = Some s ->
  ReadByte vm (program_counter (cpu vm) + 2) = Some t ->
  IsValidRegisterIndex s = true ->
  IsValidRegisterIndex t = true ->
  read_register vm s = Some a ->
  read_register vm t = Some b ->
  a <> 0 ->
  ~ (b = int32_min /\ a = -1) ->
  ExecuteDiv vm
  = Ok false
      (set_program_counter (program_counter (cpu vm) + 3)
         (set_registers
            (<[Z.to_nat t := Z.quot b a]> (registers (cpu vm))) vm)).
Proof.
  intros Hwf Hpc Hin Hs Ht Hvs Hvt Ha Hb Hnz Hovf.
  destruct Hwf as [Hlen Hms Hregs Hmap _ _ _ _ _].
  pose proof (InstructionFitsInMemory_true vm _ registered_DIV Hmap Hpc Hms Hin)
    as Hfit. cbn [opcode] in Hfit.
  unfold ExecuteDiv. two_operands Hfit Hs Ht Hvs Hvt.
  rewrite Hb, Ha. cbn [defined].
  assert (c_div b a = Some (Z.quot b a)) as ->.
  { unfold c_div, div_defined.
    destruct (Z.eqb_spec a 0) as [? | _]; [ contradiction | ].
    destruct (Z.eqb_spec b int32_min) as [Hmin | _],
      (Z.eqb_spec a (-1)) as [Hm1 | _]; try reflexivity.
    exfalso. apply Hovf. split; assumption. }
  cbn [defined].
  apply (write_then_advance vm _ t _ registered_DIV); simpl; try assumption;
    lia.
Qed.

(** [DIV REG1, REG2] with 2 in [REG1] and -7 in [REG2] leaves -3. *)
Lemma ExecuteDiv_divides_target_by_source_witness :
  ExecuteDiv (with_registers [2; -7; 0; 0] [DIV; REG1; REG2; HALT])
  = Ok false
      (set_program_counter 3
         (with_registers [2; -3; 0; 0] [DIV; REG1; REG2; HALT])).
Proof.
  apply (ExecuteDiv_divides_target_by_source
           (with_registers [2; -7; 0; 0] [DIV; REG1; REG2; HALT])
           REG1 REG2 2 (-7)).
  - wf_by_computation.
  - vm_compute; discriminate.
  - vm_compute; discriminate.
  - reflexivity.
  - reflexivity.
  - reflexivity.
  - reflexivity.
  - reflexivity.
  - reflexivity.
  - discriminate.
  - intros [H _]. discriminate H.
Defined.

Lemma ExecuteNeg_step vm r a :
  wf_vm vm ->
  0 <= program_counter (cpu vm) ->
  program_counter (cpu vm) + 2 <= memory_size vm ->
  ReadByte vm (program_counter (cpu vm) + 1) = Some r ->
  IsValidRegisterIndex r = true ->
  read_register vm r = Some a ->
  ExecuteNeg vm
  = Ok false
      (set_program_counter (program_counter (cpu vm) + 2)
         (set_registers
            (<[Z.to_nat r := to_int32 (- a)]> (registers (cpu vm))) vm)).
Proof.
  intros Hwf Hpc Hin Hr Hvr Ha.
  destruct Hwf as [Hlen Hms Hregs Hmap _ _ _ _ _].
  pose proof (InstructionFitsInMemory_true vm _ registered_NEG Hmap Hpc Hms Hin)
    as Hfit. cbn [opcode] in Hfit.
  unfold ExecuteNeg, GetProgramCounter. rewrite Hfit. cbn [negb defined].
  rewrite Hr. cbn [defined]. rewrite Hvr. cbn [negb]. rewrite Ha.
  cbn [defined].
  apply (write_then_advance vm _ r _ registered_NEG); simpl; try assumption;
    lia.
Qed.

Lemma negate_twice a : in_int32 a -> to_int32 (- to_int32 (- a)) = a.
Proof.
  unfold in_int32, int32_min, int32_max, to_int32. intros Ha.
  change (2 ^ 31) with 2147483648 in *. change (2 ^ 32) with 4294967296.
  Z.div_mod_to_equations. lia.
Qed.

(** [NEG r] replaces the register by its negation, for every value but
    -2^31, whose negation is no [int32_t], and steps over its two bytes;
    nothing else changes. *)
Theorem ExecuteNeg_negates vm r a :
  wf_vm vm ->
  0 <= program_counter (cpu vm) ->
  program_counter (cpu vm) + 2 <= memory_size vm ->
  ReadByte vm (program_counter (cpu vm) + 1) = Some r ->
  IsValidRegisterIndex r = true ->
  read_register vm r = Some a ->
  a <> int32_min ->
  ExecuteNeg vm
  = Ok false
      (set_program_counter (program_counter (cpu vm) + 2)
         (set_registers
            (<[Z.to_nat r := - a]> (registers (cpu vm))) vm)).
Proof.
  intros Hwf Hpc Hin Hr Hvr Ha Hne.
  rewrite (ExecuteNeg_step vm r a Hwf Hpc Hin Hr Hvr Ha).
  pose proof (read_register_range _ _ _ Ha Hwf) as Hrange.
  rewrite (to_int32_id (- a)); [ reflexivity | ].
  revert Hrange Hne. unfold in_int32, int32_min, int32_max. lia.
Qed.

(** [NEG REG1] on 5 leaves -5. *)
Lemma ExecuteNeg_negates_witness :
  ExecuteNeg (with_registers [5; 0; 0; 0] [NEG; REG1; HALT])
  = Ok false
      (set_program_counter 2
         (with_registers [-5; 0; 0; 0] [NEG; REG1; HALT])).
Proof.
  apply (ExecuteNeg_negates
           (with_registers [5; 0; 0; 0] [NEG; REG1; HALT])
           REG1 5).
  - wf_by_computation.
  - vm_compute; discriminate.
  - vm_compute; discriminate.
  - reflexivity.
  - reflexivity.
  - reflexivity.
  - discriminate.
Defined.

(** Two [NEG r] in a row, run by the loop on a register that does not hold
    -2^31, give back the machine they started from, four bytes further
    on. *)
Theorem neg_twice_restores_register vm r :
  wf_vm vm ->
  0 <= program_counter (cpu vm) ->
  program_counter (cpu vm) + 4 <= memory_size vm ->
  ReadByte vm (program_counter (cpu vm)) = Some NEG ->
  ReadByte vm (program_counter (cpu vm) + 1) = Some r ->
  ReadByte vm (program_counter (cpu vm) + 2) = Some NEG ->
  ReadByte vm (program_counter (cpu vm) + 3) = Some r ->
  IsValidRegisterIndex r = true ->
  read_register vm r <> Some int32_min ->
  RunVM 2 vm
  = Running (set_program_counter (program_counter (cpu vm) + 4) vm).
Proof.
  intros Hwf Hpc Hin Hop1 Hr1 Hop2 Hr2 Hvr _.
  destruct (read_register_valid vm r (wf_registers vm Hwf) Hvr) as [a Ha].
  pose proof (read_register_range _ _ _ Ha Hwf) as Hrange.
  pose proof (ExecuteNeg_step vm r a Hwf Hpc ltac:(lia) Hr1 Hvr Ha) as Hstep1.
  set (vm1 := set_program_counter (program_counter (cpu vm) + 2)
                (set_registers
                   (<[Z.to_nat r := to_int32 (- a)]> (registers (cpu vm))) vm))
    in *.
  assert (wf_vm vm1) as Hwf1.
  { apply (rule_wf_vm _ _ vm false vm1 registered_NEG eq_refl Hwf Hstep1). }
  assert (ExecuteNeg vm1
          = Ok false (set_program_counter (program_counter (cpu vm) + 4) vm))
    as Hstep2.
  { rewrite (ExecuteNeg_step vm1 r (to_int32 (- a)) Hwf1).
    - f_equal. simpl. rewrite list_insert_insert_eq.
      rewrite negate_twice by exact Hrange.
      unfold read_register in Ha.
      rewrite valid_index_in_array in Ha by exact Hvr.
      rewrite (list_insert_id _ _ _ Ha).
      replace (program_counter (cpu vm) + 2 + 2)
        with (program_counter (cpu vm) + 4) by lia.
      destruct vm as [? ? ? [? ? ? ?] ? ?]. reflexivity.
    - simpl. lia.
    - simpl. lia.
    - simpl. replace (program_counter (cpu vm) + 2 + 1)
        with (program_counter (cpu vm) + 3) by lia. exact Hr2.
    - exact Hvr.
    - apply (read_written_register vm r _ (wf_registers vm Hwf) Hvr). }
  pose proof (wf_opcode_map vm Hwf) as Hmap.
  pose proof (wf_memory_size vm Hwf) as Hms.
  simpl.
  rewrite (RunVM_iteration_registered vm
             (mk_instruction NEG 2 (Some ExecuteNeg)) ExecuteNeg Hmap
             ltac:(lia) Hop1 registered_NEG eq_refl).
  rewrite Hstep1.
  rewrite (RunVM_iteration_registered vm1
             (mk_instruction NEG 2 (Some ExecuteNeg)) ExecuteNeg Hmap
             ltac:(simpl; lia) Hop2 registered_NEG eq_refl).
  rewrite Hstep2. reflexivity.
Qed.

Lemma neg_twice_restores_register_witness :
  RunVM 2 (with_registers [5; 0; 0; 0] [NEG; REG1; NEG; REG1; HALT])
  = Running
      (set_program_counter 4
         (with_registers [5; 0; 0; 0] [NEG; REG1; NEG; REG1; HALT])).
Proof.
  apply (neg_twice_restores_register
           (with_registers [5; 0; 0; 0] [NEG; REG1; NEG; REG1; HALT]) REG1).
  - wf_by_computation.
  - vm_compute; discriminate.
  - vm_compute; discriminate.
  - reflexivity.
  - reflexivity.
  - reflexivity.
  - reflexivity.
  - reflexivity.
  - discriminate.
Defined.

End Arithmetic.

(** ** Comparison and jumps *)

Section Branches.

Implicit Types (vm : TOYVM).

Lemma registered_CMP : registered (mk_instruction CMP 3 (Some ExecuteCmp)).
Proof. split; [ repeat constructor | eexists; reflexivity ]. Qed.

Lemma registered_JA :
  registered (mk_instruction JA 5 (Some ExecuteJumpIfAbove)).
Proof. split; [ repeat constructor | eexists; reflexivity ]. Qed.

Lemma registered_JE :
  registered (mk_instruction JE 5 (Some ExecuteJumpIfEqual)).
Proof. split; [ repeat constructor | eexists; reflexivity ]. Qed.

Lemma registered_JB :
  registered (mk_instruction JB 5 (Some ExecuteJumpIfBelow)).
Proof. split; [ repeat constructor | eexists; reflexivity ]. Qed.

Lemma registered_JMP : registered (mk_instruction JMP 5 (Some ExecuteJump)).
Proof. split; [ repeat constructor | eexists; reflexivity ]. Qed.

Lemma ExecuteCmp_step vm r1 r2 a b :
  wf_vm vm ->
  0 <= program_counter (cpu vm) ->
  program_counter (cpu vm) + 3 <= memory_size vm ->
  ReadByte vm (program_counter (cpu vm) + 1) = Some r1 ->
  ReadByte vm (program_counter (cpu vm) + 2) = Some r2 ->
  IsValidRegisterIndex r1 = true ->
  IsValidRegisterIndex r2 = true ->
  read_register vm r1 = Some a ->
  read_register vm r2 = Some b ->
  ExecuteCmp vm
  = Ok false
      (set_program_counter (program_counter (cpu vm) + 3)
         (set_comparison (a <? b) (a =? b) (b <? a) vm)).
Proof.
  intros Hwf Hpc Hin H1 H2 Hv1 Hv2 Ha Hb.
  destruct Hwf as [Hlen Hms Hregs Hmap _ _ _ _ _].
  pose proof (InstructionFitsInMemory_true vm _ registered_CMP Hmap Hpc Hms Hin)
    as Hfit. cbn [opcode] in Hfit.
  unfold ExecuteCmp, GetProgramCounter. rewrite Hfit. cbn [negb defined].
  rewrite H1, H2. cbn [defined]. rewrite Hv1, Hv2. cbn [negb orb].
  rewrite Ha, Hb. cbn [defined].
  assert ((if a <? b then set_comparison true false false vm
           else if b <? a then set_comparison false false true vm
                else set_comparison false true false vm)
          = set_comparison (a <? b) (a =? b) (b <? a) vm) as ->.
  { destruct (Z.ltb_spec a b), (Z.ltb_spec b a), (Z.eqb_spec a b);
      try reflexivity; lia. }
  apply (advance_registered (set_comparison (a <? b) (a =? b) (b <? a) vm)
           _ registered_CMP); simpl; try assumption; lia.
Qed.

(** [CMP r1, r2] compares the two registers as signed integers and leaves
    exactly one comparison flag set: BELOW when the first is smaller, ABOVE
    when it is larger, EQUAL otherwise.  Flags left by an earlier [CMP] are
    overwritten, the fault flags and everything else but the program counter
    are untouched. *)
Theorem ExecuteCmp_sets_exactly_one_flag vm r1 r2 a b :
  wf_vm vm ->
  0 <= program_counter (cpu vm) ->
  program_counter (cpu vm) + 3 <= memory_size vm ->
  ReadByte vm (program_counter (cpu vm) + 1) = Some r1 ->
  ReadByte vm (program_counter (cpu vm) + 2) = Some r2 ->
  IsValidRegisterIndex r1 = true ->
  IsValidRegisterIndex r2 = true ->
  read_register vm r1 = Some a ->
  read_register vm r2 = Some b ->
  ExecuteCmp vm
  = Ok false
      (set_program_counter (program_counter (cpu vm) + 3)
         (set_comparison (a <? b) (a =? b) (b <? a) vm))
  /\ Z.b2z (a <? b) + Z.b2z (a =? b) + Z.b2z (b <? a) = 1.
Proof.
  intros Hwf Hpc Hin H1 H2 Hv1 Hv2 Ha Hb. split.
  - apply (ExecuteCmp_step vm r1 r2 a b Hwf Hpc Hin H1 H2 Hv1 Hv2 Ha Hb).
  - destruct (Z.ltb_spec a b), (Z.ltb_spec b a), (Z.eqb_spec a b);
      simpl; lia.
Qed.

(** [CMP REG1, REG2] with 3 and 3 sets EQUAL only. *)
Lemma ExecuteCmp_sets_exactly_one_flag_witness :
  ExecuteCmp (cmp_je_machine [3; 3; 0; 0])
  = Ok false
      (set_program_counter 3
         (set_comparison false true false (cmp_je_machine [3; 3; 0; 0])))
  /\ Z.b2z (3 <? 3) + Z.b2z (3 =? 3) + Z.b2z (3 <? 3) = 1.
Proof.
  apply (ExecuteCmp_sets_exactly_one_flag (cmp_je_machine [3; 3; 0; 0])
           REG1 REG2 3 3).
  - wf_by_computation.
  - vm_compute; discriminate.
  - vm_compute; discriminate.
  - reflexivity.
  - reflexivity.
  - reflexivity.
  - reflexivity.
  - reflexivity.
  - reflexivity.
Defined.

(** What each conditional jump does with the flags as they stand. *)
Lemma conditional_jump_step vm op f flag target :
  (op = JA /\ f = ExecuteJumpIfAbove /\ flag = COMPARISON_ABOVE (flags vm))
  \/ (op = JE /\ f = ExecuteJumpIfEqual /\ flag = COMPARISON_EQUAL (flags vm))
  \/ (op = JB /\ f = ExecuteJumpIfBelow /\ flag = COMPARISON_BELOW (flags vm)) ->
  wf_vm vm ->
  0 <= program_counter (cpu vm) ->
  program_counter (cpu vm) + 5 <= memory_size vm ->
  ReadWord vm (program_counter (cpu vm) + 1) = Some target ->
  f vm
  = Ok false
      (set_program_counter
         (if flag then target else program_counter (cpu vm) + 5) vm).
Proof.
  intros Hop Hwf Hpc Hin Htarget.
  destruct Hwf as [Hlen Hms Hregs Hmap _ _ _ _ _].
  destruct Hop as [(-> & -> & ->) | [(-> & -> & ->) | (-> & -> & ->)]].
  - pose proof (InstructionFitsInMemory_true vm _ registered_JA Hmap Hpc Hms
                  Hin) as Hfit. cbn [opcode] in Hfit.
    unfold ExecuteJumpIfAbove, GetProgramCounter. rewrite Hfit.
    cbn [negb defined]. destruct (COMPARISON_ABOVE (flags vm)).
    + rewrite Htarget. reflexivity.
    + apply (advance_registered _ _ registered_JA); simpl; try assumption;
        lia.
  - pose proof (InstructionFitsInMemory_true vm _ registered_JE Hmap Hpc Hms
                  Hin) as Hfit. cbn [opcode] in Hfit.
    unfold ExecuteJumpIfEqual, GetProgramCounter. rewrite Hfit.
    cbn [negb defined]. destruct (COMPARISON_EQUAL (flags vm)).
    + rewrite Htarget. reflexivity.
    + apply (advance_registered _ _ registered_JE); simpl; try assumption;
        lia.
  - pose proof (InstructionFitsInMemory_true vm _ registered_JB Hmap Hpc Hms
                  Hin) as Hfit. cbn [opcode] in Hfit.
    unfold ExecuteJumpIfBelow, GetProgramCounter. rewrite Hfit.
    cbn [negb defined]. destruct (COMPARISON_BELOW (flags vm)).
    + rewrite Htarget. reflexivity.
    + apply (advance_registered _ _ registered_JB); simpl; try assumption;
        lia.
Qed.

(** A [CMP r1, r2] followed by a conditional jump, run by the loop: [JA]
    jumps to its target when the first register is greater than the second,
    [JE] when they are equal, [JB] when the first is smaller; otherwise the
    jump falls through to the instruction after it.  The target is used as it
    is written, with no check. *)
Theorem cmp_then_conditional_jump vm r1 r2 a b op target :
  wf_vm vm ->
  0 <= program_counter (cpu vm) ->
  program_counter (cpu vm) + 8 <= memory_size vm ->
  ReadByte vm (program_counter (cpu vm)) = Some CMP ->
  ReadByte vm (program_counter (cpu vm) + 1) = Some r1 ->
  ReadByte vm (program_counter (cpu vm) + 2) = Some r2 ->
  ReadByte vm (program_counter (cpu vm) + 3) = Some op ->
  ReadWord vm (program_counter (cpu vm) + 4) = Some target ->
  op = JA \/ op = JE \/ op = JB ->
  IsValidRegisterIndex r1 = true ->
  IsValidRegisterIndex r2 = true ->
  read_register vm r1 = Some a ->
  read_register vm r2 = Some b ->
  RunVM 2 vm
  = Running
      (set_program_counter
         (if jump_taken op a b then target else program_counter (cpu vm) + 8)
         (set_comparison (a <? b) (a =? b) (b <? a) vm)).
Proof.
  intros Hwf Hpc Hin Hcmp H1 H2 Hop Htarget Hjump Hv1 Hv2 Ha Hb.
  pose proof (ExecuteCmp_step vm r1 r2 a b Hwf Hpc
                ltac:(lia) H1 H2 Hv1 Hv2 Ha Hb) as Hstep1.
  set (vm1 := set_program_counter (program_counter (cpu vm) + 3)
                (set_comparison (a <? b) (a =? b) (b <? a) vm)) in *.
  assert (wf_vm vm1) as Hwf1.
  { apply (rule_wf_vm _ _ vm false vm1 registered_CMP eq_refl Hwf Hstep1). }
  pose proof (wf_opcode_map vm Hwf) as Hmap.
  assert (ReadWord vm1 (program_counter (cpu vm1) + 1) = Some target)
    as Htarget1.
  { simpl. replace (program_counter (cpu vm) + 3 + 1)
      with (program_counter (cpu vm) + 4) by lia. exact Htarget. }
  simpl.
  rewrite (RunVM_iteration_registered vm
             (mk_instruction CMP 3 (Some ExecuteCmp)) ExecuteCmp Hmap
             ltac:(lia) Hcmp registered_CMP eq_refl).
  rewrite Hstep1.
  destruct Hjump as [-> | [-> | ->]].
  - rewrite (RunVM_iteration_registered vm1
               (mk_instruction JA 5 (Some ExecuteJumpIfAbove))
               ExecuteJumpIfAbove Hmap ltac:(simpl; lia) Hop registered_JA
               eq_refl).
    rewrite (conditional_jump_step vm1 JA ExecuteJumpIfAbove (b <? a) target);
      [ | left; repeat split | exact Hwf1 | simpl; lia | simpl; lia
        | exact Htarget1 ].
    unfold jump_taken. simpl.
    replace (program_counter (cpu vm) + 3 + 5)
      with (program_counter (cpu vm) + 8) by lia. reflexivity.
  - rewrite (RunVM_iteration_registered vm1
               (mk_instruction JE 5 (Some ExecuteJumpIfEqual))
               ExecuteJumpIfEqual Hmap ltac:(simpl; lia) Hop registered_JE
               eq_refl).
    rewrite (conditional_jump_step vm1 JE ExecuteJumpIfEqual (a =? b) target);
      [ | right; left; repeat split | exact Hwf1 | simpl; lia | simpl; lia
        | exact Htarget1 ].
    unfold jump_taken. simpl.
    replace (program_counter (cpu vm) + 3 + 5)
      with (program_counter (cpu vm) + 8) by lia. reflexivity.
  - rewrite (RunVM_iteration_registered vm1
               (mk_instruction JB 5 (Some ExecuteJumpIfBelow))
               ExecuteJumpIfBelow Hmap ltac:(simpl; lia) Hop registered_JB
               eq_refl).
    rewrite (conditional_jump_step vm1 JB ExecuteJumpIfBelow (a <? b) target);
      [ | right; right; repeat split | exact Hwf1 | simpl; lia | simpl; lia
        | exact Htarget1 ].
    unfold jump_taken. simpl.
    replace (program_counter (cpu vm) + 3 + 5)
      with (program_counter (cpu vm) + 8) by lia. reflexivity.
Qed.

(** [CMP REG1, REG2; JE 12] with 3 in both registers jumps to 12; with 3 and
    4 it falls through to 8. *)
Lemma cmp_then_conditional_jump_witness :
  RunVM 2 (cmp_je_machine [3; 3; 0; 0])
  = Running
      (set_program_counter 12
         (set_comparison false true false (cmp_je_machine [3; 3; 0; 0])))
  /\ RunVM 2 (cmp_je_machine [3; 4; 0; 0])
     = Running
         (set_program_counter 8
            (set_comparison true false false (cmp_je_machine [3; 4; 0; 0]))).
Proof.
  split.
  - apply (cmp_then_conditional_jump (cmp_je_machine [3; 3; 0; 0])
             REG1 REG2 3 3 JE 12);
      try reflexivity; try (vm_compute; discriminate);
      [ wf_by_computation | right; left; reflexivity ].
  - apply (cmp_then_conditional_jump (cmp_je_machine [3; 4; 0; 0])
             REG1 REG2 3 4 JE 12);
      try reflexivity; try (vm_compute; discriminate);
      [ wf_by_computation | right; left; reflexivity ].
Defined.

(** [JMP] makes no check of its target: a jump outside the tape is taken, and
    the loop returns at the next fetch with [BAD_ACCESS] set and the program
    counter left at the bad target. *)
Theorem jump_outside_tape_faults_at_next_fetch vm target :
  wf_vm vm ->
  0 <= program_counter (cpu vm) ->
  program_counter (cpu vm) + 5 <= memory_size vm ->
  ReadByte vm (program_counter (cpu vm)) = Some JMP ->
  ReadWord vm (program_counter (cpu vm) + 1) = Some target ->
  target < 0 \/ memory_size vm <= target ->
  ExecuteJump vm = Ok false (set_program_counter target vm)
  /\ RunVM 2 vm = Returned (raise_BAD_ACCESS (set_program_counter target vm)).
Proof.
  intros Hwf Hpc Hin Hop Htarget Hout.
  destruct Hwf as [Hlen Hms Hregs Hmap _ _ _ _ _].
  pose proof (InstructionFitsInMemory_true vm _ registered_JMP Hmap Hpc Hms Hin)
    as Hfit. cbn [opcode] in Hfit.
  assert (ExecuteJump vm = Ok false (set_program_counter target vm)) as Hstep.
  { unfold ExecuteJump, GetProgramCounter. rewrite Hfit. cbn [negb defined].
    rewrite Htarget. reflexivity. }
  split; [ exact Hstep | ].
  simpl.
  rewrite (RunVM_iteration_registered vm
             (mk_instruction JMP 5 (Some ExecuteJump)) ExecuteJump Hmap
             ltac:(lia) Hop registered_JMP eq_refl).
  rewrite Hstep. unfold RunVM_iteration, GetProgramCounter. simpl.
  destruct (Z.ltb_spec target 0), (Z.leb_spec (memory_size vm) target);
    try reflexivity; lia.
Qed.

Lemma jump_outside_tape_faults_at_next_fetch_witness :
  ExecuteJump wild_jump_machine
  = Ok false (set_program_counter 1000 wild_jump_machine)
  /\ RunVM 2 wild_jump_machine
     = Returned (raise_BAD_ACCESS (set_program_counter 1000 wild_jump_machine)).
Proof.
  apply (jump_outside_tape_faults_at_next_fetch wild_jump_machine 1000);
    try reflexivity; try (vm_compute; discriminate).
  - wf_by_computation.
  - right. vm_compute; discriminate.
Defined.

End Branches.

(** ** Data movement *)

Section DataMovement.

Implicit Types (vm : TOYVM).

Lemma registered_CONST :
  registered (mk_instruction CONST 6 (Some ExecuteConst)).
Proof. split; [ repeat constructor | eexists; reflexivity ]. Qed.

Lemma registered_LOAD : registered (mk_instruction LOAD 6 (Some ExecuteLoad)).
Proof. split; [ repeat constructor | eexists; reflexivity ]. Qed.

Lemma registered_STORE :
  registered (mk_instruction STORE 6 (Some ExecuteStore)).
Proof. split; [ repeat constructor | eexists; reflexivity ]. Qed.

(** [CONST r, v] puts into the register the literal whose four bytes follow
    the register byte, low byte first, and steps over its six bytes; nothing
    else changes. *)
Theorem ExecuteConst_loads_literal vm r b0 b1 b2 b3 :
  wf_vm vm ->
  0 <= program_counter (cpu vm) ->
  program_counter (cpu vm) + 6 <= memory_size vm ->
  ReadByte vm (program_counter (cpu vm) + 1) = Some r ->
  ReadByte vm (program_counter (cpu vm) + 2) = Some b0 ->
  ReadByte vm (program_counter (cpu vm) + 3) = Some b1 ->
  ReadByte vm (program_counter (cpu vm) + 4) = Some b2 ->
  ReadByte vm (program_counter (cpu vm) + 5) = Some b3 ->
  IsValidRegisterIndex r = true ->
  let unsigned := b0 + 2 ^ 8 * b1 + 2 ^ 16 * b2 + 2 ^ 24 * b3 in
  ExecuteConst vm
  = Ok false
      (set_program_counter (program_counter (cpu vm) + 6)
         (set_registers
            (<[Z.to_nat r :=
                 if unsigned <? 2 ^ 31 then unsigned else unsigned - 2 ^ 32]>
               (registers (cpu vm))) vm)).
Proof.
  intros Hwf Hpc Hin Hr R0 R1 R2 R3 Hvr. cbv zeta.
  pose proof (wf_bytes vm Hwf) as Hbytes.
  assert (forall a b, ReadByte vm a = Some b -> 0 <= b < 2 ^ 8) as Hbyte.
  { intros a b. unfold ReadByte. destruct (0 <=? a); [ | discriminate ].
    intros Hlook. exact (Forall_lookup_1 _ _ _ _ Hbytes Hlook). }
  assert (ReadWord vm (program_counter (cpu vm) + 2)
          = Some (if b0 + 2 ^ 8 * b1 + 2 ^ 16 * b2 + 2 ^ 24 * b3 <? 2 ^ 31
                  then b0 + 2 ^ 8 * b1 + 2 ^ 16 * b2 + 2 ^ 24 * b3
                  else b0 + 2 ^ 8 * b1 + 2 ^ 16 * b2 + 2 ^ 24 * b3 - 2 ^ 32))
    as Hword.
  { apply ReadWord_little_endian_value; eauto.
    - replace (program_counter (cpu vm) + 2 + 1)
        with (program_counter (cpu vm) + 3) by lia. exact R1.
    - replace (program_counter (cpu vm) + 2 + 2)
        with (program_counter (cpu vm) + 4) by lia. exact R2.
    - replace (program_counter (cpu vm) + 2 + 3)
        with (program_counter (cpu vm) + 5) by lia. exact R3. }
  destruct Hwf as [Hlen Hms Hregs Hmap _ _ _ _ _].
  pose proof (InstructionFitsInMemory_true vm _ registered_CONST Hmap Hpc Hms
                Hin) as Hfit. cbn [opcode] in Hfit.
  unfold ExecuteConst, GetProgramCounter. rewrite Hfit. cbn [negb defined].
  rewrite Hr. cbn [defined]. rewrite Hword. cbn [defined].
  rewrite Hvr. cbn [negb].
  apply (write_then_advance vm _ r _ registered_CONST); simpl; try assumption;
    lia.
Qed.

(** [CONST REG2, -2], encoded fe ff ff ff. *)
Lemma ExecuteConst_loads_literal_witness :
  ExecuteConst const_machine
  = Ok false
      (set_program_counter 6 (set_registers [0; -2; 0; 0] const_machine)).
Proof.
  apply (ExecuteConst_loads_literal const_machine REG2 0xfe 0xff 0xff 0xff);
    try reflexivity; try (vm_compute; discriminate).
  wf_by_computation.
Defined.

Lemma ExecuteStore_step vm r address value vm1 :
  wf_vm vm ->
  0 <= program_counter (cpu vm) ->
  program_counter (cpu vm) + 6 <= memory_size vm ->
  ReadByte vm (program_counter (cpu vm) + 1) = Some r ->
  ReadWord vm (program_counter (cpu vm) + 2) = Some address ->
  IsValidRegisterIndex r = true ->
  read_register vm r = Some value ->
  WriteWord vm address value = Some vm1 ->
  ExecuteStore vm
  = Ok false (set_program_counter (program_counter (cpu vm) + 6) vm1).
Proof.
  intros Hwf Hpc Hin Hr Haddr Hvr Hvalue Hwrite.
  destruct Hwf as [Hlen Hms Hregs Hmap _ _ _ _ _].
  pose proof (InstructionFitsInMemory_true vm _ registered_STORE Hmap Hpc Hms
                Hin) as Hfit. cbn [opcode] in Hfit.
  unfold ExecuteStore, GetProgramCounter. rewrite Hfit. cbn [negb defined].
  rewrite Hr. cbn [defined]. rewrite Hvr. cbn [negb].
  rewrite Haddr. cbn [defined]. rewrite Hvalue. cbn [defined].
  rewrite Hwrite. cbn [defined].
  pose proof (WriteWord_frame _ _ _ _ Hwrite) as (Hcpu & _ & _ & Hmap1 & _).
  rewrite <- Hcpu.
  apply (advance_registered vm1 _ registered_STORE);
    simpl; rewrite ?Hcpu; try congruence; lia.
Qed.

Lemma ExecuteLoad_step vm r address word :
  wf_vm vm ->
  0 <= program_counter (cpu vm) ->
  program_counter (cpu vm) + 6 <= memory_size vm ->
  ReadByte vm (program_counter (cpu vm) + 1) = Some r ->
  ReadWord vm (program_counter (cpu vm) + 2) = Some address ->
  IsValidRegisterIndex r = true ->
  ReadWord vm address = Some word ->
  ExecuteLoad vm
  = Ok false
      (set_program_counter (program_counter (cpu vm) + 6)
         (set_registers (<[Z.to_nat r := word]> (registers (cpu vm))) vm)).
Proof.
  intros Hwf Hpc Hin Hr Haddr Hvr Hword.
  destruct Hwf as [Hlen Hms Hregs Hmap _ _ _ _ _].
  pose proof (InstructionFitsInMemory_true vm _ registered_LOAD Hmap Hpc Hms
                Hin) as Hfit. cbn [opcode] in Hfit.
  unfold ExecuteLoad, GetProgramCounter. rewrite Hfit. cbn [negb defined].
  rewrite Hr. cbn [defined]. rewrite Hvr. cbn [negb].
  rewrite Haddr. cbn [defined]. rewrite Hword. cbn [defined].
  apply (write_then_advance vm _ r _ registered_LOAD); simpl; try assumption;
    lia.
Qed.

(** [STORE r, address] followed by [LOAD r', address], run by the loop: the
    word of [r] lands at [address] on the tape and comes back in [r'].  The
    address only has to lie inside the tape, clear of the [LOAD] that
    follows; it need not be aligned, and nothing keeps it away from the code
    or the stack. *)
Theorem store_then_load_round_trip vm r r' address value :
  wf_vm vm ->
  0 <= program_counter (cpu vm) ->
  program_counter (cpu vm) + 12 <= memory_size vm ->
  ReadByte vm (program_counter (cpu vm)) = Some STORE ->
  ReadByte vm (program_counter (cpu vm) + 1) = Some r ->
  ReadWord vm (program_counter (cpu vm) + 2) = Some address ->
  ReadByte vm (program_counter (cpu vm) + 6) = Some LOAD ->
  ReadByte vm (program_counter (cpu vm) + 7) = Some r' ->
  ReadWord vm (program_counter (cpu vm) + 8) = Some address ->
  IsValidRegisterIndex r = true ->
  IsValidRegisterIndex r' = true ->
  read_register vm r = Some value ->
  0 <= address ->
  address + 4 <= memory_size vm ->
  address + 4 <= program_counter (cpu vm) + 6
  \/ program_counter (cpu vm) + 12 <= address ->
  exists vm1,
    WriteWord vm address value = Some vm1
    /\ RunVM 2 vm
       = Running
           (set_program_counter (program_counter (cpu vm) + 12)
              (set_registers
                 (<[Z.to_nat r' := value]> (registers (cpu vm))) vm1))
    /\ ReadWord vm1 address = Some value.
Proof.
  intros Hwf Hpc Hin Hop1 Hr Haddr Hop2 Hr' Haddr' Hvr Hvr' Hvalue Hlo Hhi
    Hclear.
  pose proof (read_register_range _ _ _ Hvalue Hwf) as Hrange.
  pose proof (wf_tape vm Hwf) as Hlen.
  pose proof (wf_opcode_map vm Hwf) as Hmap.
  destruct (WriteWord_defined vm address value Hlo ltac:(lia))
    as [vm1 Hwrite].
  pose proof (WriteWord_frame _ _ _ _ Hwrite)
    as (Hcpu & Hsize & _ & Hmap1 & _ & _).
  pose proof (ReadWord_WriteWord_same _ _ _ _ Hwrite Hrange) as Hback.
  exists vm1. split; [ exact Hwrite | ]. split; [ | exact Hback ].
  pose proof (ExecuteStore_step vm r address value vm1 Hwf Hpc ltac:(lia)
                Hr Haddr Hvr Hvalue Hwrite) as Hstep1.
  set (vm2 := set_program_counter (program_counter (cpu vm) + 6) vm1) in *.
  assert (wf_vm vm2) as Hwf2.
  { apply (rule_wf_vm _ _ vm false vm2 registered_STORE eq_refl Hwf Hstep1). }
  assert (ExecuteLoad vm2
          = Ok false
              (set_program_counter (program_counter (cpu vm) + 12)
                 (set_registers
                    (<[Z.to_nat r' := value]> (registers (cpu vm))) vm1)))
    as Hstep2.
  { rewrite (ExecuteLoad_step vm2 r' address value Hwf2).
    - simpl. rewrite Hcpu.
      replace (program_counter (cpu vm) + 6 + 6)
        with (program_counter (cpu vm) + 12) by lia. reflexivity.
    - simpl. lia.
    - simpl. rewrite Hsize. lia.
    - simpl. replace (program_counter (cpu vm) + 6 + 1)
        with (program_counter (cpu vm) + 7) by lia.
      change (ReadByte vm1 (program_counter (cpu vm) + 7) = Some r').
      rewrite (ReadByte_WriteWord_other _ _ _ _ _ Hwrite) by lia. exact Hr'.
    - simpl. replace (program_counter (cpu vm) + 6 + 2)
        with (program_counter (cpu vm) + 8) by lia.
      change (ReadWord vm1 (program_counter (cpu vm) + 8) = Some address).
      rewrite (ReadWord_WriteWord_other _ _ _ _ _ Hwrite) by lia.
      exact Haddr'.
    - exact Hvr'.
    - exact Hback. }
  simpl.
  rewrite (RunVM_iteration_registered vm
             (mk_instruction STORE 6 (Some ExecuteStore)) ExecuteStore Hmap
             ltac:(lia) Hop1 registered_STORE eq_refl).
  rewrite Hstep1.
  rewrite (RunVM_iteration_registered vm2
             (mk_instruction LOAD 6 (Some ExecuteLoad)) ExecuteLoad).
  - rewrite Hstep2. reflexivity.
  - simpl. congruence.
  - simpl. rewrite Hsize. lia.
  - simpl. change (ReadByte vm1 (program_counter (cpu vm) + 6) = Some LOAD).
    rewrite (ReadByte_WriteWord_other _ _ _ _ _ Hwrite) by lia. exact Hop2.
  - exact registered_LOAD.
  - reflexivity.
Qed.

(** [STORE REG1, 20; LOAD REG3, 20] with -5 in [REG1]: the word goes to the
    tape at 20 and comes back in [REG3]. *)
Lemma store_then_load_round_trip_witness :
  exists vm1,
    WriteWord (store_load_machine [-5; 0; 0; 0]) 20 (-5) = Some vm1
    /\ RunVM 2 (store_load_machine [-5; 0; 0; 0])
       = Running
           (set_program_counter 12 (set_registers [-5; 0; -5; 0] vm1))
    /\ ReadWord vm1 20 = Some (-5).
Proof.
  apply (store_then_load_round_trip (store_load_machine [-5; 0; 0; 0])
           REG1 REG3 20 (-5));
    try reflexivity; try (vm_compute; discriminate); try lia.
  - wf_by_computation.
  - right. vm_compute; discriminate.
Defined.

End DataMovement.

(** ** Stack instructions *)

Section Stack.

Implicit Types (vm : TOYVM).

Lemma registered_PUSH_ALL :
  registered (mk_instruction PUSH_ALL 1 (Some ExecutePushAll)).
Proof. split; [ repeat constructor | eexists; reflexivity ]. Qed.

Lemma registered_POP_ALL :
  registered (mk_instruction POP_ALL 1 (Some ExecutePopAll)).
Proof. split; [ repeat constructor | eexists; reflexivity ]. Qed.

Lemma to_int32_small z :
  int32_min <= z <= int32_max -> to_int32 z = z.
Proof. apply to_int32_id. Qed.

(** One of the four pushes of [ExecutePushAll]. *)
Lemma push_register_step vm index value :
  read_register vm index = Some value ->
  4 <= stack_pointer (cpu vm) <= int32_max ->
  push_register vm index
  = WriteWord (set_stack_pointer (stack_pointer (cpu vm) - 4) vm)
      (stack_pointer (cpu vm) - 4) value.
Proof.
  intros Hread Hsp. unfold push_register. rewrite Hread. simpl.
  rewrite to_int32_small by (unfold int32_min, int32_max in *; lia).
  reflexivity.
Qed.

(** The stack tests of [PUSH_ALL] and [POP_ALL], for a stack pointer between
    the fence and the end of the tape. *)
Lemma CanPerformMultipush_room vm :
  0 <= stack_limit vm ->
  stack_limit vm <= stack_pointer (cpu vm) <= int32_max ->
  CanPerformMultipush vm
  = (16 <=? stack_pointer (cpu vm) - stack_limit vm).
Proof.
  intros Hlimit Hsp. unfold CanPerformMultipush, GetAvailableStackSize.
  rewrite to_int32_small by (unfold int32_min, int32_max in *; lia).
  rewrite to_size_t_small by (unfold int32_max in *; lia). reflexivity.
Qed.

Lemma CanPerformMultipop_data vm :
  0 <= stack_pointer (cpu vm) <= memory_size vm ->
  memory_size vm <= int32_max ->
  CanPerformMultipop vm
  = (16 <=? memory_size vm - stack_pointer (cpu vm)).
Proof.
  intros Hsp Hms. unfold CanPerformMultipop, GetOccupiedStackSize.
  rewrite to_int32_small by (unfold int32_min, int32_max in *; lia).
  rewrite to_size_t_small by (unfold int32_max in *; lia). reflexivity.
Qed.

(** [PUSH_ALL] with room for four words stores [REG1] highest and [REG4]
    lowest, lowers the stack pointer by 16 and steps over its byte. *)
Lemma ExecutePushAll_step vm a1 a2 a3 a4 :
  wf_vm vm ->
  0 <= program_counter (cpu vm) < memory_size vm ->
  registers (cpu vm) = [a1; a2; a3; a4] ->
  0 <= stack_limit vm ->
  stack_limit vm + 16 <= stack_pointer (cpu vm) ->
  stack_pointer (cpu vm) <= memory_size vm ->
  exists vm1,
    ExecutePushAll vm = Ok false vm1
    /\ stack_pointer (cpu vm1) = stack_pointer (cpu vm) - 16
    /\ program_counter (cpu vm1) = program_counter (cpu vm) + 1
    /\ registers (cpu vm1) = [a1; a2; a3; a4]
    /\ status (cpu vm1) = status (cpu vm)
    /\ ReadWord vm1 (stack_pointer (cpu vm) - 4) = Some a1
    /\ ReadWord vm1 (stack_pointer (cpu vm) - 8) = Some a2
    /\ ReadWord vm1 (stack_pointer (cpu vm) - 12) = Some a3
    /\ ReadWord vm1 (stack_pointer (cpu vm) - 16) = Some a4
    /\ (forall b, b < stack_pointer (cpu vm) - 16
                  \/ stack_pointer (cpu vm) <= b ->
                  ReadByte vm1 b = ReadByte vm b).
Proof.
  intros Hwf Hpc Hregs Hlimit Hroom Hsp.
  pose proof (wf_register_values vm Hwf) as Hvalues.
  rewrite Hregs in Hvalues.
  apply Forall_cons in Hvalues as [V1 Hvalues].
  apply Forall_cons in Hvalues as [V2 Hvalues].
  apply Forall_cons in Hvalues as [V3 Hvalues].
  apply Forall_cons in Hvalues as [V4 _].
  destruct Hwf as [Hlen Hms _ Hmap _ _ _ _ _].
  set (sp := stack_pointer (cpu vm)) in *.
  pose proof (InstructionFitsInMemory_true vm _ registered_PUSH_ALL Hmap
                ltac:(lia) Hms ltac:(simpl; lia)) as Hfit.
  cbn [opcode] in Hfit.
  destruct (WriteWord_defined (set_stack_pointer (sp - 4) vm) (sp - 4) a1)
    as [w1 W1]; [ lia | simpl; lia | ].
  pose proof (WriteWord_frame _ _ _ _ W1) as (C1 & _ & _ & M1 & _ & L1).
  simpl in C1, L1, M1.
  destruct (WriteWord_defined (set_stack_pointer (sp - 8) w1) (sp - 8) a2)
    as [w2 W2]; [ lia | simpl; lia | ].
  pose proof (WriteWord_frame _ _ _ _ W2) as (C2 & _ & _ & M2 & _ & L2).
  simpl in C2, L2, M2.
  destruct (WriteWord_defined (set_stack_pointer (sp - 12) w2) (sp - 12) a3)
    as [w3 W3]; [ lia | simpl; lia | ].
  pose proof (WriteWord_frame _ _ _ _ W3) as (C3 & _ & _ & M3 & _ & L3).
  simpl in C3, L3, M3.
  destruct (WriteWord_defined (set_stack_pointer (sp - 16) w3) (sp - 16) a4)
    as [w4 W4]; [ lia | simpl; lia | ].
  pose proof (WriteWord_frame _ _ _ _ W4) as (C4 & S4 & _ & M4 & _ & L4).
  simpl in C4, L4, S4, M4.
  assert (push_register vm REG1 = Some w1) as P1.
  { rewrite (push_register_step vm REG1 a1); [ exact W1 | | fold sp; lia ].
    unfold read_register. rewrite Hregs. reflexivity. }
  assert (push_register w1 REG2 = Some w2) as P2.
  { rewrite (push_register_step w1 REG2 a2); rewrite ?C1; simpl.
    - replace (sp - 4 - 4) with (sp - 8) by lia. exact W2.
    - unfold read_register. rewrite C1. simpl. rewrite Hregs. reflexivity.
    - lia. }
  assert (push_register w2 REG3 = Some w3) as P3.
  { rewrite (push_register_step w2 REG3 a3); rewrite ?C2; simpl.
    - replace (sp - 8 - 4) with (sp - 12) by lia. exact W3.
    - unfold read_register. rewrite C2. simpl. rewrite C1. simpl.
      rewrite Hregs. reflexivity.
    - lia. }
  assert (push_register w3 REG4 = Some w4) as P4.
  { rewrite (push_register_step w3 REG4 a4); rewrite ?C3; simpl.
    - replace (sp - 12 - 4) with (sp - 16) by lia. exact W4.
    - unfold read_register. rewrite C3. simpl. rewrite C2. simpl.
      rewrite C1. simpl. rewrite Hregs. reflexivity.
    - lia. }
  assert (cpu w4
          = mk_cpu [a1; a2; a3; a4] (program_counter (cpu vm)) (sp - 16)
              (status (cpu vm))) as Hcpu.
  { rewrite C4. simpl. rewrite C3. simpl. rewrite C2. simpl. rewrite C1.
    simpl. rewrite Hregs. reflexivity. }
  exists (set_program_counter (program_counter (cpu vm) + 1) w4).
  split.
  { unfold ExecutePushAll. rewrite Hfit. cbn [negb defined].
    rewrite CanPerformMultipush_room by (fold sp; lia). fold sp.
    destruct (Z.leb_spec 16 (sp - stack_limit vm)); [ | lia ].
    cbn [negb]. rewrite P1. cbn [defined]. rewrite P2. cbn [defined].
    rewrite P3. cbn [defined]. rewrite P4. cbn [defined].
    pose proof (advance_registered w4 _ registered_PUSH_ALL) as Hadv.
    cbn [opcode size] in Hadv. rewrite Hcpu in Hadv. simpl in Hadv.
    rewrite Hadv; [ reflexivity | congruence | lia | lia ]. }
  simpl. rewrite Hcpu. simpl.
  repeat split.
  - change (ReadWord w4 (sp - 4) = Some a1).
    rewrite (ReadWord_WriteWord_other _ _ _ _ _ W4) by lia.
    change (ReadWord w3 (sp - 4) = Some a1).
    rewrite (ReadWord_WriteWord_other _ _ _ _ _ W3) by lia.
    change (ReadWord w2 (sp - 4) = Some a1).
    rewrite (ReadWord_WriteWord_other _ _ _ _ _ W2) by lia.
    change (ReadWord w1 (sp - 4) = Some a1).
    exact (ReadWord_WriteWord_same _ _ _ _ W1 V1).
  - change (ReadWord w4 (sp - 8) = Some a2).
    rewrite (ReadWord_WriteWord_other _ _ _ _ _ W4) by lia.
    change (ReadWord w3 (sp - 8) = Some a2).
    rewrite (ReadWord_WriteWord_other _ _ _ _ _ W3) by lia.
    change (ReadWord w2 (sp - 8) = Some a2).
    exact (ReadWord_WriteWord_same _ _ _ _ W2 V2).
  - change (ReadWord w4 (sp - 12) = Some a3).
    rewrite (ReadWord_WriteWord_other _ _ _ _ _ W4) by lia.
    change (ReadWord w3 (sp - 12) = Some a3).
    exact (ReadWord_WriteWord_same _ _ _ _ W3 V3).
  - change (ReadWord w4 (sp - 16) = Some a4).
    exact (ReadWord_WriteWord_same _ _ _ _ W4 V4).
  - intros b Hb.
    change (ReadByte w4 b = ReadByte vm b).
    rewrite (ReadByte_WriteWord_other _ _ _ _ _ W4) by lia.
    change (ReadByte w3 b = ReadByte vm b).
    rewrite (ReadByte_WriteWord_other _ _ _ _ _ W3) by lia.
    change (ReadByte w2 b = ReadByte vm b).
    rewrite (ReadByte_WriteWord_other _ _ _ _ _ W2) by lia.
    change (ReadByte w1 b = ReadByte vm b).
    rewrite (ReadByte_WriteWord_other _ _ _ _ _ W1) by lia.
    reflexivity.
Qed.

Lemma write_register_set vm regs index value :
  length regs = Z.to_nat N_REGISTERS ->
  IsValidRegisterIndex index = true ->
  write_register (set_registers regs vm) index value
  = Some (set_registers (<[Z.to_nat index := value]> regs) vm).
Proof.
  intros Hlen Hvalid.
  rewrite write_register_valid by assumption. reflexivity.
Qed.

(** [POP_ALL] with four words on the stack loads [REG4] from the lowest and
    [REG1] from the highest, raises the stack pointer by 16 and steps over
    its byte. *)
Lemma ExecutePopAll_step vm w1 w2 w3 w4 :
  wf_vm vm ->
  0 <= program_counter (cpu vm) < memory_size vm ->
  0 <= stack_pointer (cpu vm) ->
  stack_pointer (cpu vm) + 16 <= memory_size vm ->
  ReadWord vm (stack_pointer (cpu vm)) = Some w4 ->
  ReadWord vm (stack_pointer (cpu vm) + 4) = Some w3 ->
  ReadWord vm (stack_pointer (cpu vm) + 8) = Some w2 ->
  ReadWord vm (stack_pointer (cpu vm) + 12) = Some w1 ->
  ExecutePopAll vm
  = Ok false
      (set_program_counter (program_counter (cpu vm) + 1)
         (set_stack_pointer (stack_pointer (cpu vm) + 16)
            (set_registers [w1; w2; w3; w4] vm))).
Proof.
  intros Hwf Hpc Hsp Hdata R4 R3 R2 R1.
  destruct Hwf as [Hlen Hms Hregs Hmap _ _ _ _ _].
  pose proof (InstructionFitsInMemory_true vm _ registered_POP_ALL Hmap
                ltac:(lia) Hms ltac:(simpl; lia)) as Hfit.
  cbn [opcode] in Hfit.
  unfold ExecutePopAll. rewrite Hfit. cbn [negb defined].
  rewrite CanPerformMultipop_data by lia.
  destruct (Z.leb_spec 16 (memory_size vm - stack_pointer (cpu vm)));
    [ | lia ].
  cbn [negb]. cbv zeta.
  rewrite !to_int32_small by (unfold int32_min, int32_max in *; lia).
  rewrite R4. cbn [defined].
  rewrite write_register_valid by (assumption || reflexivity).
  cbn [defined].
  rewrite (ReadWord_same_tape _ vm) by reflexivity. rewrite R3.
  cbn [defined].
  rewrite write_register_set by (rewrite ?length_insert; assumption || reflexivity).
  cbn [defined].
  rewrite (ReadWord_same_tape _ vm) by reflexivity. rewrite R2.
  cbn [defined].
  rewrite write_register_set by (rewrite ?length_insert; assumption || reflexivity).
  cbn [defined].
  rewrite (ReadWord_same_tape _ vm) by reflexivity. rewrite R1.
  cbn [defined].
  rewrite write_register_set by (rewrite ?length_insert; assumption || reflexivity).
  cbn [defined].
  assert (<[Z.to_nat REG1 := w1]>
            (<[Z.to_nat REG2 := w2]>
               (<[Z.to_nat REG3 := w3]>
                  (<[Z.to_nat REG4 := w4]> (registers (cpu vm)))))
          = [w1; w2; w3; w4]) as ->.
  { destruct (registers (cpu vm)) as [ | x1 [ | x2 [ | x3 [ | x4 [ | ? ?]]]]];
      try discriminate Hregs. reflexivity. }
  pose proof (advance_registered
                (set_stack_pointer (stack_pointer (cpu vm) + 16)
                   (set_registers [w1; w2; w3; w4] vm))
                _ registered_POP_ALL) as Hadv.
  cbn [opcode size] in Hadv. simpl in Hadv.
  rewrite Hadv; [ reflexivity | assumption | lia | lia ].
Qed.

(** [PUSH_ALL], whatever the code after it does to the registers, and then
    [POP_ALL] on the stack as [PUSH_ALL] left it: the four registers and the
    stack pointer are as they were before the [PUSH_ALL]. *)
Theorem push_all_then_pop_all_restores vm a1 a2 a3 a4 :
  wf_vm vm ->
  0 <= program_counter (cpu vm) < memory_size vm ->
  registers (cpu vm) = [a1; a2; a3; a4] ->
  0 <= stack_limit vm ->
  stack_limit vm + 16 <= stack_pointer (cpu vm) ->
  stack_pointer (cpu vm) <= memory_size vm ->
  exists vm1,
    ExecutePushAll vm = Ok false vm1
    /\ stack_pointer (cpu vm1) = stack_pointer (cpu vm) - 16
    /\ forall vm2,
         wf_vm vm2 ->
         memory_size vm2 = memory_size vm1 ->
         0 <= program_counter (cpu vm2) < memory_size vm2 ->
         stack_pointer (cpu vm2) = stack_pointer (cpu vm1) ->
         (forall k, 0 <= k < 16 ->
                    ReadByte vm2 (stack_pointer (cpu vm2) + k)
                    = ReadByte vm1 (stack_pointer (cpu vm1) + k)) ->
         exists vm3,
           ExecutePopAll vm2 = Ok false vm3
           /\ registers (cpu vm3) = [a1; a2; a3; a4]
           /\ stack_pointer (cpu vm3) = stack_pointer (cpu vm)
           /\ memory vm3 = memory vm2.
Proof.
  intros Hwf Hpc Hregs Hlimit Hroom Hsp.
  destruct (ExecutePushAll_step vm a1 a2 a3 a4 Hwf Hpc Hregs Hlimit Hroom Hsp)
    as (vm1 & Hpush & Hsp1 & _ & _ & _ & T1 & T2 & T3 & T4 & _).
  pose proof (rule_wf_vm _ _ vm false vm1 registered_PUSH_ALL eq_refl Hwf Hpush)
    as Hwf1.
  exists vm1. split; [ exact Hpush | ]. split; [ exact Hsp1 | ].
  intros vm2 Hwf2 Hsize2 Hpc2 Hsp2 Hsame.
  assert (memory_size vm1 = memory_size vm) as Hsize1.
  { revert Hpush. unfold ExecutePushAll, advance. split_rule;
      try discriminate. intros [= <-].
    repeat match goal with
      | H : push_register _ _ = Some _ |- _ =>
          unfold push_register in H;
          destruct (read_register _ _); [ | discriminate H ];
          simpl in H; apply WriteWord_frame in H as (_ & H & _)
      end.
    simpl in *. congruence. }
  assert (forall a,
            stack_pointer (cpu vm1) <= a ->
            a + 4 <= stack_pointer (cpu vm1) + 16 ->
            ReadWord vm2 a = ReadWord vm1 a) as Hwords.
  { assert (forall b,
              stack_pointer (cpu vm1) <= b < stack_pointer (cpu vm1) + 16 ->
              ReadByte vm2 b = ReadByte vm1 b) as Hbytes.
    { intros b Hb.
      pose proof (Hsame (b - stack_pointer (cpu vm1)) ltac:(lia)) as Hk.
      rewrite Hsp2 in Hk.
      replace (stack_pointer (cpu vm1) + (b - stack_pointer (cpu vm1)))
        with b in Hk by lia.
      exact Hk. }
    intros a Hlo Hhi. unfold ReadWord.
    rewrite (Hbytes a), (Hbytes (a + 1)), (Hbytes (a + 2)), (Hbytes (a + 3))
      by lia.
    reflexivity. }
  eexists. split; [ | split; [ | split ] ].
  - apply (ExecutePopAll_step vm2 a1 a2 a3 a4 Hwf2 Hpc2).
    + rewrite Hsp2, Hsp1. lia.
    + rewrite Hsp2, Hsp1, Hsize2, Hsize1. lia.
    + rewrite Hsp2, Hwords by lia. rewrite Hsp1. exact T4.
    + rewrite Hsp2, Hwords by lia. rewrite Hsp1.
      replace (stack_pointer (cpu vm) - 16 + 4)
        with (stack_pointer (cpu vm) - 12) by lia. exact T3.
    + rewrite Hsp2, Hwords by lia. rewrite Hsp1.
      replace (stack_pointer (cpu vm) - 16 + 8)
        with (stack_pointer (cpu vm) - 8) by lia. exact T2.
    + rewrite Hsp2, Hwords by lia. rewrite Hsp1.
      replace (stack_pointer (cpu vm) - 16 + 12)
        with (stack_pointer (cpu vm) - 4) by lia. exact T1.
  - reflexivity.
  - simpl. rewrite Hsp2, Hsp1. lia.
  - reflexivity.
Qed.

(** [PUSH_ALL; POP_ALL] with 1, 2, 3, 4 in the registers: after the
    [PUSH_ALL] the registers are overwritten, and the [POP_ALL] brings
    1, 2, 3, 4 back and the stack pointer back to 44. *)
Lemma push_all_then_pop_all_restores_witness :
  exists vm1 vm3,
    ExecutePushAll (push_all_machine [1; 2; 3; 4]) = Ok false vm1
    /\ stack_pointer (cpu vm1) = 28
    /\ ExecutePopAll (set_registers [9; 9; 9; 9] vm1) = Ok false vm3
    /\ registers (cpu vm3) = [1; 2; 3; 4]
    /\ stack_pointer (cpu vm3) = 44.
Proof.
  destruct (push_all_then_pop_all_restores (push_all_machine [1; 2; 3; 4])
              1 2 3 4) as (vm1 & Hpush & Hsp1 & Hpop).
  - wf_by_computation.
  - vm_compute. split; [ discriminate | reflexivity ].
  - reflexivity.
  - vm_compute; discriminate.
  - vm_compute; discriminate.
  - vm_compute; discriminate.
  - assert (vm1 = set_program_counter 1
                    (set_stack_pointer 28
                       (set_memory
                          (take 28 (memory (push_all_machine [1; 2; 3; 4]))
                           ++ [4; 0; 0; 0; 3; 0; 0; 0; 2; 0; 0; 0; 1; 0; 0; 0])
                          (push_all_machine [1; 2; 3; 4])))) as Hvm1.
    { vm_compute in Hpush. injection Hpush as <-. reflexivity. }
    destruct (Hpop (set_registers [9; 9; 9; 9] vm1))
      as (vm3 & Hpop3 & Hregs3 & Hsp3 & _).
    + rewrite Hvm1. wf_by_computation.
    + reflexivity.
    + rewrite Hvm1. vm_compute. split; [ discriminate | reflexivity ].
    + reflexivity.
    + intros k Hk. reflexivity.
    + exists vm1, vm3. split; [ exact Hpush | ].
      split; [ rewrite Hvm1; reflexivity | ].
      split; [ exact Hpop3 | ]. split; [ exact Hregs3 | ].
      rewrite Hsp3. reflexivity.
Defined.

End Stack.

(** ** What the helpers leave alone *)

Section Helpers.

Implicit Types (vm : TOYVM) (ins : instruction).

Lemma WriteWord_configuration vm a v vm' :
  WriteWord vm a v = Some vm' ->
  configuration vm' = configuration vm /\ cpu vm' = cpu vm.
Proof.
  intros H. apply WriteWord_frame in H as (Hcpu & Hms & Hsl & Hmap & _ & Hlen).
  unfold configuration. rewrite Hms, Hsl, Hmap, Hlen. split; [ | exact Hcpu ].
  reflexivity.
Qed.

Lemma write_register_configuration vm index value vm' :
  write_register vm index value = Some vm' ->
  configuration vm' = configuration vm
  /\ stack_pointer (cpu vm') = stack_pointer (cpu vm)
  /\ status (cpu vm') = status (cpu vm).
Proof.
  unfold write_register.
  destruct ((0 <=? index) && (index <? N_REGISTERS)
            && (index <? Z.of_nat (length (registers (cpu vm)))));
    [ | discriminate ].
  intros [= <-]. repeat split.
Qed.

Lemma push_register_configuration vm index vm' :
  push_register vm index = Some vm' ->
  configuration vm' = configuration vm
  /\ stack_pointer (cpu vm') = to_int32 (stack_pointer (cpu vm) - 4)
  /\ status (cpu vm') = status (cpu vm).
Proof.
  unfold push_register.
  destruct (read_register vm index) as [value | ]; [ | discriminate ].
  simpl. intros H. apply WriteWord_configuration in H as [Hconf Hcpu].
  rewrite Hcpu. repeat split. exact Hconf.
Qed.

Lemma PrintString_configuration vm address vm' :
  PrintString vm address = Some vm' ->
  configuration vm' = configuration vm /\ cpu vm' = cpu vm.
Proof.
  unfold PrintString.
  destruct (c_string _) as [text | ]; [ | discriminate ].
  simpl. intros [= <-]. split; reflexivity.
Qed.

Lemma PopVM_configuration vm word vm' :
  PopVM vm = Ok word vm' ->
  StackIsEmpty vm = false ->
  configuration vm' = configuration vm
  /\ stack_pointer (cpu vm') = to_int32 (stack_pointer (cpu vm) + 4)
  /\ status (cpu vm') = status (cpu vm).
Proof.
  unfold PopVM. intros H Hempty. rewrite Hempty in H.
  destruct (ReadWord vm _) as [w | ]; [ | discriminate ].
  cbn [defined] in H. injection H as _ <-. repeat split.
Qed.

Lemma PushVM_configuration vm value u vm' :
  PushVM vm value = Ok u vm' ->
  configuration vm' = configuration vm
  /\ stack_pointer (cpu vm') = to_int32 (stack_pointer (cpu vm) - 4)
  /\ status (cpu vm') = status (cpu vm).
Proof.
  unfold PushVM. cbv zeta.
  destruct (WriteWord _ _ _) as [vm2 | ] eqn:Hwrite; [ | discriminate ].
  cbn [defined]. intros [= _ <-].
  apply WriteWord_configuration in Hwrite as [Hconf Hcpu].
  rewrite Hcpu. repeat split. exact Hconf.
Qed.

End Helpers.

(** Turns the helper calls recorded in the context into what they did to the
    configuration, the stack pointer and the status. *)
Ltac helper_effects :=
  repeat match goal with
    | H : WriteWord _ _ _ = Some _ |- _ =>
        apply WriteWord_configuration in H as [? ?]
    | H : write_register _ _ _ = Some _ |- _ =>
        apply write_register_configuration in H as (? & ? & ?)
    | H : push_register _ _ = Some _ |- _ =>
        apply push_register_configuration in H as (? & ? & ?)
    | H : PrintString _ _ = Some _ |- _ =>
        apply PrintString_configuration in H as [? ?]
    | H : PushVM _ _ = Ok _ _ |- _ =>
        apply PushVM_configuration in H as (? & ? & ?)
    | H : PopVM ?vm = Ok _ _, E : StackIsEmpty ?vm = false |- _ =>
        apply (fun H => PopVM_configuration _ _ _ H E) in H as (? & ? & ?)
    end.

Ltac rule_configuration :=
  unfold advance; split_rule; try discriminate;
  intros [= <- <-]; helper_effects;
  unfold configuration in *; simpl in *; congruence.

(** ** The stack pointer stays between the fence and the end of the tape *)

Section StackDiscipline.

Implicit Types (vm : TOYVM) (ins : instruction).

(** No rule changes the size of the tape, the stack fence or the opcode
    map. *)
Lemma rule_configuration_kept ins f vm halt vm' :
  registered ins ->
  execute ins = Some f ->
  f vm = Ok halt vm' ->
  configuration vm' = configuration vm.
Proof.
  intros Hreg Hexec. apply registered_cases in Hreg.
  repeat (apply elem_of_cons in Hreg as [-> | Hreg]);
    try (apply elem_of_nil in Hreg; destruct Hreg);
    injection Hexec as <-.
  - unfold ExecuteAdd. rule_configuration.
  - unfold ExecuteNeg. rule_configuration.
  - unfold ExecuteMul. rule_configuration.
  - unfold ExecuteDiv. rule_configuration.
  - unfold ExecuteMod. rule_configuration.
  - unfold ExecuteCmp. rule_configuration.
  - unfold ExecuteJumpIfAbove. rule_configuration.
  - unfold ExecuteJumpIfEqual. rule_configuration.
  - unfold ExecuteJumpIfBelow. rule_configuration.
  - unfold ExecuteJump. rule_configuration.
  - unfold ExecuteCall. rule_configuration.
  - unfold ExecuteRet. rule_configuration.
  - unfold ExecuteLoad. rule_configuration.
  - unfold ExecuteStore. rule_configuration.
  - unfold ExecuteConst. rule_configuration.
  - unfold ExecuteRload. rule_configuration.
  - unfold ExecuteRstore. rule_configuration.
  - unfold ExecuteHalt. rule_configuration.
  - unfold ExecuteInterrupt. rule_configuration.
  - unfold ExecuteNop. rule_configuration.
  - unfold ExecutePush. rule_configuration.
  - unfold ExecutePushAll. rule_configuration.
  - unfold ExecutePop. rule_configuration.
  - unfold ExecutePopAll. rule_configuration.
  - unfold ExecuteLSP. rule_configuration.
Qed.

(** Reads the tests recorded in the context as inequalities. *)
Ltac decode_tests :=
  repeat match goal with
    | H : negb _ = true |- _ => apply negb_true_iff in H
    | H : negb _ = false |- _ => apply negb_false_iff in H
    | H : (_ <=? _) = true |- _ => apply Z.leb_le in H
    | H : (_ <=? _) = false |- _ => apply Z.leb_gt in H
    | H : (_ <? _) = true |- _ => apply Z.ltb_lt in H
    | H : (_ <? _) = false |- _ => apply Z.ltb_ge in H
    end.

Ltac unwrap_int32 :=
  repeat match goal with
    | H : context [to_int32 ?z] |- _ =>
        rewrite (to_int32_small z) in H
          by (unfold int32_min, int32_max in *;
              first [ lia | Z.div_mod_to_equations; lia ])
    | |- context [to_int32 ?z] =>
        rewrite (to_int32_small z)
          by (unfold int32_min, int32_max in *;
              first [ lia | Z.div_mod_to_equations; lia ])
    end.

Ltac rule_discipline :=
  unfold advance; split_rule; try discriminate;
  intros [= <- <-]; helper_effects;
  unfold stack_discipline, configuration in *;
  repeat match goal with
    | H : (_, _, _, _) = (_, _, _, _) |- _ => injection H as ? ? ? ?
    end;
  try match goal with
    | H : context [CanPerformMultipush ?vm] |- _ =>
        rewrite (CanPerformMultipush_room vm) in H
          by (unfold int32_max in *; lia)
    end;
  try match goal with
    | H : context [CanPerformMultipop ?vm] |- _ =>
        rewrite (CanPerformMultipop_data vm) in H
          by (unfold int32_max in *; lia)
    end;
  unfold StackIsFull, StackIsEmpty, GetAvailableStackSize in *;
  simpl in *;
  repeat match goal with
    | H : cpu ?t = cpu _ |- _ => rewrite H in *; clear H
    end;
  unwrap_int32; decode_tests; unwrap_int32;
  repeat split; try (unfold int32_max in *; lia);
  try (Z.div_mod_to_equations; unfold int32_max in *; lia).

(** Every rule keeps the stack pointer between the fence and the end of the
    tape, on a multiple of four. *)
Lemma rule_stack_discipline ins f vm halt vm' :
  registered ins ->
  execute ins = Some f ->
  wf_vm vm ->
  stack_discipline vm ->
  f vm = Ok halt vm' ->
  stack_discipline vm'.
Proof.
  intros Hreg Hexec Hwf Hdisc. apply registered_cases in Hreg.
  pose proof (wf_memory_size vm Hwf) as Hms.
  destruct Hdisc as (Hsl & Hsp & Hsp4 & Hsl4 & Hms4).
  clear Hwf.
  repeat (apply elem_of_cons in Hreg as [-> | Hreg]);
    try (apply elem_of_nil in Hreg; destruct Hreg);
    injection Hexec as <-.
  - unfold ExecuteAdd. rule_discipline.
  - unfold ExecuteNeg. rule_discipline.
  - unfold ExecuteMul. rule_discipline.
  - unfold ExecuteDiv. rule_discipline.
  - unfold ExecuteMod. rule_discipline.
  - unfold ExecuteCmp. rule_discipline.
  - unfold ExecuteJumpIfAbove. rule_discipline.
  - unfold ExecuteJumpIfEqual. rule_discipline.
  - unfold ExecuteJumpIfBelow. rule_discipline.
  - unfold ExecuteJump. rule_discipline.
  - unfold ExecuteCall. rule_discipline.
  - unfold ExecuteRet. rule_discipline.
  - unfold ExecuteLoad. rule_discipline.
  - unfold ExecuteStore. rule_discipline.
  - unfold ExecuteConst. rule_discipline.
  - unfold ExecuteRload. rule_discipline.
  - unfold ExecuteRstore. rule_discipline.
  - unfold ExecuteHalt. rule_discipline.
  - unfold ExecuteInterrupt. rule_discipline.
  - unfold ExecuteNop. rule_discipline.
  - unfold ExecutePush. rule_discipline.
  - unfold ExecutePushAll. rule_discipline.
  - unfold ExecutePop. rule_discipline.
  - unfold ExecutePopAll. rule_discipline.
  - unfold ExecuteLSP. rule_discipline.
Qed.

End StackDiscipline.

(** * The loop as a whole *)

Section Runs.

Implicit Types (vm : TOYVM).

(** The ways in which a turn of the loop comes to a result. *)
Lemma RunVM_iteration_cases vm halt vm' :
  RunVM_iteration vm = Ok halt vm' ->
  (halt = true /\ vm' = raise_BAD_ACCESS vm
   /\ (program_counter (cpu vm) < 0
       \/ memory_size vm <= program_counter (cpu vm)))
  \/ (exists op,
        0 <= program_counter (cpu vm) < memory_size vm
        /\ ReadByte vm (program_counter (cpu vm)) = Some op
        /\ ((halt = true /\ vm' = raise_BAD_INSTRUCTION vm
             /\ opcode_map vm !! Z.to_nat op = Some 0)
            \/ (exists index ins f,
                  opcode_map vm !! Z.to_nat op = Some index
                  /\ index <> 0
                  /\ instructions !! Z.to_nat index = Some ins
                  /\ execute ins = Some f
                  /\ f vm = Ok halt vm'))).
Proof.
  unfold RunVM_iteration, GetProgramCounter.
  destruct (Z.ltb_spec (program_counter (cpu vm)) 0) as [Hneg | Hpos];
    cbn [orb].
  { intros [= <- <-]. left. repeat split. left. exact Hneg. }
  destruct (Z.leb_spec (memory_size vm) (program_counter (cpu vm)))
    as [Hout | Hin].
  { intros [= <- <-]. left. repeat split. right. exact Hout. }
  destruct (ReadByte vm (program_counter (cpu vm))) as [op | ];
    cbn [defined]; [ | discriminate ].
  destruct (opcode_map vm !! Z.to_nat op) as [index | ] eqn:Hindex;
    cbn [defined]; [ | discriminate ].
  destruct (Z.eqb_spec index 0) as [-> | Hnz].
  { intros [= <- <-]. right. exists op. split; [ lia | ].
    split; [ reflexivity | ]. left. repeat split. exact Hindex. }
  destruct (instructions !! Z.to_nat index) as [entry | ] eqn:Hentry;
    cbn [defined]; [ | discriminate ].
  destruct (execute entry) as [f | ] eqn:Hexec; cbn [defined];
    [ | discriminate ].
  intros Hrule. right. exists op. split; [ lia | ].
  split; [ reflexivity | ]. right. exists index, entry, f.
  repeat split; assumption.
Qed.

Lemma lookup_registered index ins f :
  instructions !! index = Some ins -> execute ins = Some f -> registered ins.
Proof.
  intros Hentry Hexec. split; [ | eexists; exact Hexec ].
  apply list_elem_of_lookup. eexists. exact Hentry.
Qed.

Lemma stack_discipline_status s vm :
  stack_discipline (set_status s vm) <-> stack_discipline vm.
Proof. reflexivity. Qed.

Lemma RunVM_iteration_configuration vm halt vm' :
  RunVM_iteration vm = Ok halt vm' -> configuration vm' = configuration vm.
Proof.
  intros Hturn. apply RunVM_iteration_cases in Hturn
    as [(_ & -> & _) | (op & _ & _ & [(_ & -> & _) | Hrule])];
    try reflexivity.
  destruct Hrule as (index & ins & f & _ & _ & Hentry & Hexec & Hrule).
  apply (rule_configuration_kept ins f vm halt vm'
           (lookup_registered _ _ _ Hentry Hexec) Hexec Hrule).
Qed.

Lemma RunVM_iteration_stack_discipline vm halt vm' :
  wf_vm vm -> stack_discipline vm ->
  RunVM_iteration vm = Ok halt vm' -> stack_discipline vm'.
Proof.
  intros Hwf Hdisc Hturn. apply RunVM_iteration_cases in Hturn
    as [(_ & -> & _) | (op & _ & _ & [(_ & -> & _) | Hrule])];
    try exact Hdisc.
  destruct Hrule as (index & ins & f & _ & _ & Hentry & Hexec & Hrule).
  apply (rule_stack_discipline ins f vm halt vm'
           (lookup_registered _ _ _ Hentry Hexec) Hexec Hwf Hdisc Hrule).
Qed.

(** A property kept by every turn from well-formed machines is kept by the
    run. *)
Lemma RunVM_invariant (P : TOYVM -> Prop) :
  (forall vm halt vm',
     wf_vm vm -> P vm -> RunVM_iteration vm = Ok halt vm' -> P vm') ->
  forall fuel vm vm',
    wf_vm vm -> P vm ->
    RunVM fuel vm = Returned vm' \/ RunVM fuel vm = Running vm' ->
    P vm'.
Proof.
  intros Hkept fuel. induction fuel as [ | fuel IH]; intros vm vm' Hwf HP;
    simpl.
  - intros [H | H]; [ discriminate | ]. injection H as <-. exact HP.
  - destruct (RunVM_iteration vm) as [[] vm1 | vm1] eqn:Hturn.
    + intros [H | H]; [ | discriminate ]. injection H as <-.
      apply (Hkept _ _ _ Hwf HP Hturn).
    + apply IH.
      * apply (RunVM_iteration_wf _ _ _ Hwf Hturn).
      * apply (Hkept _ _ _ Hwf HP Hturn).
    + intros [H | H]; discriminate.
Qed.

Lemma load_file_stack_discipline file :
  2 * Z.of_nat (length file) < 2 ^ 31 - 4 ->
  stack_discipline (load_file file)
  /\ Z.of_nat (length file) < stack_limit (load_file file)
  /\ stack_pointer (cpu (load_file file)) = memory_size (load_file file).
Proof.
  intros Hsize. unfold load_file.
  set (n := Z.of_nat (length file)) in *.
  assert (to_int32 (to_size_t (2 * n)) = 2 * n) as ->.
  { rewrite to_size_t_small by lia. apply to_int32_id.
    unfold in_int32, int32_min, int32_max. lia. }
  assert (to_int32 n = n) as ->.
  { apply to_int32_id. unfold in_int32, int32_min, int32_max. lia. }
  destruct (align_up_next_multiple (2 * n)) as (Hm4 & Hmlt & Hmle); [ lia | ].
  destruct (align_up_next_multiple n) as (Hs4 & Hslt & Hsle); [ lia | ].
  unfold stack_discipline. simpl. repeat split; try lia.
  apply Hsle; [ exact Hm4 | lia ].
Qed.

Ltac rule_comparison :=
  unfold advance; split_rule; try discriminate;
  intros [= <- <-]; helper_effects;
  unfold comparison_exclusive, flags in *; simpl in *;
  repeat match goal with
    | H : cpu ?t = cpu _ |- _ => rewrite H in *; clear H
    | H : status (cpu ?t) = _ |- _ => rewrite H in *; clear H
    end;
  unfold flags in *; simpl in *; try assumption.

Lemma rule_comparison_exclusive ins f vm halt vm' :
  registered ins ->
  execute ins = Some f ->
  comparison_exclusive vm ->
  f vm = Ok halt vm' ->
  comparison_exclusive vm'.
Proof.
  intros Hreg Hexec Hexcl. apply registered_cases in Hreg.
  repeat (apply elem_of_cons in Hreg as [-> | Hreg]);
    try (apply elem_of_nil in Hreg; destruct Hreg);
    injection Hexec as <-.
  - unfold ExecuteAdd. rule_comparison.
  - unfold ExecuteNeg. rule_comparison.
  - unfold ExecuteMul. rule_comparison.
  - unfold ExecuteDiv. rule_comparison.
  - unfold ExecuteMod. rule_comparison.
  - unfold ExecuteCmp. rule_comparison; repeat split.
  - unfold ExecuteJumpIfAbove. rule_comparison.
  - unfold ExecuteJumpIfEqual. rule_comparison.
  - unfold ExecuteJumpIfBelow. rule_comparison.
  - unfold ExecuteJump. rule_comparison.
  - unfold ExecuteCall. rule_comparison.
  - unfold ExecuteRet. rule_comparison.
  - unfold ExecuteLoad. rule_comparison.
  - unfold ExecuteStore. rule_comparison.
  - unfold ExecuteConst. rule_comparison.
  - unfold ExecuteRload. rule_comparison.
  - unfold ExecuteRstore. rule_comparison.
  - unfold ExecuteHalt. rule_comparison.
  - unfold ExecuteInterrupt. rule_comparison.
  - unfold ExecuteNop. rule_comparison.
  - unfold ExecutePush. rule_comparison.
  - unfold ExecutePushAll. rule_comparison.
  - unfold ExecutePop. rule_comparison.
  - unfold ExecutePopAll. rule_comparison.
  - unfold ExecuteLSP. rule_comparison.
Qed.

Lemma RunVM_iteration_comparison_exclusive vm halt vm' :
  comparison_exclusive vm ->
  RunVM_iteration vm = Ok halt vm' -> comparison_exclusive vm'.
Proof.
  intros Hexcl Hturn. apply RunVM_iteration_cases in Hturn
    as [(_ & -> & _) | (op & _ & _ & [(_ & -> & _) | Hrule])];
    try exact Hexcl.
  destruct Hrule as (index & ins & f & _ & _ & Hentry & Hexec & Hrule).
  apply (rule_comparison_exclusive ins f vm halt vm'
           (lookup_registered _ _ _ Hentry Hexec) Hexec Hexcl Hrule).
Qed.

(** However far a defined run has come, returned or still running, the stack
    pointer is between the stack fence and the end of the tape and is a
    multiple of four, as it was at the start. *)
Theorem RunVM_keeps_stack_in_bounds fuel vm vm' :
  wf_vm vm ->
  stack_discipline vm ->
  RunVM fuel vm = Returned vm' \/ RunVM fuel vm = Running vm' ->
  stack_discipline vm'.
Proof.
  intros Hwf Hdisc.
  apply (RunVM_invariant stack_discipline
           RunVM_iteration_stack_discipline fuel vm vm' Hwf Hdisc).
Qed.

Lemma RunVM_keeps_stack_in_bounds_witness : stack_discipline after_const.
Proof.
  apply (RunVM_keeps_stack_in_bounds 1 (load_file const_then_halt)
           after_const).
  - wf_by_computation.
  - unfold stack_discipline. vm_compute.
    repeat split; try reflexivity; discriminate.
  - right. vm_compute. reflexivity.
Defined.

(** No run changes the size of the tape, the stack fence, the opcode map or
    the number of cells of the tape. *)
Theorem RunVM_keeps_configuration fuel vm vm' :
  RunVM fuel vm = Returned vm' \/ RunVM fuel vm = Running vm' ->
  memory_size vm' = memory_size vm
  /\ stack_limit vm' = stack_limit vm
  /\ opcode_map vm' = opcode_map vm
  /\ length (memory vm') = length (memory vm).
Proof.
  intros Hrun.
  assert (configuration vm' = configuration vm) as Hconf.
  { revert vm Hrun. induction fuel as [ | fuel IH]; intros vm; simpl.
    - intros [H | H]; [ discriminate | ]. injection H as <-. reflexivity.
    - destruct (RunVM_iteration vm) as [[] vm1 | vm1] eqn:Hturn.
      + intros [H | H]; [ | discriminate ]. injection H as <-.
        apply (RunVM_iteration_configuration _ _ _ Hturn).
      + intros Hrun. rewrite (IH _ Hrun).
        apply (RunVM_iteration_configuration _ _ _ Hturn).
      + intros [H | H]; discriminate. }
  unfold configuration in Hconf. injection Hconf as -> -> -> ->.
  repeat split.
Qed.

Lemma RunVM_keeps_configuration_witness :
  memory_size after_const = memory_size (load_file const_then_halt)
  /\ stack_limit after_const = stack_limit (load_file const_then_halt)
  /\ opcode_map after_const = opcode_map (load_file const_then_halt)
  /\ length (memory after_const)
     = length (memory (load_file const_then_halt)).
Proof.
  apply (RunVM_keeps_configuration 1 (load_file const_then_halt)
           after_const).
  right. vm_compute. reflexivity.
Defined.

(** In every state that a defined run of a loaded program file reaches, the
    stack fence is above the last byte of the program and the stack pointer
    is between the fence and the end of the allocated tape. *)
Theorem loaded_program_stack_above_program file fuel vm' :
  Forall (fun b => 0 <= b < 2 ^ 8) file ->
  2 * Z.of_nat (length file) < 2 ^ 31 - 4 ->
  RunVM fuel (load_file file) = Returned vm'
  \/ RunVM fuel (load_file file) = Running vm' ->
  Z.of_nat (length file) < stack_limit vm'
  /\ stack_limit vm' <= stack_pointer (cpu vm')
  /\ stack_pointer (cpu vm') <= Z.of_nat (length (memory vm'))
  /\ stack_pointer (cpu vm') mod 4 = 0.
Proof.
  intros Hbytes Hsize Hrun.
  destruct (load_file_wf file Hbytes Hsize) as (Hwf & _ & _).
  destruct (load_file_stack_discipline file Hsize) as (Hdisc & Habove & _).
  pose proof (RunVM_invariant stack_discipline
                RunVM_iteration_stack_discipline fuel _ vm' Hwf Hdisc Hrun)
    as (_ & Hsp & Hsp4 & _ & _).
  pose proof (RunVM_invariant
                (fun vm => stack_limit vm = stack_limit (load_file file))
                (fun vm halt vm1 _ Hsame Hturn =>
                   eq_trans
                     (f_equal (fun c => snd (fst (fst c)))
                        (RunVM_iteration_configuration vm halt vm1 Hturn))
                     Hsame)
                fuel _ vm' Hwf eq_refl Hrun) as Hlimit.
  pose proof (RunVM_wf fuel _ vm' Hwf Hrun) as Hwf'.
  rewrite (wf_tape vm' Hwf'). rewrite Hlimit. repeat split; try lia.
  rewrite <- Hlimit. lia.
Qed.

Lemma loaded_program_stack_above_program_witness :
  Z.of_nat (length const_then_halt) < stack_limit after_const
  /\ stack_limit after_const <= stack_pointer (cpu after_const)
  /\ stack_pointer (cpu after_const) <= Z.of_nat (length (memory after_const))
  /\ stack_pointer (cpu after_const) mod 4 = 0.
Proof.
  apply (loaded_program_stack_above_program const_then_halt 1 after_const).
  - repeat constructor; vm_compute; try discriminate; reflexivity.
  - vm_compute. reflexivity.
  - right. vm_compute. reflexivity.
Defined.

(** At most one of the three comparison flags is set in any state that a
    defined run reaches from a machine of which this is true. *)
Theorem RunVM_keeps_comparison_exclusive fuel vm vm' :
  comparison_exclusive vm ->
  RunVM fuel vm = Returned vm' \/ RunVM fuel vm = Running vm' ->
  comparison_exclusive vm'.
Proof.
  revert vm. induction fuel as [ | fuel IH]; intros vm Hexcl; simpl.
  - intros [H | H]; [ discriminate | ]. injection H as <-. exact Hexcl.
  - destruct (RunVM_iteration vm) as [[] vm1 | vm1] eqn:Hturn.
    + intros [H | H]; [ | discriminate ]. injection H as <-.
      apply (RunVM_iteration_comparison_exclusive _ _ _ Hexcl Hturn).
    + apply IH.
      apply (RunVM_iteration_comparison_exclusive _ _ _ Hexcl Hturn).
    + intros [H | H]; discriminate.
Qed.

Lemma RunVM_keeps_comparison_exclusive_witness :
  comparison_exclusive after_cmp.
Proof.
  apply (RunVM_keeps_comparison_exclusive 1 (cmp_je_machine [3; 3; 0; 0])
           after_cmp).
  - repeat split.
  - right. vm_compute. reflexivity.
Defined.

End Runs.

(** ** Turns that return *)

Section Returns.

Implicit Types (vm : TOYVM) (ins : instruction).

Lemma raise_sets_fault_flag vm vm' :
  vm' ∈ halted_states vm -> fault_flag_set vm' = false -> vm' = vm.
Proof.
  unfold halted_states. intros Hin Hquiet.
  repeat (apply elem_of_cons in Hin as [-> | Hin]);
    try reflexivity;
    try (unfold fault_flag_set in Hquiet; simpl in Hquiet;
         rewrite ?orb_true_r in Hquiet; simpl in Hquiet; discriminate).
  apply elem_of_nil in Hin. destruct Hin.
Qed.

Ltac rule_return :=
  unfold advance; split_rule; try discriminate;
  intros [= <-]; unfold halted_states; repeat constructor.

(** A rule that returns [true] has raised one fault flag or none, and has
    done nothing else. *)
Lemma rule_return_state ins f vm vm' :
  registered ins ->
  execute ins = Some f ->
  f vm = Ok true vm' ->
  vm' ∈ halted_states vm.
Proof.
  intros Hreg Hexec. apply registered_cases in Hreg.
  repeat (apply elem_of_cons in Hreg as [-> | Hreg]);
    try (apply elem_of_nil in Hreg; destruct Hreg);
    injection Hexec as <-.
  - unfold ExecuteAdd. rule_return.
  - unfold ExecuteNeg. rule_return.
  - unfold ExecuteMul. rule_return.
  - unfold ExecuteDiv. rule_return.
  - unfold ExecuteMod. rule_return.
  - unfold ExecuteCmp. rule_return.
  - unfold ExecuteJumpIfAbove. rule_return.
  - unfold ExecuteJumpIfEqual. rule_return.
  - unfold ExecuteJumpIfBelow. rule_return.
  - unfold ExecuteJump. rule_return.
  - unfold ExecuteCall. rule_return.
  - unfold ExecuteRet. rule_return.
  - unfold ExecuteLoad. rule_return.
  - unfold ExecuteStore. rule_return.
  - unfold ExecuteConst. rule_return.
  - unfold ExecuteRload. rule_return.
  - unfold ExecuteRstore. rule_return.
  - unfold ExecuteHalt. rule_return.
  - unfold ExecuteInterrupt. rule_return.
  - unfold ExecuteNop. rule_return.
  - unfold ExecutePush. rule_return.
  - unfold ExecutePushAll. rule_return.
  - unfold ExecutePop. rule_return.
  - unfold ExecutePopAll. rule_return.
  - unfold ExecuteLSP. rule_return.
Qed.

Ltac rule_quiet :=
  unfold advance; split_rule; try discriminate;
  intros [= <-] Hquiet;
  try (unfold fault_flag_set in Hquiet; simpl in Hquiet;
       rewrite ?orb_true_r in Hquiet; simpl in Hquiet; discriminate).

(** The rules that return [true] with no fault flag set. *)
Lemma rule_quiet_return ins f vm vm' :
  registered ins ->
  execute ins = Some f ->
  f vm = Ok true vm' ->
  fault_flag_set vm' = false ->
  quiet_return vm (opcode ins).
Proof.
  intros Hreg Hexec. apply registered_cases in Hreg.
  repeat (apply elem_of_cons in Hreg as [-> | Hreg]);
    try (apply elem_of_nil in Hreg; destruct Hreg);
    injection Hexec as <-; cbn [opcode].
  - unfold ExecuteAdd. rule_quiet.
  - unfold ExecuteNeg. rule_quiet.
  - unfold ExecuteMul. rule_quiet.
  - unfold ExecuteDiv. rule_quiet.
  - unfold ExecuteMod. rule_quiet.
  - unfold ExecuteCmp. rule_quiet.
  - unfold ExecuteJumpIfAbove. rule_quiet.
  - unfold ExecuteJumpIfEqual. rule_quiet.
  - unfold ExecuteJumpIfBelow. rule_quiet.
  - unfold ExecuteJump. rule_quiet.
  - unfold ExecuteCall. rule_quiet.
  - unfold ExecuteRet. rule_quiet.
  - unfold ExecuteLoad. rule_quiet.
  - unfold ExecuteStore. rule_quiet.
  - unfold ExecuteConst. rule_quiet.
  - unfold ExecuteRload. rule_quiet.
  - unfold ExecuteRstore. rule_quiet.
  - intros _ _. left. reflexivity.
  - unfold ExecuteInterrupt. rule_quiet;
      (right; right; right; split; [ reflexivity | ];
       split; [ assumption | ];
       match goal with
       | H : ReadByte vm (GetProgramCounter vm + 1) = Some ?n |- _ =>
           exists n; split; [ exact H | ]
       end;
       split; apply Z.eqb_neq; assumption).
  - unfold ExecuteNop. rule_quiet.
  - unfold ExecutePush. rule_quiet.
    right. left. split; [ reflexivity | assumption ].
  - unfold ExecutePushAll. rule_quiet.
  - unfold ExecutePop. rule_quiet.
    right. right. left. split; [ reflexivity | assumption ].
  - unfold ExecutePopAll. rule_quiet.
  - unfold ExecuteLSP. rule_quiet.
Qed.

(** The opcode map leads from an opcode to the row of [instructions] that
    carries this opcode. *)
Lemma dispatch_table op index ins :
  0 <= op ->
  initial_opcode_map !! Z.to_nat op = Some index ->
  index <> 0 ->
  instructions !! Z.to_nat index = Some ins ->
  opcode ins = op.
Proof.
  intros Hop. rewrite <- (Z2Nat.id op Hop) at 2.
  generalize (Z.to_nat op) as k. clear op Hop. intros k Hindex Hnz Hentry.
  assert ((opcode <$> instructions) !! Z.to_nat index = Some (opcode ins))
    as Hrow.
  { rewrite list_lookup_fmap, Hentry. reflexivity. }
  clear Hentry. revert Hindex Hnz Hrow. generalize (opcode ins) as o.
  intros o.
  let m := eval vm_compute in initial_opcode_map in
  change initial_opcode_map with m.
  let t := eval vm_compute in (opcode <$> instructions) in
  change (opcode <$> instructions) with t.
  do 256 (destruct k as [ | k];
          [ cbn [lookup list_lookup]; intros [= <-] Hnz Hrow;
            first [ destruct Hnz; reflexivity
                  | vm_compute in Hrow; injection Hrow as <-; reflexivity ]
          | cbn [lookup list_lookup] ]).
  intros Hindex. discriminate Hindex.
Qed.

(** An opcode outside the table maps to row 0. *)
Lemma unassigned_opcode_row op :
  0 <= op < 2 ^ 8 ->
  op ∉ assigned_opcodes ->
  initial_opcode_map !! Z.to_nat op = Some 0.
Proof.
  intros Hop Hnot.
  assert (op = Z.of_nat (Z.to_nat op)) as Hk by lia.
  assert (Z.to_nat op < 256)%nat as Hlt by lia.
  revert Hk Hlt Hnot. generalize (Z.to_nat op) as k. intros k -> Hlt.
  clear Hop.
  let m := eval vm_compute in initial_opcode_map in
  change initial_opcode_map with m.
  let t := eval vm_compute in assigned_opcodes in
  change assigned_opcodes with t.
  do 256 (destruct k as [ | k];
          [ intros Hnot;
            first [ reflexivity
                  | exfalso; apply Hnot; vm_compute;
                    repeat constructor ]
          | cbn [lookup list_lookup] ]).
  lia.
Qed.


Lemma RunVM_iteration_return_state vm vm' :
  RunVM_iteration vm = Ok true vm' -> vm' ∈ halted_states vm.
Proof.
  intros Hturn. apply RunVM_iteration_cases in Hturn
    as [(_ & -> & _) | (op & _ & _ & [(_ & -> & _) | Hrule])].
  - unfold halted_states. repeat constructor.
  - unfold halted_states. repeat constructor.
  - destruct Hrule as (index & ins & f & _ & _ & Hentry & Hexec & Hrule).
    apply (rule_return_state ins f vm vm'
             (lookup_registered _ _ _ Hentry Hexec) Hexec Hrule).
Qed.

(** A turn of the loop that returns leaves the machine as it found it, but
    for at most one fault flag that it has raised: the tape, the registers,
    the program counter, the stack pointer, the comparison flags and the
    output are untouched. *)
Theorem returning_turn_only_raises_a_flag vm vm' :
  RunVM_iteration vm = Ok true vm' ->
  vm' ∈ halted_states vm
  /\ memory vm' = memory vm
  /\ registers (cpu vm') = registers (cpu vm)
  /\ program_counter (cpu vm') = program_counter (cpu vm)
  /\ stack_pointer (cpu vm') = stack_pointer (cpu vm)
  /\ console vm' = console vm.
Proof.
  intros Hturn. apply RunVM_iteration_return_state in Hturn.
  split; [ exact Hturn | ].
  unfold halted_states in Hturn.
  repeat (apply elem_of_cons in Hturn as [-> | Hturn]);
    try (repeat split; reflexivity).
  apply elem_of_nil in Hturn. destruct Hturn.
Qed.

Lemma returning_turn_only_raises_a_flag_witness :
  raise_BAD_ACCESS wild_jump_target ∈ halted_states wild_jump_target
  /\ memory (raise_BAD_ACCESS wild_jump_target) = memory wild_jump_target
  /\ registers (cpu (raise_BAD_ACCESS wild_jump_target))
     = registers (cpu wild_jump_target)
  /\ program_counter (cpu (raise_BAD_ACCESS wild_jump_target))
     = program_counter (cpu wild_jump_target)
  /\ stack_pointer (cpu (raise_BAD_ACCESS wild_jump_target))
     = stack_pointer (cpu wild_jump_target)
  /\ console (raise_BAD_ACCESS wild_jump_target) = console wild_jump_target.
Proof.
  apply (returning_turn_only_raises_a_flag wild_jump_target
           (raise_BAD_ACCESS wild_jump_target)).
  vm_compute. reflexivity.
Defined.

(** A turn of the loop that returns on a well-formed machine with no fault
    flag set has changed nothing, and the instruction it met is [HALT],
    a [PUSH] on a full stack, a [POP] on an empty stack, or an [INT] whose
    number is neither of the two interrupts. *)
Theorem quiet_return_cases vm vm' :
  wf_vm vm ->
  RunVM_iteration vm = Ok true vm' ->
  fault_flag_set vm' = false ->
  vm' = vm
  /\ exists op,
       ReadByte vm (program_counter (cpu vm)) = Some op
       /\ quiet_return vm op.
Proof.
  intros Hwf Hturn Hquiet.
  pose proof (RunVM_iteration_return_state _ _ Hturn) as Hstate.
  split; [ apply (raise_sets_fault_flag _ _ Hstate Hquiet) | ].
  apply RunVM_iteration_cases in Hturn
    as [(_ & -> & _) | (op & Hpc & Hop & [(_ & -> & _) | Hrule])].
  - unfold fault_flag_set in Hquiet. simpl in Hquiet. discriminate.
  - unfold fault_flag_set in Hquiet. simpl in Hquiet.
    rewrite ?orb_true_r in Hquiet. discriminate.
  - destruct Hrule as (index & ins & f & Hindex & Hnz & Hentry & Hexec & Hrule).
    exists op. split; [ exact Hop | ].
    rewrite (wf_opcode_map vm Hwf) in Hindex.
    assert (0 <= op) as Hpos.
    { unfold ReadByte in Hop.
      destruct (0 <=? program_counter (cpu vm)); [ | discriminate ].
      pose proof (Forall_lookup_1 _ _ _ _ (wf_bytes vm Hwf) Hop). simpl in *.
      lia. }
    rewrite <- (dispatch_table op index ins Hpos Hindex Hnz Hentry).
    apply (rule_quiet_return ins f vm vm'
             (lookup_registered _ _ _ Hentry Hexec) Hexec Hrule Hquiet).
Qed.

Lemma quiet_return_cases_witness :
  pop_on_empty_stack = pop_on_empty_stack
  /\ exists op,
       ReadByte pop_on_empty_stack (program_counter (cpu pop_on_empty_stack))
       = Some op
       /\ quiet_return pop_on_empty_stack op.
Proof.
  apply (quiet_return_cases pop_on_empty_stack pop_on_empty_stack).
  - wf_by_computation.
  - vm_compute. reflexivity.
  - reflexivity.
Defined.



Lemma unassigned_opcode_turn vm op :
  opcode_map vm = initial_opcode_map ->
  0 <= program_counter (cpu vm) < memory_size vm ->
  ReadByte vm (program_counter (cpu vm)) = Some op ->
  0 <= op < 2 ^ 8 ->
  op ∉ assigned_opcodes ->
  RunVM_iteration vm = Ok true (raise_BAD_INSTRUCTION vm).
Proof.
  intros Hmap Hpc Hop Hbyte Hnot.
  unfold RunVM_iteration, GetProgramCounter.
  destruct (Z.ltb_spec (program_counter (cpu vm)) 0); [ lia | ].
  destruct (Z.leb_spec (memory_size vm) (program_counter (cpu vm)));
    [ lia | ].
  cbn [orb]. rewrite Hop. cbn [defined]. rewrite Hmap.
  rewrite (unassigned_opcode_row op Hbyte Hnot). reflexivity.
Qed.

(** A byte at the program counter that is none of the 25 opcodes makes the
    loop return with [BAD_INSTRUCTION] raised and nothing else changed. *)
Theorem unassigned_opcode_raises_BAD_INSTRUCTION vm op :
  opcode_map vm = initial_opcode_map ->
  0 <= program_counter (cpu vm) < memory_size vm ->
  ReadByte vm (program_counter (cpu vm)) = Some op ->
  0 <= op < 2 ^ 8 ->
  op ∉ assigned_opcodes ->
  forall fuel,
    RunVM (S fuel) vm = Returned (raise_BAD_INSTRUCTION vm).
Proof.
  intros Hmap Hpc Hop Hbyte Hnot fuel. simpl.
  rewrite (unassigned_opcode_turn vm op Hmap Hpc Hop Hbyte Hnot).
  reflexivity.
Qed.

Lemma unassigned_opcode_raises_BAD_INSTRUCTION_witness :
  RunVM 1 (load_file [0x06; HALT])
  = Returned (raise_BAD_INSTRUCTION (load_file [0x06; HALT])).
Proof.
  refine (unassigned_opcode_raises_BAD_INSTRUCTION
            (load_file [0x06; HALT]) 0x06 _ _ _ _ _ 0%nat).
  - reflexivity.
  - vm_compute. split; [ discriminate | reflexivity ].
  - reflexivity.
  - vm_compute. split; [ discriminate | reflexivity ].
  - vm_compute. intros Hin.
    repeat (apply elem_of_cons in Hin as [Hin | Hin]; [ discriminate | ]).
    apply elem_of_nil in Hin. exact Hin.
Defined.

(** A byte at the program counter that is one of the 25 opcodes makes the
    loop run the rule of the one row of [instructions] with this opcode. *)
Theorem assigned_opcode_runs_its_rule vm op :
  opcode_map vm = initial_opcode_map ->
  0 <= program_counter (cpu vm) < memory_size vm ->
  ReadByte vm (program_counter (cpu vm)) = Some op ->
  op ∈ assigned_opcodes ->
  NoDup assigned_opcodes
  /\ exists ins f,
       ins ∈ instructions
       /\ opcode ins = op
       /\ execute ins = Some f
       /\ RunVM_iteration vm = f vm.
Proof.
  intros Hmap Hpc Hop Hin. split.
  { apply (bool_decide_unpack _). vm_compute. exact I. }
  unfold assigned_opcodes in Hin.
  apply list_elem_of_fmap in Hin as (ins & -> & Hin).
  assert (registered ins) as Hreg.
  { cbn [drop instructions] in Hin.
    repeat (apply elem_of_cons in Hin as [-> | Hin]);
      try (split; [ repeat constructor | eexists; reflexivity ]).
    apply elem_of_nil in Hin. destruct Hin. }
  destruct Hreg as [Hrow [f Hexec]].
  exists ins, f. split; [ exact Hrow | ]. split; [ reflexivity | ].
  split; [ exact Hexec | ].
  apply (RunVM_iteration_registered vm ins f Hmap Hpc Hop
           (conj Hrow (ex_intro _ f Hexec)) Hexec).
Qed.

Lemma assigned_opcode_runs_its_rule_witness :
  NoDup assigned_opcodes
  /\ exists ins f,
       ins ∈ instructions
       /\ opcode ins = CONST
       /\ execute ins = Some f
       /\ RunVM_iteration (load_file const_then_halt)
          = f (load_file const_then_halt).
Proof.
  apply (assigned_opcode_runs_its_rule (load_file const_then_halt) CONST).
  - reflexivity.
  - vm_compute. split; [ discriminate | reflexivity ].
  - reflexivity.
  - unfold assigned_opcodes. cbn [drop instructions fmap list_fmap opcode].
    repeat constructor.
Defined.

End Returns.

(** * Pushing a register and printing it *)

Section Interrupts.

Implicit Types (vm : TOYVM).

Lemma registered_PUSH : registered (mk_instruction PUSH 2 (Some ExecutePush)).
Proof. split; [ repeat constructor | eexists; reflexivity ]. Qed.

Lemma registered_INT :
  registered (mk_instruction INT 2 (Some ExecuteInterrupt)).
Proof. split; [ repeat constructor | eexists; reflexivity ]. Qed.

Lemma ExecutePush_step vm r value vmw :
  wf_vm vm ->
  0 <= program_counter (cpu vm) ->
  program_counter (cpu vm) + 2 <= memory_size vm ->
  ReadByte vm (program_counter (cpu vm) + 1) = Some r ->
  IsValidRegisterIndex r = true ->
  read_register vm r = Some value ->
  stack_limit vm < stack_pointer (cpu vm) ->
  4 <= stack_pointer (cpu vm) ->
  WriteWord vm (stack_pointer (cpu vm) - 4) value = Some vmw ->
  ExecutePush vm
  = Ok false
      (set_program_counter (program_counter (cpu vm) + 2)
         (set_stack_pointer (stack_pointer (cpu vm) - 4) vmw)).
Proof.
  intros Hwf Hpc Hin Hr Hvr Hvalue Hroom Hsp Hwrite.
  destruct Hwf as [Hlen Hms Hregs Hmap _ Hspr _ _ _].
  pose proof (InstructionFitsInMemory_true vm _ registered_PUSH Hmap Hpc Hms
                Hin) as Hfit. cbn [opcode] in Hfit.
  assert (to_int32 (stack_pointer (cpu vm) - 4) = stack_pointer (cpu vm) - 4)
    as Hdown.
  { apply to_int32_small. unfold in_int32, int32_min, int32_max in *. lia. }
  unfold ExecutePush, GetProgramCounter, StackIsFull.
  rewrite Hfit. cbn [negb defined].
  destruct (Z.leb_spec (stack_pointer (cpu vm)) (stack_limit vm)); [ lia | ].
  rewrite Hr. cbn [defined]. rewrite Hvr. cbn [negb].
  rewrite Hvalue. cbn [defined]. rewrite Hdown, Hwrite. cbn [defined].
  pose proof (WriteWord_frame _ _ _ _ Hwrite) as (Hcpu & _ & _ & Hmap1 & _).
  rewrite Hcpu, Hdown.
  pose proof (advance_registered
                (set_stack_pointer (stack_pointer (cpu vm) - 4) vmw)
                _ registered_PUSH) as Hadv.
  cbn [opcode size] in Hadv. simpl in Hadv. rewrite Hcpu in Hadv.
  apply Hadv; [ congruence | lia | unfold int32_max in *; lia ].
Qed.

Lemma ExecuteInterrupt_print_integer_step vm word :
  wf_vm vm ->
  0 <= program_counter (cpu vm) ->
  program_counter (cpu vm) + 2 <= memory_size vm ->
  ReadByte vm (program_counter (cpu vm) + 1) = Some INTERRUPT_PRINT_INTEGER ->
  stack_pointer (cpu vm) < memory_size vm ->
  ReadWord vm (stack_pointer (cpu vm)) = Some word ->
  ExecuteInterrupt vm
  = Ok false
      (set_program_counter (program_counter (cpu vm) + 2)
         (set_console (console vm ++ [PrintedInteger word])
            (set_stack_pointer (to_int32 (stack_pointer (cpu vm) + 4)) vm))).
Proof.
  intros Hwf Hpc Hin Hn Hdata Hword.
  destruct Hwf as [Hlen Hms Hregs Hmap _ Hspr _ _ _].
  pose proof (InstructionFitsInMemory_true vm _ registered_INT Hmap Hpc Hms
                Hin) as Hfit. cbn [opcode] in Hfit.
  unfold ExecuteInterrupt, GetProgramCounter, PopVM, StackIsEmpty.
  rewrite Hfit. cbn [negb defined]. rewrite Hn. cbn [defined].
  destruct (Z.leb_spec (memory_size vm) (stack_pointer (cpu vm))); [ lia | ].
  change (INTERRUPT_PRINT_INTEGER =? INTERRUPT_PRINT_INTEGER) with true.
  cbv iota. rewrite Hword. cbn [defined].
  pose proof (advance_registered
                (set_console (console vm ++ [PrintedInteger word])
                   (set_stack_pointer
                      (to_int32 (stack_pointer (cpu vm) + 4)) vm))
                _ registered_INT) as Hadv.
  cbn [opcode size] in Hadv. simpl in Hadv.
  apply Hadv; [ exact Hmap | lia | unfold int32_max in *; lia ].
Qed.

(** [PUSH r] followed by [INT 1], run by the loop, prints the value of the
    register as an integer and leaves the registers and the stack pointer
    as they were, the program counter four bytes further on. *)
Theorem push_then_print_integer vm r value :
  wf_vm vm ->
  0 <= program_counter (cpu vm) ->
  ReadByte vm (program_counter (cpu vm)) = Some PUSH ->
  ReadByte vm (program_counter (cpu vm) + 1) = Some r ->
  ReadByte vm (program_counter (cpu vm) + 2) = Some INT ->
  ReadByte vm (program_counter (cpu vm) + 3) = Some INTERRUPT_PRINT_INTEGER ->
  IsValidRegisterIndex r = true ->
  read_register vm r = Some value ->
  stack_limit vm < stack_pointer (cpu vm) <= memory_size vm ->
  program_counter (cpu vm) + 4 <= stack_pointer (cpu vm) - 4 ->
  exists vm',
    RunVM 2 vm = Running vm'
    /\ console vm' = console vm ++ [PrintedInteger value]
    /\ registers (cpu vm') = registers (cpu vm)
    /\ stack_pointer (cpu vm') = stack_pointer (cpu vm)
    /\ program_counter (cpu vm') = program_counter (cpu vm) + 4.
Proof.
  intros Hwf Hpc Hop1 Hr Hop2 Hn Hvr Hvalue Hsp Hbelow.
  pose proof (wf_tape vm Hwf) as Hlen.
  pose proof (wf_memory_size vm Hwf) as Hms.
  pose proof (wf_opcode_map vm Hwf) as Hmap.
  pose proof (read_register_range _ _ _ Hvalue Hwf) as Hrange.
  destruct (WriteWord_defined vm (stack_pointer (cpu vm) - 4) value)
    as [vmw Hwrite]; [ lia | lia | ].
  pose proof (WriteWord_frame _ _ _ _ Hwrite)
    as (Hcpu & Hms1 & _ & Hmap1 & Hcon & _).
  pose proof (ExecutePush_step vm r value vmw Hwf Hpc ltac:(lia) Hr Hvr Hvalue
                ltac:(lia) ltac:(lia) Hwrite) as Hstep1.
  set (vm1 := set_program_counter (program_counter (cpu vm) + 2)
                (set_stack_pointer (stack_pointer (cpu vm) - 4) vmw)) in *.
  assert (wf_vm vm1) as Hwf1.
  { apply (rule_wf_vm _ _ vm false vm1 registered_PUSH eq_refl Hwf Hstep1). }
  assert (forall a, ReadByte vm1 a = ReadByte vmw a) as Htape
    by reflexivity.
  assert (ReadWord vm1 (stack_pointer (cpu vm) - 4) = Some value) as Hword.
  { rewrite (ReadWord_same_tape vm1 vmw) by reflexivity.
    apply (ReadWord_WriteWord_same _ _ _ _ Hwrite Hrange). }
  pose proof (ExecuteInterrupt_print_integer_step vm1 value Hwf1) as Hstep2.
  simpl in Hstep2. rewrite Hms1 in Hstep2.
  specialize (Hstep2 ltac:(lia) ltac:(lia)).
  rewrite Htape in Hstep2.
  rewrite (ReadByte_WriteWord_other _ _ _ _ _ Hwrite) in Hstep2 by lia.
  replace (program_counter (cpu vm) + 2 + 1)
    with (program_counter (cpu vm) + 3) in Hstep2 by lia.
  specialize (Hstep2 Hn ltac:(lia) Hword).
  eexists. split; [ | split; [ | split; [ | split ] ] ].
  - change (RunVM 2 vm)
      with (match RunVM_iteration vm with
            | Ok true vm' => Returned vm'
            | Ok false vm' =>
                match RunVM_iteration vm' with
                | Ok true vm'' => Returned vm''
                | Ok false vm'' => Running vm''
                | Undef vm'' => Undefined vm''
                end
            | Undef vm' => Undefined vm'
            end).
    rewrite (RunVM_iteration_registered vm
               (mk_instruction PUSH 2 (Some ExecutePush)) ExecutePush Hmap
               ltac:(lia) Hop1 registered_PUSH eq_refl).
    rewrite Hstep1.
    rewrite (RunVM_iteration_registered vm1
               (mk_instruction INT 2 (Some ExecuteInterrupt)) ExecuteInterrupt
               (wf_opcode_map vm1 Hwf1)); [ | | | exact registered_INT | reflexivity ].
    + rewrite Hstep2. reflexivity.
    + simpl. rewrite Hms1. lia.
    + simpl. rewrite Htape.
      rewrite (ReadByte_WriteWord_other _ _ _ _ _ Hwrite) by lia.
      exact Hop2.
  - simpl. rewrite Hcon. reflexivity.
  - simpl. rewrite Hcpu. reflexivity.
  - simpl. replace (stack_pointer (cpu vm) - 4 + 4)
      with (stack_pointer (cpu vm)) by lia.
    apply to_int32_small. pose proof (wf_stack_pointer vm Hwf) as Hspr.
    exact Hspr.
  - simpl. lia.
Qed.

Lemma push_then_print_integer_witness :
  exists vm',
    RunVM 2 (push_print_machine [42; 0; 0; 0]) = Running vm'
    /\ console vm'
       = console (push_print_machine [42; 0; 0; 0]) ++ [PrintedInteger 42]
    /\ registers (cpu vm') = registers (cpu (push_print_machine [42; 0; 0; 0]))
    /\ stack_pointer (cpu vm')
       = stack_pointer (cpu (push_print_machine [42; 0; 0; 0]))
    /\ program_counter (cpu vm')
       = program_counter (cpu (push_print_machine [42; 0; 0; 0])) + 4.
Proof.
  apply (push_then_print_integer (push_print_machine [42; 0; 0; 0]) REG1 42).
  - wf_by_computation.
  - vm_compute; discriminate.
  - reflexivity.
  - reflexivity.
  - reflexivity.
  - reflexivity.
  - reflexivity.
  - reflexivity.
  - vm_compute. split; [ reflexivity | discriminate ].
  - vm_compute; discriminate.
Defined.

End Interrupts.

(** * The public functions and main.c *)

Section PublicFunctions.

Implicit Types (vm : TOYVM).

(** With the stack pointer below the stack fence, the room left for the
    stack is negative; compared as a [size_t] it is more than the sixteen
    bytes that [PUSH_ALL] asks for, while [PUSH] takes the stack for full. *)
Theorem CanPerformMultipush_below_fence vm :
  int32_min <= stack_pointer (cpu vm) - stack_limit vm < 0 ->
  CanPerformMultipush vm = true /\ StackIsFull vm = true.
Proof.
  intros Hbelow. unfold CanPerformMultipush, StackIsFull, GetAvailableStackSize.
  rewrite to_int32_small by (unfold int32_min, int32_max in *; lia).
  split; [ | apply Z.leb_le; lia ].
  apply Z.leb_le. unfold to_size_t, N_REGISTERS, int32_min in *.
  Z.div_mod_to_equations. lia.
Qed.

Lemma CanPerformMultipush_below_fence_witness :
  CanPerformMultipush fence_beyond_tape = true
  /\ StackIsFull fence_beyond_tape = true.
Proof.
  apply (CanPerformMultipush_below_fence fence_beyond_tape).
  vm_compute. split; [ discriminate | reflexivity ].
Defined.

(** A machine fresh from [InitializeVM] has a tape of zeros, and zero is no
    opcode: [RunVM] returns from its first turn with [BAD_INSTRUCTION]
    raised and nothing else changed. *)
Theorem fresh_machine_returns_BAD_INSTRUCTION m s fuel :
  0 <= m < 2 ^ 31 - 4 ->
  0 <= s < 2 ^ 31 - 4 ->
  RunVM (S fuel) (InitializeVM m s)
  = Returned (raise_BAD_INSTRUCTION (InitializeVM m s)).
Proof.
  intros Hm Hs.
  destruct (InitializeVM_wf m s Hm Hs) as (Hwf & Htape & _ & Hpc & _).
  destruct (align_up_next_multiple m Hm) as (_ & Hlt & _).
  assert (memory_size (InitializeVM m s) = align_up m) as Hsize
    by reflexivity.
  assert (ReadByte (InitializeVM m s) 0 = Some 0) as Hbyte.
  { unfold ReadByte. cbn [Z.leb Z.compare]. rewrite Htape, Hsize.
    apply lookup_replicate_2. lia. }
  simpl RunVM.
  rewrite (unassigned_opcode_turn (InitializeVM m s) 0).
  - reflexivity.
  - apply (wf_opcode_map _ Hwf).
  - rewrite Hpc, Hsize. lia.
  - rewrite Hpc. exact Hbyte.
  - lia.
  - vm_compute. intros Hin.
    repeat (apply elem_of_cons in Hin as [Hin | Hin]; [ discriminate | ]).
    apply elem_of_nil in Hin. exact Hin.
Qed.

Lemma fresh_machine_returns_BAD_INSTRUCTION_witness :
  RunVM 1 (InitializeVM 8 4)
  = Returned (raise_BAD_INSTRUCTION (InitializeVM 8 4)).
Proof.
  apply (fresh_machine_returns_BAD_INSTRUCTION 8 4 0); lia.
Defined.

(** The machine that main.c hands to [RunVM] for a program file: the file at
    the start of a tape of zeros whose size is the least multiple of four
    above twice the file size, the stack fence at the least multiple of four
    above the file size, the stack empty, the program counter at zero, the
    registers zero and no fault flag set. *)
Theorem load_file_layout file :
  Forall (fun b => 0 <= b < 2 ^ 8) file ->
  2 * Z.of_nat (length file) < 2 ^ 31 - 4 ->
  let vm := load_file file in
  let n := Z.of_nat (length file) in
  wf_vm vm
  /\ take (length file) (memory vm) = file
  /\ drop (length file) (memory vm)
     = replicate (Z.to_nat (memory_size vm) - length file) 0
  /\ next_multiple_of_4 (2 * n) (memory_size vm)
  /\ next_multiple_of_4 n (stack_limit vm)
  /\ stack_pointer (cpu vm) = memory_size vm
  /\ program_counter (cpu vm) = 0
  /\ registers (cpu vm) = [0; 0; 0; 0]
  /\ fault_flag_set vm = false.
Proof.
  intros Hbytes Hsize vm n.
  destruct (load_file_wf file Hbytes Hsize) as (Hwf & _ & _).
  split; [ exact Hwf | ].
  subst vm. unfold load_file. fold n.
  assert (to_int32 (to_size_t (2 * n)) = 2 * n) as ->.
  { rewrite to_size_t_small by lia. apply to_int32_id.
    unfold in_int32, int32_min, int32_max. lia. }
  assert (to_int32 n = n) as ->.
  { apply to_int32_id. unfold in_int32, int32_min, int32_max. lia. }
  pose proof (align_up_next_multiple (2 * n) ltac:(lia)) as Hm.
  pose proof (align_up_next_multiple n ltac:(lia)) as Hs.
  simpl. rewrite take_app_length, drop_app_length, drop_replicate.
  repeat split; try assumption; try apply Hm; try apply Hs.
Qed.

Lemma load_file_layout_witness :
  let vm := load_file const_then_halt in
  let n := Z.of_nat (length const_then_halt) in
  wf_vm vm
  /\ take (length const_then_halt) (memory vm) = const_then_halt
  /\ drop (length const_then_halt) (memory vm)
     = replicate (Z.to_nat (memory_size vm) - length const_then_halt) 0
  /\ next_multiple_of_4 (2 * n) (memory_size vm)
  /\ next_multiple_of_4 n (stack_limit vm)
  /\ stack_pointer (cpu vm) = memory_size vm
  /\ program_counter (cpu vm) = 0
  /\ registers (cpu vm) = [0; 0; 0; 0]
  /\ fault_flag_set vm = false.
Proof.
  apply (load_file_layout const_then_halt).
  - repeat constructor; vm_compute; try discriminate; reflexivity.
  - vm_compute. reflexivity.
Defined.

End PublicFunctions.

(** * Printing a string and loading through a register *)

Section IndirectAccess.

Implicit Types (vm : TOYVM).

Lemma c_string_terminated text rest :
  Forall (fun b => b <> 0) text ->
  c_string (text ++ 0 :: rest) = Some text.
Proof.
  induction 1 as [ | b text Hb _ IH]; simpl.
  - reflexivity.
  - destruct (Z.eqb_spec b 0); [ contradiction | ].
    rewrite IH. reflexivity.
Qed.

(** [INT 2] takes an address off the stack and prints the bytes of the tape
    from this address up to the first zero byte. *)
Theorem print_string_interrupt vm address text rest :
  wf_vm vm ->
  0 <= program_counter (cpu vm) ->
  program_counter (cpu vm) + 2 <= memory_size vm ->
  ReadByte vm (program_counter (cpu vm)) = Some INT ->
  ReadByte vm (program_counter (cpu vm) + 1) = Some INTERRUPT_PRINT_STRING ->
  stack_pointer (cpu vm) + 4 <= memory_size vm ->
  ReadWord vm (stack_pointer (cpu vm)) = Some address ->
  0 <= address ->
  drop (Z.to_nat address) (memory vm) = text ++ 0 :: rest ->
  Forall (fun b => b <> 0) text ->
  RunVM 1 vm
  = Running
      (set_program_counter (program_counter (cpu vm) + 2)
         (set_console (console vm ++ [PrintedString text])
            (set_stack_pointer (stack_pointer (cpu vm) + 4) vm))).
Proof.
  intros Hwf Hpc Hin Hop Hn Hdata Hword Haddr Htext Hnz.
  pose proof (ReadWord_range _ _ _ Hword) as Hrange.
  destruct Hwf as [Hlen Hms Hregs Hmap _ Hspr _ _ _].
  pose proof (InstructionFitsInMemory_true vm _ registered_INT Hmap Hpc Hms
                Hin) as Hfit. cbn [opcode] in Hfit.
  simpl RunVM.
  rewrite (RunVM_iteration_registered vm
             (mk_instruction INT 2 (Some ExecuteInterrupt)) ExecuteInterrupt
             Hmap ltac:(lia) Hop registered_INT eq_refl).
  unfold ExecuteInterrupt, GetProgramCounter, PopVM, StackIsEmpty.
  rewrite Hfit. cbn [negb defined]. rewrite Hn. cbn [defined].
  destruct (Z.leb_spec (memory_size vm) (stack_pointer (cpu vm))); [ lia | ].
  change (INTERRUPT_PRINT_STRING =? INTERRUPT_PRINT_INTEGER) with false.
  change (INTERRUPT_PRINT_STRING =? INTERRUPT_PRINT_STRING) with true.
  cbv iota. rewrite Hword. cbn [defined].
  rewrite (to_int32_small (stack_pointer (cpu vm) + 4))
    by (unfold in_int32, int32_min, int32_max in *; lia).
  unfold PrintString. cbn [memory set_stack_pointer set_cpu].
  assert (to_uint32 address = address) as ->.
  { unfold to_uint32. apply Z.mod_small.
    unfold in_int32, int32_min, int32_max in Hrange. lia. }
  rewrite Htext, c_string_terminated by exact Hnz.
  cbn [mbind option_bind defined].
  pose proof (advance_registered
                (set_console (console vm ++ [PrintedString text])
                   (set_stack_pointer (stack_pointer (cpu vm) + 4) vm))
                _ registered_INT) as Hadv.
  cbn [opcode size] in Hadv. simpl in Hadv. simpl. rewrite Hadv.
  - reflexivity.
  - exact Hmap.
  - lia.
  - unfold int32_max in *. lia.
Qed.

Lemma print_string_interrupt_witness :
  RunVM 1 print_string_machine
  = Running
      (set_program_counter (program_counter (cpu print_string_machine) + 2)
         (set_console (console print_string_machine ++ [PrintedString [104; 105]])
            (set_stack_pointer (stack_pointer (cpu print_string_machine) + 4)
               print_string_machine))).
Proof.
  apply (print_string_interrupt print_string_machine 2 [104; 105]
           [0; 0; 0; 0; 0; 0; 0; 2; 0; 0; 0]).
  - wf_by_computation.
  - vm_compute; discriminate.
  - vm_compute; discriminate.
  - reflexivity.
  - reflexivity.
  - vm_compute; discriminate.
  - reflexivity.
  - lia.
  - reflexivity.
  - repeat constructor; discriminate.
Defined.

Lemma registered_RLOAD :
  registered (mk_instruction RLOAD 3 (Some ExecuteRload)).
Proof. split; [ repeat constructor | eexists; reflexivity ]. Qed.

(** [RLOAD a, d] with two valid registers loads into [d] the word of the
    tape at the address held by [a], sets no flag and goes on to the next
    instruction. *)
Theorem rload_reads_through_register vm a d address word :
  wf_vm vm ->
  0 <= program_counter (cpu vm) ->
  program_counter (cpu vm) + 3 <= memory_size vm ->
  ReadByte vm (program_counter (cpu vm)) = Some RLOAD ->
  ReadByte vm (program_counter (cpu vm) + 1) = Some a ->
  ReadByte vm (program_counter (cpu vm) + 2) = Some d ->
  IsValidRegisterIndex a = true ->
  IsValidRegisterIndex d = true ->
  read_register vm a = Some address ->
  ReadWord vm address = Some word ->
  RunVM 1 vm
  = Running
      (set_program_counter (program_counter (cpu vm) + 3)
         (set_registers (<[Z.to_nat d := word]> (registers (cpu vm))) vm)).
Proof.
  intros Hwf Hpc Hin Hop Ha Hd Hva Hvd Haddr Hword.
  destruct Hwf as [Hlen Hms Hregs Hmap _ _ _ _ _].
  pose proof (InstructionFitsInMemory_true vm _ registered_RLOAD Hmap Hpc Hms
                Hin) as Hfit. cbn [opcode] in Hfit.
  simpl RunVM.
  rewrite (RunVM_iteration_registered vm
             (mk_instruction RLOAD 3 (Some ExecuteRload)) ExecuteRload
             Hmap ltac:(lia) Hop registered_RLOAD eq_refl).
  unfold ExecuteRload, GetProgramCounter.
  rewrite Hfit. cbn [negb defined]. rewrite Ha, Hd. cbn [defined].
  rewrite Hva, Hvd. cbn [negb orb]. rewrite Haddr. cbn [defined].
  rewrite Hword. cbn [defined].
  rewrite (write_register_valid vm d word Hregs Hvd). cbn [defined].
  pose proof (advance_registered
                (set_registers (<[Z.to_nat d := word]> (registers (cpu vm))) vm)
                _ registered_RLOAD) as Hadv.
  cbn [opcode size] in Hadv. simpl in Hadv. rewrite Hadv.
  - reflexivity.
  - exact Hmap.
  - lia.
  - unfold int32_max in *. lia.
Qed.

Lemma rload_reads_through_register_witness :
  RunVM 1 (rload_machine [8; 0; 0; 0])
  = Running
      (set_program_counter
         (program_counter (cpu (rload_machine [8; 0; 0; 0])) + 3)
         (set_registers
            (<[Z.to_nat REG2 := 0x12345678]>
               (registers (cpu (rload_machine [8; 0; 0; 0]))))
            (rload_machine [8; 0; 0; 0]))).
Proof.
  apply (rload_reads_through_register (rload_machine [8; 0; 0; 0])
           REG1 REG2 8 0x12345678).
  - wf_by_computation.
  - vm_compute; discriminate.
  - vm_compute; discriminate.
  - reflexivity.
  - reflexivity.
  - reflexivity.
  - reflexivity.
  - reflexivity.
  - reflexivity.
  - reflexivity.
Defined.

End IndirectAccess.
